(** * Hydraulic engine of the mountain pipeline: model and verification

    Shallow embedding of [core/hidraulica.py], [core/tramos.py] and of the
    energy walk of [visualizaciones/mapa_piezometrico.py].

    Modelling conventions.
    - A Python/NumPy float is idealised as a real number ([R]): rounding,
      overflow and signed zeros are outside the model; [np.pi] is [PI].
      Where a statement depends on rounding (the reset of a
      pressure-break tank, the balance of a pump station) the code is
      read a second time over an interface of float operations
      ([Flotante]), with reals rounded after every operation and with
      IEEE binary64 as its instances.
    - A Python exception is an explicit outcome ([Raise]).  Python's own
      float division raises [ZeroDivisionError] on a zero divisor.
    - A NumPy operation never raises: outside its domain it yields [nan]
      or [inf] (with a RuntimeWarning) and Python keeps computing with it.
      Such a value is not a real number, so the model stops there with
      the outcome [NotReal]; the same outcome stands for the complex
      number Python produces for a negative base raised to a fractional
      power.
    - [scipy.optimize.fsolve] is a library outside the repository: its
      MINPACK iteration is a parameter ([solver]); only the status
      dispatch of its wrapper is written out. *)

From Stdlib Require Import Floats Uint63.
From Stdlib Require Import Reals Lra Lia ZArith List Bool Sorted.
Import ListNotations.
Open Scope R_scope.

(** ** Outcomes of Python code *)

Inductive pyexn : Type :=
| ZeroDivisionError
| TypeError
| KeyError.

Inductive res (A : Type) : Type :=
| Ok (a : A)
| Raise (e : pyexn)
| NotReal.

Arguments Ok {A} a.
Arguments Raise {A} e.
Arguments NotReal {A}.

Definition bind {A B : Type} (c : res A) (k : A -> res B) : res B :=
  match c with
  | Ok a => k a
  | Raise e => Raise e
  | NotReal => NotReal
  end.

Notation "x <- c ;; k" := (bind c (fun x => k))
  (at level 61, c at next level, right associativity).

(** ** Float primitives *)

(** Python [x / y] on floats. *)
Definition pydiv (x y : R) : res R :=
  if Req_dec_T y 0 then Raise ZeroDivisionError else Ok (x / y).

(** NumPy [x / y]: a zero divisor gives [inf] or [nan], never an exception. *)
Definition npdiv (x y : R) : res R :=
  if Req_dec_T y 0 then NotReal else Ok (x / y).

(** [np.log10]: [-inf] at zero, [nan] below. *)
Definition np_log10 (x : R) : res R :=
  if Rlt_dec 0 x then Ok (ln x / ln 10) else NotReal.

(** [np.sqrt]: [nan] below zero. *)
Definition np_sqrt (x : R) : res R :=
  if Rle_dec 0 x then Ok (sqrt x) else NotReal.

(** Python [x ** y] for the two exponents the source uses (1.11 and 0.9:
    positive, not integers): a negative base gives a complex number. *)
Definition float_pow (x y : R) : res R :=
  if Rlt_dec 0 x then Ok (Rpower x y)
  else if Req_dec_T x 0 then Ok 0
  else NotReal.

(** ** core/hidraulica.py *)

Definition g : R := 9.81.

Definition area_seccion (D : R) : R := PI * D ^ 2 / 4.

Definition velocidad (Q A : R) : res R := pydiv Q A.

Definition carga_cinetica (v : R) : R := v ^ 2 / (2 * g).

Definition reynolds (rho v D mu : R) : res R := pydiv (rho * v * D) mu.

Definition f_haaland (Re epsilon D : R) : res R :=
  if Rle_dec Re 0 then Ok 0
  else
    rr <- pydiv epsilon D ;;
    p <- float_pow (rr / 3.7) 1.11 ;;
    q <- pydiv 6.9 Re ;;
    let termino := p + q in
    l <- np_log10 termino ;;
    let inv_sqrt_f := - 1.8 * l in
    npdiv 1 (inv_sqrt_f ^ 2).

(** The inner residual [ecuacion] of [f_colebrook]. *)
Definition ecuacion (Re epsilon D : R) (f : R) : res R :=
  if Rle_dec f 0 then Ok 1
  else
    s <- np_sqrt f ;;
    a <- npdiv 1 s ;;
    rr <- pydiv epsilon D ;;
    s' <- np_sqrt f ;;
    c <- npdiv 2.51 (Re * s') ;;
    l <- np_log10 (rr / 3.7 + c) ;;
    Ok (a + 2 * l).

(** What MINPACK's hybrd hands back to [fsolve]: the last iterate and the
    termination status (1: converged; 2: evaluation budget exhausted;
    3: tolerance too small; 4, 5: no progress; 0: improper input). *)
Record hybr_result : Type := mk_hybr {
  sol_x : R;
  sol_status : Z
}.

Definition solver : Type := (R -> res R) -> R -> hybr_result.

(** [fsolve(func, x0, full_output=False)]: a status of 2..5 emits a
    RuntimeWarning through the [warnings] machinery and returns the
    iterate like status 1; any other status raises [TypeError]. *)
Definition fsolve (hybr : solver) (func : R -> res R) (x0 : R) : res R :=
  let r := hybr func x0 in
  let status := sol_status r in
  if (status =? 0)%Z then Raise TypeError
  else if (status =? 1)%Z then Ok (sol_x r)
  else if ((2 <=? status) && (status <=? 5))%Z then Ok (sol_x r)
  else Raise TypeError.

Definition f_colebrook (hybr : solver) (Re epsilon D : R) : res R :=
  if Rle_dec Re 0 then Ok 0
  else
    f0 <- f_haaland Re epsilon D ;;
    sol <- fsolve hybr (ecuacion Re epsilon D) f0 ;;
    Ok sol.

Definition f_swamee_jain (Re epsilon D : R) : res R :=
  if Rle_dec Re 0 then Ok 0
  else
    a <- pydiv epsilon (3.7 * D) ;;
    p <- float_pow Re 0.9 ;;
    b <- pydiv 5.74 p ;;
    let termino := a + b in
    l <- np_log10 termino ;;
    npdiv 0.25 (l ^ 2).

Definition perdidas_darcy (f L D v : R) : res R :=
  ld <- pydiv L D ;;
  Ok (f * ld * v ^ 2 / (2 * g)).

Definition perdidas_menores (K_total v : R) : R := K_total * v ^ 2 / (2 * g).

Definition carga_total (z hf hm : R) : R := z + hf + hm.

Definition potencia_bomba (rho Q H : R) : R := rho * g * Q * H / 1000.

Definition kw_a_hp (P_kw : R) : R := P_kw / 0.7457.

(** The dict [calcular_tramo] returns (prefix [r_] on each key). *)
Record resultado : Type := mk_resultado {
  r_area : R;
  r_velocidad : R;
  r_carga_cinetica : R;
  r_reynolds : R;
  r_f_colebrook : R;
  r_f_haaland : R;
  r_f_swamee_jain : R;
  r_longitud_estacion : R;
  r_perdidas_friccion_colebrook : R;
  r_perdidas_friccion_haaland : R;
  r_perdidas_menores : R;
  r_z_estacion : R;
  r_carga_estacion : R;
  r_carga_total : R;
  r_potencia_kw : R;
  r_potencia_hp : R;
  r_num_estaciones : Z;
  r_es_bajada : bool
}.

Definition calcular_tramo (hybr : solver)
    (Q D L z rho mu epsilon K_total : R)
    (num_estaciones : Z) (es_bajada : bool) : res resultado :=
  let A := area_seccion D in
  v <- velocidad Q A ;;
  let hv := carga_cinetica v in
  Re <- reynolds rho v D mu ;;
  f_col <- f_colebrook hybr Re epsilon D ;;
  f_haa <- f_haaland Re epsilon D ;;
  f_swa <- f_swamee_jain Re epsilon D ;;
  let L_estacion :=
    if (0 <? num_estaciones)%Z then L / IZR num_estaciones else L in
  hf_crane <- perdidas_darcy f_col L_estacion D v ;;
  hf_haaland <- perdidas_darcy f_haa L_estacion D v ;;
  let hm := perdidas_menores K_total v in
  let z_estacion :=
    if (0 <? num_estaciones)%Z then z / IZR num_estaciones else z in
  let H_estacion := carga_total (Rabs z_estacion) hf_crane hm in
  let H_total := H_estacion * IZR num_estaciones in
  let '(P_kw, P_hp) :=
    if es_bajada then (0, 0)
    else let P := potencia_bomba rho Q H_estacion in (P, kw_a_hp P) in
  Ok (mk_resultado A v hv Re f_col f_haa f_swa L_estacion hf_crane
        hf_haaland hm z_estacion H_estacion H_total P_kw P_hp
        num_estaciones es_bajada).

(** ** core/tramos.py *)

(** One entry of the registry.  The keys that carry text or serve only the
    renderers (['tipo'], ['accesorios'], ['notas'], ['sub_segmentos']) are
    left out; an optional key is an [option]. *)
Record definicion : Type := mk_definicion {
  d_distancia : R;
  d_altura : R;
  d_pendiente : R;
  d_longitud_tuberia : R;
  d_z : R;
  d_num_estaciones : Z;
  d_es_bajada : bool;
  d_K_total : R;
  d_K_valvula_estrangulamiento : option R;
  d_tanque_rompe_presion : option bool
}.

Definition tramo1 : definicion :=
  mk_definicion 182.53 100 28.72 211.13 100 1 false 1.62 None None.
Definition tramo2 : definicion :=
  mk_definicion 112.39 200 60.67 235.42 200 2 false 3.87 None None.
Definition tramo3 : definicion :=
  mk_definicion 163.87 200 50.67 264.56 200 2 false 3.68 None None.
Definition tramo4 : definicion :=
  mk_definicion 251.55 0 0 254.55 0 1 false 4.02 None None.
Definition tramo5 : definicion :=
  mk_definicion 129.05 (-200) (-57.17) 235.02 0 1 true 2.31 None None.
Definition tramo6 : definicion :=
  mk_definicion 71.33 (-200) (-70.37) 209.34 0 1 true 2.68
    (Some 1077.42) None.
Definition tramo7 : definicion :=
  mk_definicion 57.60 (-100) (-60.06) 112.40 0 1 true 2.37
    (Some 1076.84) None.
Definition tramo8 : definicion :=
  mk_definicion 1837.50 100 0 1911.52 100 1 false 5.67 None None.

(** The dict of the eight segments, in insertion order. *)
Definition obtener_definicion_tramos : list (Z * definicion) :=
  [ (1, tramo1); (2, tramo2); (3, tramo3); (4, tramo4);
    (5, tramo5); (6, tramo6); (7, tramo7); (8, tramo8) ]%Z.

(** [d[k]] on a dict with integer keys. *)
Fixpoint getitem {A : Type} (d : list (Z * A)) (k : Z) : res A :=
  match d with
  | [] => Raise KeyError
  | (k', a) :: d' => if (k' =? k)%Z then Ok a else getitem d' k
  end.

(** ** calcular_sistema_completo *)

(** A result of [calcular_tramo] with the geometry echoed into it. *)
Record resultado_sistema : Type := mk_resultado_sistema {
  rs_tramo : resultado;
  rs_distancia : R;
  rs_altura : R;
  rs_pendiente : R;
  rs_longitud_tuberia : R
}.

Definition calcular_definicion (hybr : solver) (Q D rho mu epsilon : R)
    (defn : definicion) : res resultado_sistema :=
  resultado <- calcular_tramo hybr Q D (d_longitud_tuberia defn) (d_z defn)
                 rho mu epsilon (d_K_total defn) (d_num_estaciones defn)
                 (d_es_bajada defn) ;;
  Ok (mk_resultado_sistema resultado (d_distancia defn) (d_altura defn)
        (d_pendiente defn) (d_longitud_tuberia defn)).

(** The loop over [definiciones.items()]. *)
Fixpoint calcular_items (hybr : solver) (Q D rho mu epsilon : R)
    (items : list (Z * definicion)) : res (list (Z * resultado_sistema)) :=
  match items with
  | [] => Ok []
  | (num_tramo, defn) :: rest =>
      resultado <- calcular_definicion hybr Q D rho mu epsilon defn ;;
      resultados <- calcular_items hybr Q D rho mu epsilon rest ;;
      Ok ((num_tramo, resultado) :: resultados)
  end.

Definition calcular_sistema_completo (hybr : solver)
    (Q D rho mu epsilon : R) : res (list (Z * resultado_sistema)) :=
  calcular_items hybr Q D rho mu epsilon obtener_definicion_tramos.

(** ** visualizaciones/mapa_piezometrico.py: the energy walk *)

(** One sample of the profile: the entries appended together to
    [dist_puntos], [elev_puntos], [egl_puntos], [hgl_puntos] and
    [presion_puntos] (the text labels are left out). *)
Record punto : Type := mk_punto {
  p_dist : R;
  p_elev : R;
  p_egl : R;
  p_hgl : R;
  p_presion : R
}.

(** A pump marker: [bombas_x], [bombas_y_antes], [bombas_y_despues]. *)
Record bomba : Type := mk_bomba {
  b_x : R;
  b_y_antes : R;
  b_y_despues : R
}.

(** A valve or tank marker: [valvulas_x], [valvulas_y]. *)
Record valvula : Type := mk_valvula {
  v_x : R;
  v_y : R
}.

(** The variables the walk carries. *)
Record estado : Type := mk_estado {
  dist_acum : R;
  elev_acum : R;
  energia_actual : R;
  puntos : list punto;
  bombas : list bomba;
  valvulas : list valvula
}.

Definition n_puntos_sub : nat := 5.

(** The body of [for j in range(1, n_puntos_sub + 1)]. *)
Definition sub_paso (hv x_inicio dist_sub z_est hf_est hm_est : R)
    (st : estado) (j : nat) : estado :=
  let frac := INR j / INR n_puntos_sub in
  let dx := dist_sub * frac in
  let dz := z_est * frac in
  let x_actual := x_inicio + dx in
  let elev_actual := elev_acum st + dz in
  let energia :=
    energia_actual st
    - (hf_est / INR n_puntos_sub + (if Nat.eqb j 1 then hm_est else 0)) in
  mk_estado (dist_acum st) (elev_acum st) energia
    (puntos st ++ [mk_punto x_actual elev_actual energia (energia - hv)
                     (energia - hv - elev_actual)])
    (bombas st) (valvulas st).

Definition recorrido (hv x_inicio dist_sub z_est hf_est hm_est : R)
    (st : estado) : estado :=
  fold_left (sub_paso hv x_inicio dist_sub z_est hf_est hm_est)
    (seq 1 n_puntos_sub) st.

(** [if not r['es_bajada']]: the pump jump at the start of a station. *)
Definition salto_bomba (r : resultado) (x_inicio : R) (st : estado) : estado :=
  if r_es_bajada r then st
  else
    let H_bomba := r_carga_estacion r in
    let despues := energia_actual st + H_bomba in
    mk_estado (dist_acum st) (elev_acum st) despues (puntos st)
      (bombas st ++ [mk_bomba x_inicio (energia_actual st) despues])
      (valvulas st).

(** [definiciones[num_tramo].get('tanque_rompe_presion', True)]. *)
Definition tiene_tanque (defn : definicion) : bool :=
  match d_tanque_rompe_presion defn with
  | Some b => b
  | None => true
  end.

(** [if r['es_bajada']]: the tank or the bare marker after the walk. *)
Definition control_bajada (defn : definicion) (r : resultado) (hv : R)
    (st : estado) : estado :=
  if r_es_bajada r then
    if tiene_tanque defn then
      let egl_meta := elev_acum st + hv in
      let perdida := energia_actual st - egl_meta in
      let marca := mk_valvula (dist_acum st) (energia_actual st) in
      let energia := energia_actual st - perdida in
      mk_estado (dist_acum st) (elev_acum st) energia
        (if Rlt_dec 0.01 (Rabs perdida)
         then puntos st ++ [mk_punto (dist_acum st) (elev_acum st) energia
                              (energia - hv) (energia - hv - elev_acum st)]
         else puntos st)
        (bombas st) (valvulas st ++ [marca])
    else
      mk_estado (dist_acum st) (elev_acum st) (energia_actual st)
        (puntos st) (bombas st)
        (valvulas st ++ [mk_valvula (dist_acum st) (energia_actual st)])
  else st.

(** The body of [for est in range(n_est)]; it runs only when [n_est >= 1],
    so [dist_tramo / n_est] never divides by zero. *)
Definition estacion (defn : definicion) (r : resultado)
    (hv dist_tramo z_est : R) (st : estado) : estado :=
  let n_est := r_num_estaciones r in
  let hf_est := r_perdidas_friccion_colebrook r in
  let hm_est := r_perdidas_menores r in
  let x_inicio := dist_acum st in
  let st1 := salto_bomba r x_inicio st in
  let dist_sub := dist_tramo / IZR n_est in
  let st2 := recorrido hv x_inicio dist_sub z_est hf_est hm_est st1 in
  let st3 :=
    mk_estado (dist_acum st2 + dist_sub) (elev_acum st2 + z_est)
      (energia_actual st2) (puntos st2) (bombas st2) (valvulas st2) in
  control_bajada defn r hv st3.

(** The body of [for num_tramo in range(1, 9)]. *)
Definition tramo_paso (definiciones : list (Z * definicion))
    (resultados : list (Z * resultado_sistema)) (hv : R)
    (st : estado) (num_tramo : Z) : res estado :=
  defn_d <- getitem definiciones (if (7 <? num_tramo)%Z then 8%Z else num_tramo) ;;
  let dist_tramo := d_distancia defn_d in
  rs <- getitem resultados num_tramo ;;
  let r := rs_tramo rs in
  let n_est := r_num_estaciones r in
  defn <- getitem definiciones num_tramo ;;
  let z_total := d_altura defn in
  let z_est := if (0 <? n_est)%Z then z_total / IZR n_est else z_total in
  Ok (Nat.iter (Z.to_nat n_est) (estacion defn r hv dist_tramo z_est) st).

Fixpoint recorrer_tramos (definiciones : list (Z * definicion))
    (resultados : list (Z * resultado_sistema)) (hv : R)
    (nums : list Z) (st : estado) : res estado :=
  match nums with
  | [] => Ok st
  | num_tramo :: rest =>
      st' <- tramo_paso definiciones resultados hv st num_tramo ;;
      recorrer_tramos definiciones resultados hv rest st'
  end.

Definition estado_inicial : estado :=
  mk_estado 0 0 0 [mk_punto 0 0 0 0 0] [] [].

(** The part of [crear_mapa_piezometrico] that builds the profile and the
    marker lists (the figure drawn from them is left out). *)
Definition crear_mapa_piezometrico
    (resultados : list (Z * resultado_sistema)) : res estado :=
  rs1 <- getitem resultados 1%Z ;;
  let hv := r_carga_cinetica (rs_tramo rs1) in
  recorrer_tramos obtener_definicion_tramos resultados hv
    [1; 2; 3; 4; 5; 6; 7; 8]%Z estado_inicial.

(** ** A solver run with a fixed ending

    [hybr_fijo status] stands for a run of the MINPACK iteration that ends
    at its starting point with the given termination status.  It serves to
    evaluate the engine on concrete inputs. *)
Definition hybr_fijo (status : Z) : solver :=
  fun _ x0 => mk_hybr x0 status.

(** The Reynolds number [calcular_tramo] computes on its way. *)
Definition reynolds_tramo (Q D rho mu : R) : res R :=
  v <- velocidad Q (area_seccion D) ;; reynolds rho v D mu.

(** What every result of one run shares: the flow state. *)
Definition mismo_flujo (A v hv Re : R) (r : resultado) : Prop :=
  r_area r = A /\ r_velocidad r = v /\ r_carga_cinetica r = hv /\
  r_reynolds r = Re.

(** ** core/tramos.py: obtener_elevaciones_acumuladas *)

(** ['sub_segmentos'] of segment 8, the one registry key with a list of
    dicts: each entry's ['distancia'] and ['altura'] ([None] in the last
    one; the names are left out). *)
Definition sub_segmentos_tramo8 : list (R * option R) :=
  [ (250, Some 0); (0, Some (-10)); (312.5, Some (-10)); (25, Some (-10));
    (1187.5, Some (-10)); (62.5, Some 100); (126.52, None) ].

(** A point of the terrain profile (['nombre'] is left out). *)
Record punto_terreno : Type := mk_punto_terreno {
  pt_distancia_acum : R;
  pt_elevacion : R;
  pt_tramo : Z
}.

(** The loop [for i in range(1, 8)] of [obtener_elevaciones_acumuladas],
    carrying [dist_acum], [elev_acum] and [puntos]. *)
Fixpoint acumular_tramos (tramos : list (Z * definicion)) (nums : list Z)
    (dist_acum elev_acum : R) (puntos : list punto_terreno)
    : res (R * R * list punto_terreno) :=
  match nums with
  | [] => Ok (dist_acum, elev_acum, puntos)
  | i :: rest =>
      t <- getitem tramos i ;;
      let dist_acum := dist_acum + d_distancia t in
      let elev_acum := elev_acum + d_altura t in
      acumular_tramos tramos rest dist_acum elev_acum
        (puntos ++ [mk_punto_terreno dist_acum elev_acum i])
  end.

(** The loop over the sub-segments of segment 8: an entry whose altura is
    [None] is skipped. *)
Fixpoint acumular_sub_segmentos (segs : list (R * option R))
    (dist_acum elev_acum : R) (puntos : list punto_terreno)
    : list punto_terreno :=
  match segs with
  | [] => puntos
  | (distancia, Some altura) :: rest =>
      let dist_acum := dist_acum + distancia in
      let elev_acum := elev_acum + altura in
      acumular_sub_segmentos rest dist_acum elev_acum
        (puntos ++ [mk_punto_terreno dist_acum elev_acum 8])
  | (_, None) :: rest =>
      acumular_sub_segmentos rest dist_acum elev_acum puntos
  end.

(** The body of [obtener_elevaciones_acumuladas], with the registry it
    reads as arguments. *)
Definition elevaciones_acumuladas (tramos : list (Z * definicion))
    (sub_segmentos : list (R * option R)) : res (list punto_terreno) :=
  acc <- acumular_tramos tramos [1; 2; 3; 4; 5; 6; 7]%Z 0 0
           [mk_punto_terreno 0 0 0] ;;
  let '(dist_acum, elev_acum, puntos) := acc in
  _ <- getitem tramos 8%Z ;;
  Ok (acumular_sub_segmentos sub_segmentos dist_acum elev_acum puntos).

Definition obtener_elevaciones_acumuladas : res (list punto_terreno) :=
  elevaciones_acumuladas obtener_definicion_tramos sub_segmentos_tramo8.

(** ** visualizaciones/mapa_piezometrico.py: crear_desglose_perdidas *)

(** The three series of the stacked bar chart. *)
Record desglose : Type := mk_desglose {
  z_vals : list R;
  hf_vals : list R;
  hm_vals : list R
}.

(** The body of [for i in tramos_nums]. *)
Definition desglose_paso (resultados : list (Z * resultado_sistema))
    (acc : desglose) (i : Z) : res desglose :=
  rs <- getitem resultados i ;;
  let r := rs_tramo rs in
  let z_abs := Rabs (r_z_estacion r) * IZR (r_num_estaciones r) in
  let hf := r_perdidas_friccion_colebrook r * IZR (r_num_estaciones r) in
  let hm := r_perdidas_menores r * IZR (r_num_estaciones r) in
  Ok (mk_desglose (z_vals acc ++ [if r_es_bajada r then 0 else z_abs])
        (hf_vals acc ++ [hf]) (hm_vals acc ++ [hm])).

Fixpoint desglose_tramos (resultados : list (Z * resultado_sistema))
    (nums : list Z) (acc : desglose) : res desglose :=
  match nums with
  | [] => Ok acc
  | i :: rest =>
      acc' <- desglose_paso resultados acc i ;;
      desglose_tramos resultados rest acc'
  end.

(** The data [crear_desglose_perdidas] hands to the bar chart. *)
Definition crear_desglose_perdidas
    (resultados : list (Z * resultado_sistema)) : res desglose :=
  desglose_tramos resultados [1; 2; 3; 4; 5; 6; 7; 8]%Z
    (mk_desglose [] [] []).

(** ** visualizaciones/mapa_piezometrico.py:
       crear_perfil_terreno_con_tramos *)

(** A coloured line of the profile: [x=[x0, x1], y=[y0, y1]] of segment i. *)
Record segmento : Type := mk_segmento {
  s_x0 : R;
  s_y0 : R;
  s_x1 : R;
  s_y1 : R;
  s_tramo : Z
}.

(** The loop [for i in range(1, 8)] of the function, carrying [dist_acum]
    and [elev_acum] and collecting the lines it draws. *)
Fixpoint perfil_tramos (definiciones : list (Z * definicion)) (nums : list Z)
    (dist_acum elev_acum : R) (lineas : list segmento)
    : res (R * R * list segmento) :=
  match nums with
  | [] => Ok (dist_acum, elev_acum, lineas)
  | i :: rest =>
      d <- getitem definiciones i ;;
      let x0 := dist_acum in
      let y0 := elev_acum in
      let x1 := dist_acum + d_distancia d in
      let y1 := elev_acum + d_altura d in
      perfil_tramos definiciones rest x1 y1
        (lineas ++ [mk_segmento x0 y0 x1 y1 i])
  end.

(** The dotted line of segment 8, written with literals in the source. *)
Definition linea_tramo8 (x8_start y8_start : R) : list (R * R) :=
  [ (x8_start, y8_start); (x8_start + 250, y8_start);
    (x8_start + 250, y8_start - 10); (x8_start + 1775, y8_start - 10);
    (x8_start + 1837.5, y8_start + 100) ].

(** What [crear_perfil_terreno_con_tramos] draws: the terrain fill, the
    seven coloured lines and the line of segment 8. *)
Record perfil : Type := mk_perfil {
  relleno : list punto_terreno;
  lineas_tramos : list segmento;
  linea_8 : list (R * R)
}.

(** The body of the function, with the two registries it reads as
    arguments. *)
Definition perfil_terreno_con_tramos (tramos : list (Z * definicion))
    (sub_segmentos : list (R * option R)) : res perfil :=
  puntos <- elevaciones_acumuladas tramos sub_segmentos ;;
  acc <- perfil_tramos tramos [1; 2; 3; 4; 5; 6; 7]%Z 0 0 [] ;;
  let '(dist_acum, elev_acum, lineas) := acc in
  Ok (mk_perfil puntos lineas (linea_tramo8 dist_acum elev_acum)).

Definition crear_perfil_terreno_con_tramos : res perfil :=
  perfil_terreno_con_tramos obtener_definicion_tramos sub_segmentos_tramo8.

(** The end of a coloured line. *)
Definition fin_segmento (sg : segmento) : R * R := (s_x1 sg, s_y1 sg).

(** A coloured line that ends on a terrain point of the same segment. *)
Definition termina_en (sg : segmento) (p : punto_terreno) : Prop :=
  s_x1 sg = pt_distancia_acum p /\ s_y1 sg = pt_elevacion p /\
  s_tramo sg = pt_tramo p.

(** ** visualizaciones/modelo_3d.py *)

(** The numbers [generar_html_modelo_3d] derives before it writes the
    page. *)
Record escena : Type := mk_escena {
  angulo_rad : R;
  signo : Z;
  escala : R;
  L_vis : R;
  D_vis : R;
  H_vis : R
}.

(** [math.radians]. *)
Definition radians (x : R) : R := x * (PI / 180).

Definition escena_modelo_3d (longitud diametro pendiente altura : R) : escena :=
  let angulo_rad :=
    if Req_dec_T pendiente 0 then 0 else radians (Rabs pendiente) in
  let signo := if Rle_dec 0 altura then 1%Z else (-1)%Z in
  let escala := if Rlt_dec 0 longitud then 10 / longitud else 1 in
  let L_vis := longitud * escala in
  let D_vis := Rmax (diametro * escala * 15) 0.15 in
  let H_vis := altura * escala in
  mk_escena angulo_rad signo escala L_vis D_vis H_vis.



(** ** app.py: the totals of the dashboard *)



(** ** Vocabulary of the statements *)

(** A profile point whose HGL and gauge pressure are derived from its
    EGL with the kinetic head [hv]. *)
Definition derivado (hv : R) (p : punto) : Prop :=
  p_hgl p = p_egl p - hv /\ p_presion p = p_egl p - hv - p_elev p.

(** What one segment adds to the walk, from [st] to [st']: the distance
    and elevation of its stations, between five and six points per station
    (five in a pump segment), one pump marker per station of a pump
    segment, each lifting the energy by the per-station head, and one valve
    marker per station of a descending segment. *)
Definition avance (hv : R) (r : resultado) (distancia altura : R)
    (st st' : estado) : Prop :=
  let n_est := r_num_estaciones r in
  let n := Z.to_nat n_est in
  dist_acum st' = dist_acum st + INR n * (distancia / IZR n_est) /\
  elev_acum st' =
    elev_acum st
    + INR n * (if (0 <? n_est)%Z then altura / IZR n_est else altura) /\
  exists nuevos bs vs,
    puntos st' = puntos st ++ nuevos /\
    bombas st' = bombas st ++ bs /\
    valvulas st' = valvulas st ++ vs /\
    (5 * n <= length nuevos <= 6 * n)%nat /\
    (r_es_bajada r = false -> length nuevos = (5 * n)%nat) /\
    Forall (derivado hv) nuevos /\
    length bs = (if r_es_bajada r then 0 else n)%nat /\
    Forall (fun b => b_y_despues b - b_y_antes b = r_carga_estacion r) bs /\
    length vs = (if r_es_bajada r then n else 0)%nat.

(** A sub-segment the terrain profile keeps: its altura is not [None]. *)
Definition tiene_altura (seg : R * option R) : bool :=
  match snd seg with
  | Some _ => true
  | None => false
  end.

(** ** Python floats as an interface

    Where a statement depends on rounding, the code is read once more over
    an interface of float operations, one per Python operation.  The
    interface has two instances: real numbers with a rounding after every
    operation ([redondeado]), for statements about every input, and IEEE
    binary64 ([binary64]), to run the code on a concrete input. *)

Class Flotante (F : Type) : Type := {
  (** a small Python [int] used where a float is expected *)
  fl_int : Z -> F;
  (** the decimal literal n/d *)
  fl_dec : Z -> Z -> F;
  (** [np.pi] *)
  fl_pi : F;
  fl_add : F -> F -> F;
  fl_sub : F -> F -> F;
  fl_mul : F -> F -> F;
  fl_div : F -> F -> F;
  (** [x ** 2] *)
  fl_sq : F -> F;
  (** [abs(x)] *)
  fl_abs : F -> F;
  (** [x == 0], the test behind [ZeroDivisionError] *)
  fl_es_cero : F -> bool;
  (** [x <= y] *)
  fl_leb : F -> F -> bool;
  (** [x < y] *)
  fl_ltb : F -> F -> bool
}.

(** The entries of the registry the engine and the walk read. *)
Record definicion_fl (F : Type) : Type := mk_definicion_fl {
  df_distancia : F;
  df_altura : F;
  df_longitud_tuberia : F;
  df_z : F;
  df_num_estaciones : Z;
  df_es_bajada : bool;
  df_K_total : F;
  df_tanque_rompe_presion : option bool
}.

Arguments mk_definicion_fl {F}.
Arguments df_distancia {F}.
Arguments df_altura {F}.
Arguments df_longitud_tuberia {F}.
Arguments df_z {F}.
Arguments df_num_estaciones {F}.
Arguments df_es_bajada {F}.
Arguments df_K_total {F}.
Arguments df_tanque_rompe_presion {F}.

(** The dict of [calcular_tramo] without the keys of the two explicit
    correlations (['f_haaland'], ['f_swamee_jain'],
    ['perdidas_friccion_haaland']), which need a logarithm and a
    fractional power and are read by neither the pump head nor the walk. *)
Record resultado_fl (F : Type) : Type := mk_resultado_fl {
  rf_area : F;
  rf_velocidad : F;
  rf_carga_cinetica : F;
  rf_reynolds : F;
  rf_f_colebrook : F;
  rf_longitud_estacion : F;
  rf_perdidas_friccion_colebrook : F;
  rf_perdidas_menores : F;
  rf_z_estacion : F;
  rf_carga_estacion : F;
  rf_carga_total : F;
  rf_potencia_kw : F;
  rf_potencia_hp : F;
  rf_num_estaciones : Z;
  rf_es_bajada : bool
}.

Arguments mk_resultado_fl {F}.
Arguments rf_area {F}.
Arguments rf_velocidad {F}.
Arguments rf_carga_cinetica {F}.
Arguments rf_reynolds {F}.
Arguments rf_f_colebrook {F}.
Arguments rf_longitud_estacion {F}.
Arguments rf_perdidas_friccion_colebrook {F}.
Arguments rf_perdidas_menores {F}.
Arguments rf_z_estacion {F}.
Arguments rf_carga_estacion {F}.
Arguments rf_carga_total {F}.
Arguments rf_potencia_kw {F}.
Arguments rf_potencia_hp {F}.
Arguments rf_num_estaciones {F}.
Arguments rf_es_bajada {F}.

Record punto_fl (F : Type) : Type := mk_punto_fl {
  pf_dist : F;
  pf_elev : F;
  pf_egl : F;
  pf_hgl : F;
  pf_presion : F
}.

Arguments mk_punto_fl {F}.
Arguments pf_dist {F}.
Arguments pf_elev {F}.
Arguments pf_egl {F}.
Arguments pf_hgl {F}.
Arguments pf_presion {F}.

Record bomba_fl (F : Type) : Type := mk_bomba_fl {
  bf_x : F;
  bf_y_antes : F;
  bf_y_despues : F
}.

Arguments mk_bomba_fl {F}.
Arguments bf_x {F}.
Arguments bf_y_antes {F}.
Arguments bf_y_despues {F}.

Record valvula_fl (F : Type) : Type := mk_valvula_fl {
  vf_x : F;
  vf_y : F
}.

Arguments mk_valvula_fl {F}.
Arguments vf_x {F}.
Arguments vf_y {F}.

Record estado_fl (F : Type) : Type := mk_estado_fl {
  ef_dist_acum : F;
  ef_elev_acum : F;
  ef_energia_actual : F;
  ef_puntos : list (punto_fl F);
  ef_bombas : list (bomba_fl F);
  ef_valvulas : list (valvula_fl F)
}.

Arguments mk_estado_fl {F}.
Arguments ef_dist_acum {F}.
Arguments ef_elev_acum {F}.
Arguments ef_energia_actual {F}.
Arguments ef_puntos {F}.
Arguments ef_bombas {F}.
Arguments ef_valvulas {F}.

Section SobreFlotantes.

Context {F : Type} {FF : Flotante F}.

(** *** core/hidraulica.py *)

Definition g_fl : F := fl_dec 981 100.

Definition pydiv_fl (x y : F) : res F :=
  if fl_es_cero y then Raise ZeroDivisionError else Ok (fl_div x y).

Definition area_seccion_fl (D : F) : F :=
  fl_div (fl_mul fl_pi (fl_sq D)) (fl_int 4).

Definition velocidad_fl (Q A : F) : res F := pydiv_fl Q A.

Definition carga_cinetica_fl (v : F) : F :=
  fl_div (fl_sq v) (fl_mul (fl_int 2) g_fl).

Definition reynolds_fl (rho v D mu : F) : res F :=
  pydiv_fl (fl_mul (fl_mul rho v) D) mu.

(** [f_colebrook] with the float [fsolve] hands back as a parameter
    ([iterado]): the guard [Re <= 0] returns 0.0 before the solve. *)
Definition f_colebrook_fl (iterado : F) (Re : F) : F :=
  if fl_leb Re (fl_int 0) then fl_int 0 else iterado.

Definition perdidas_darcy_fl (f L D v : F) : res F :=
  ld <- pydiv_fl L D ;;
  Ok (fl_div (fl_mul (fl_mul f ld) (fl_sq v)) (fl_mul (fl_int 2) g_fl)).

Definition perdidas_menores_fl (K_total v : F) : F :=
  fl_div (fl_mul K_total (fl_sq v)) (fl_mul (fl_int 2) g_fl).

Definition carga_total_fl (z hf hm : F) : F := fl_add (fl_add z hf) hm.

Definition potencia_bomba_fl (rho Q H : F) : F :=
  fl_div (fl_mul (fl_mul (fl_mul rho g_fl) Q) H) (fl_int 1000).

Definition kw_a_hp_fl (P_kw : F) : F := fl_div P_kw (fl_dec 7457 10000).

Definition calcular_tramo_fl (iterado : F)
    (Q D L z rho mu K_total : F)
    (num_estaciones : Z) (es_bajada : bool) : res (resultado_fl F) :=
  let A := area_seccion_fl D in
  v <- velocidad_fl Q A ;;
  let hv := carga_cinetica_fl v in
  Re <- reynolds_fl rho v D mu ;;
  let f_col := f_colebrook_fl iterado Re in
  let L_estacion :=
    if (0 <? num_estaciones)%Z then fl_div L (fl_int num_estaciones) else L in
  hf_crane <- perdidas_darcy_fl f_col L_estacion D v ;;
  let hm := perdidas_menores_fl K_total v in
  let z_estacion :=
    if (0 <? num_estaciones)%Z then fl_div z (fl_int num_estaciones) else z in
  let H_estacion := carga_total_fl (fl_abs z_estacion) hf_crane hm in
  let H_total := fl_mul H_estacion (fl_int num_estaciones) in
  let '(P_kw, P_hp) :=
    if es_bajada then (fl_int 0, fl_int 0)
    else let P := potencia_bomba_fl rho Q H_estacion in (P, kw_a_hp_fl P) in
  Ok (mk_resultado_fl A v hv Re f_col L_estacion hf_crane hm z_estacion
        H_estacion H_total P_kw P_hp num_estaciones es_bajada).

(** *** core/tramos.py *)

Definition tramo1_fl : definicion_fl F :=
  mk_definicion_fl (fl_dec 18253 100) (fl_int 100) (fl_dec 21113 100)
    (fl_int 100) 1 false (fl_dec 162 100) None.
Definition tramo2_fl : definicion_fl F :=
  mk_definicion_fl (fl_dec 11239 100) (fl_int 200) (fl_dec 23542 100)
    (fl_int 200) 2 false (fl_dec 387 100) None.
Definition tramo3_fl : definicion_fl F :=
  mk_definicion_fl (fl_dec 16387 100) (fl_int 200) (fl_dec 26456 100)
    (fl_int 200) 2 false (fl_dec 368 100) None.
Definition tramo4_fl : definicion_fl F :=
  mk_definicion_fl (fl_dec 25155 100) (fl_int 0) (fl_dec 25455 100)
    (fl_int 0) 1 false (fl_dec 402 100) None.
Definition tramo5_fl : definicion_fl F :=
  mk_definicion_fl (fl_dec 12905 100) (fl_int (-200)) (fl_dec 23502 100)
    (fl_int 0) 1 true (fl_dec 231 100) None.
Definition tramo6_fl : definicion_fl F :=
  mk_definicion_fl (fl_dec 7133 100) (fl_int (-200)) (fl_dec 20934 100)
    (fl_int 0) 1 true (fl_dec 268 100) None.
Definition tramo7_fl : definicion_fl F :=
  mk_definicion_fl (fl_dec 5760 100) (fl_int (-100)) (fl_dec 11240 100)
    (fl_int 0) 1 true (fl_dec 237 100) None.
Definition tramo8_fl : definicion_fl F :=
  mk_definicion_fl (fl_dec 183750 100) (fl_int 100) (fl_dec 191152 100)
    (fl_int 100) 1 false (fl_dec 567 100) None.

Definition obtener_definicion_tramos_fl : list (Z * definicion_fl F) :=
  [ (1, tramo1_fl); (2, tramo2_fl); (3, tramo3_fl); (4, tramo4_fl);
    (5, tramo5_fl); (6, tramo6_fl); (7, tramo7_fl); (8, tramo8_fl) ]%Z.

(** *** calcular_sistema_completo *)

Fixpoint calcular_items_fl (iterado Q D rho mu : F)
    (items : list (Z * definicion_fl F)) : res (list (Z * resultado_fl F)) :=
  match items with
  | [] => Ok []
  | (num_tramo, defn) :: rest =>
      resultado <- calcular_tramo_fl iterado Q D (df_longitud_tuberia defn)
                     (df_z defn) rho mu (df_K_total defn)
                     (df_num_estaciones defn) (df_es_bajada defn) ;;
      resultados <- calcular_items_fl iterado Q D rho mu rest ;;
      Ok ((num_tramo, resultado) :: resultados)
  end.

Definition calcular_sistema_completo_fl (iterado Q D rho mu : F) :
    res (list (Z * resultado_fl F)) :=
  calcular_items_fl iterado Q D rho mu obtener_definicion_tramos_fl.

(** *** visualizaciones/mapa_piezometrico.py: the energy walk *)

Definition sub_paso_fl (hv x_inicio dist_sub z_est hf_est hm_est : F)
    (st : estado_fl F) (j : nat) : estado_fl F :=
  let frac := fl_div (fl_int (Z.of_nat j)) (fl_int (Z.of_nat n_puntos_sub)) in
  let dx := fl_mul dist_sub frac in
  let dz := fl_mul z_est frac in
  let x_actual := fl_add x_inicio dx in
  let elev_actual := fl_add (ef_elev_acum st) dz in
  let energia :=
    fl_sub (ef_energia_actual st)
      (fl_add (fl_div hf_est (fl_int (Z.of_nat n_puntos_sub)))
         (if Nat.eqb j 1 then hm_est else fl_int 0)) in
  mk_estado_fl (ef_dist_acum st) (ef_elev_acum st) energia
    (ef_puntos st ++ [mk_punto_fl x_actual elev_actual energia
                        (fl_sub energia hv)
                        (fl_sub (fl_sub energia hv) elev_actual)])
    (ef_bombas st) (ef_valvulas st).

Definition recorrido_fl (hv x_inicio dist_sub z_est hf_est hm_est : F)
    (st : estado_fl F) : estado_fl F :=
  fold_left (sub_paso_fl hv x_inicio dist_sub z_est hf_est hm_est)
    (seq 1 n_puntos_sub) st.

Definition salto_bomba_fl (r : resultado_fl F) (x_inicio : F)
    (st : estado_fl F) : estado_fl F :=
  if rf_es_bajada r then st
  else
    let H_bomba := rf_carga_estacion r in
    let despues := fl_add (ef_energia_actual st) H_bomba in
    mk_estado_fl (ef_dist_acum st) (ef_elev_acum st) despues (ef_puntos st)
      (ef_bombas st ++ [mk_bomba_fl x_inicio (ef_energia_actual st) despues])
      (ef_valvulas st).

Definition tiene_tanque_fl (defn : definicion_fl F) : bool :=
  match df_tanque_rompe_presion defn with
  | Some b => b
  | None => true
  end.

Definition control_bajada_fl (defn : definicion_fl F) (r : resultado_fl F)
    (hv : F) (st : estado_fl F) : estado_fl F :=
  if rf_es_bajada r then
    if tiene_tanque_fl defn then
      let egl_meta := fl_add (ef_elev_acum st) hv in
      let perdida := fl_sub (ef_energia_actual st) egl_meta in
      let marca := mk_valvula_fl (ef_dist_acum st) (ef_energia_actual st) in
      let energia := fl_sub (ef_energia_actual st) perdida in
      mk_estado_fl (ef_dist_acum st) (ef_elev_acum st) energia
        (if fl_ltb (fl_dec 1 100) (fl_abs perdida)
         then ef_puntos st ++
              [mk_punto_fl (ef_dist_acum st) (ef_elev_acum st) energia
                 (fl_sub energia hv)
                 (fl_sub (fl_sub energia hv) (ef_elev_acum st))]
         else ef_puntos st)
        (ef_bombas st) (ef_valvulas st ++ [marca])
    else
      mk_estado_fl (ef_dist_acum st) (ef_elev_acum st) (ef_energia_actual st)
        (ef_puntos st) (ef_bombas st)
        (ef_valvulas st ++
         [mk_valvula_fl (ef_dist_acum st) (ef_energia_actual st)])
  else st.

Definition estacion_fl (defn : definicion_fl F) (r : resultado_fl F)
    (hv dist_tramo z_est : F) (st : estado_fl F) : estado_fl F :=
  let n_est := rf_num_estaciones r in
  let hf_est := rf_perdidas_friccion_colebrook r in
  let hm_est := rf_perdidas_menores r in
  let x_inicio := ef_dist_acum st in
  let st1 := salto_bomba_fl r x_inicio st in
  let dist_sub := fl_div dist_tramo (fl_int n_est) in
  let st2 := recorrido_fl hv x_inicio dist_sub z_est hf_est hm_est st1 in
  let st3 :=
    mk_estado_fl (fl_add (ef_dist_acum st2) dist_sub)
      (fl_add (ef_elev_acum st2) z_est)
      (ef_energia_actual st2) (ef_puntos st2) (ef_bombas st2)
      (ef_valvulas st2) in
  control_bajada_fl defn r hv st3.

Definition tramo_paso_fl (definiciones : list (Z * definicion_fl F))
    (resultados : list (Z * resultado_fl F)) (hv : F)
    (st : estado_fl F) (num_tramo : Z) : res (estado_fl F) :=
  defn_d <- getitem definiciones (if (7 <? num_tramo)%Z then 8%Z else num_tramo) ;;
  let dist_tramo := df_distancia defn_d in
  r <- getitem resultados num_tramo ;;
  let n_est := rf_num_estaciones r in
  defn <- getitem definiciones num_tramo ;;
  let z_total := df_altura defn in
  let z_est :=
    if (0 <? n_est)%Z then fl_div z_total (fl_int n_est) else z_total in
  Ok (Nat.iter (Z.to_nat n_est) (estacion_fl defn r hv dist_tramo z_est) st).

Fixpoint recorrer_tramos_fl (definiciones : list (Z * definicion_fl F))
    (resultados : list (Z * resultado_fl F)) (hv : F)
    (nums : list Z) (st : estado_fl F) : res (estado_fl F) :=
  match nums with
  | [] => Ok st
  | num_tramo :: rest =>
      st' <- tramo_paso_fl definiciones resultados hv st num_tramo ;;
      recorrer_tramos_fl definiciones resultados hv rest st'
  end.

Definition estado_inicial_fl : estado_fl F :=
  mk_estado_fl (fl_int 0) (fl_int 0) (fl_int 0)
    [mk_punto_fl (fl_int 0) (fl_int 0) (fl_int 0) (fl_int 0) (fl_int 0)]
    [] [].

Definition crear_mapa_piezometrico_fl
    (resultados : list (Z * resultado_fl F)) : res (estado_fl F) :=
  r1 <- getitem resultados 1%Z ;;
  let hv := rf_carga_cinetica r1 in
  recorrer_tramos_fl obtener_definicion_tramos_fl resultados hv
    [1; 2; 3; 4; 5; 6; 7; 8]%Z estado_inicial_fl.

(** The gauge pressure the walk derives from an energy level. *)
Definition presion_fl (energia hv elev : F) : F :=
  fl_sub (fl_sub energia hv) elev.

End SobreFlotantes.

(** *** Reals rounded after every operation

    [rnd] is the rounding of the machine: the float an exact result is
    replaced by.  Small integers, [abs] and the comparisons are exact. *)
Definition redondeado (rnd : R -> R) : Flotante R := {|
  fl_int := IZR;
  fl_dec := fun n d => rnd (IZR n / IZR d);
  fl_pi := rnd PI;
  fl_add := fun x y => rnd (x + y);
  fl_sub := fun x y => rnd (x - y);
  fl_mul := fun x y => rnd (x * y);
  fl_div := fun x y => rnd (x / y);
  fl_sq := fun x => rnd (x * x);
  fl_abs := Rabs;
  fl_es_cero := fun x => if Req_dec_T x 0 then true else false;
  fl_leb := fun x y => if Rle_dec x y then true else false;
  fl_ltb := fun x y => if Rlt_dec x y then true else false
|}.

(** The standard model of rounding to nearest, with gradual underflow:
    as long as the exact result is at most [Omega] in magnitude, the
    float that replaces it is off by at most the relative error [u] plus
    the absolute error [eta].  Binary64 satisfies it with u = 2^-53,
    eta = 2^-1075 (half the smallest subnormal number) and Omega the
    largest finite float. *)
Definition modelo_estandar (rnd : R -> R) (u eta Omega : R) : Prop :=
  0 <= u /\ 0 <= eta /\
  forall x : R, Rabs x <= Omega -> Rabs (rnd x - x) <= u * Rabs x + eta.

(** *** IEEE binary64 *)

Definition float_de_Z (n : Z) : float :=
  match n with
  | Z0 => PrimFloat.of_uint63 (Uint63.of_Z 0)
  | Zpos _ => PrimFloat.of_uint63 (Uint63.of_Z n)
  | Zneg p => PrimFloat.opp (PrimFloat.of_uint63 (Uint63.of_Z (Zpos p)))
  end.

(** A decimal literal is the float nearest to it, which is also what the
    correctly rounded quotient of its numerator and denominator gives;
    [np.pi] is 0x1.921fb54442d18p+1; [x ** 2] is taken as the correctly
    rounded square, the product [x * x]. *)
#[export] Instance binary64 : Flotante float := {|
  fl_int := float_de_Z;
  fl_dec := fun n d => PrimFloat.div (float_de_Z n) (float_de_Z d);
  fl_pi := 0x1.921fb54442d18p+1%float;
  fl_add := PrimFloat.add;
  fl_sub := PrimFloat.sub;
  fl_mul := PrimFloat.mul;
  fl_div := PrimFloat.div;
  fl_sq := fun x => PrimFloat.mul x x;
  fl_abs := PrimFloat.abs;
  fl_es_cero := fun x => PrimFloat.eqb x (float_de_Z 0);
  fl_leb := PrimFloat.leb;
  fl_ltb := PrimFloat.ltb
|}.

(** The walk in binary64 at flow [Q] through the design pipe
    (D = 0.1541, rho = 998, mu = 0.001), [iterado] being the friction
    factor the solver hands back. *)
Definition mapa_binary64 (Q iterado : float) : res (estado_fl float) :=
  resultados <- calcular_sistema_completo_fl iterado Q
                  (fl_dec 1541 10000) (fl_int 998) (fl_dec 1 1000) ;;
  crear_mapa_piezometrico_fl resultados.

(** What the trace shows once the segments [nums] are walked: the gauge
    pressure derived from the energy, the kinetic head and the elevation
    the walk has reached. *)
Definition presion_tras_tramos (Q iterado : float) (nums : list Z) :
    res float :=
  resultados <- calcular_sistema_completo_fl iterado Q
                  (fl_dec 1541 10000) (fl_int 998) (fl_dec 1 1000) ;;
  r1 <- getitem resultados 1%Z ;;
  let hv := rf_carga_cinetica r1 in
  st <- recorrer_tramos_fl obtener_definicion_tramos_fl resultados hv nums
          estado_inicial_fl ;;
  Ok (presion_fl (ef_energia_actual st) hv (ef_elev_acum st)).

(** A rounding that errs by the whole unit 2^-53 on every operation, to
    evaluate the rounded reals on concrete inputs. *)
Definition rnd_exceso (x : R) : R := x * (1 + / 9007199254740992).

(** * Properties *)

(** ** Float primitives *)

Lemma pydiv_ok (x y : R) : y <> 0 -> pydiv x y = Ok (x / y).
Proof.
  intros Hy. unfold pydiv. destruct (Req_dec_T y 0) as [E | _]; [contradiction | reflexivity].
Qed.

Lemma pydiv_zero (x : R) : pydiv x 0 = Raise ZeroDivisionError.
Proof.
  unfold pydiv. destruct (Req_dec_T 0 0) as [_ | N]; [reflexivity | now elim N].
Qed.

Lemma pydiv_inv (x y q : R) : pydiv x y = Ok q -> y <> 0 /\ q = x / y.
Proof.
  unfold pydiv. destruct (Req_dec_T y 0) as [E | N]; intros H.
  - discriminate H.
  - injection H as <-. now split.
Qed.

Lemma npdiv_ok (x y : R) : y <> 0 -> npdiv x y = Ok (x / y).
Proof.
  intros Hy. unfold npdiv. destruct (Req_dec_T y 0) as [E | _]; [contradiction | reflexivity].
Qed.

Lemma np_log10_ok (x : R) : 0 < x -> np_log10 x = Ok (ln x / ln 10).
Proof.
  intros Hx. unfold np_log10. destruct (Rlt_dec 0 x) as [_ | N]; [reflexivity | contradiction].
Qed.

Lemma np_sqrt_ok (x : R) : 0 <= x -> np_sqrt x = Ok (sqrt x).
Proof.
  intros Hx. unfold np_sqrt. destruct (Rle_dec 0 x) as [_ | N]; [reflexivity | contradiction].
Qed.

Lemma ln_10_pos : 0 < ln 10.
Proof. rewrite <- ln_1. apply ln_increasing; lra. Qed.

Lemma area_seccion_zero (D : R) : area_seccion D = 0 -> D = 0.
Proof.
  unfold area_seccion. intros H.
  assert (HP := PI_RGT_0).
  assert (HD : D * D = 0) by nra.
  destruct (Rmult_integral _ _ HD); assumption.
Qed.

Lemma area_seccion_nonzero (D : R) : D <> 0 -> area_seccion D <> 0.
Proof.
  intros HD H. apply HD. now apply area_seccion_zero.
Qed.

(** ** The no-flow sentinel *)

Lemma f_haaland_sentinel (Re epsilon D : R) :
  Re <= 0 -> f_haaland Re epsilon D = Ok 0.
Proof.
  intros H. unfold f_haaland. destruct (Rle_dec Re 0); [reflexivity | contradiction].
Qed.

Lemma f_colebrook_sentinel (hybr : solver) (Re epsilon D : R) :
  Re <= 0 -> f_colebrook hybr Re epsilon D = Ok 0.
Proof.
  intros H. unfold f_colebrook. destruct (Rle_dec Re 0); [reflexivity | contradiction].
Qed.

Lemma f_swamee_jain_sentinel (Re epsilon D : R) :
  Re <= 0 -> f_swamee_jain Re epsilon D = Ok 0.
Proof.
  intros H. unfold f_swamee_jain. destruct (Rle_dec Re 0); [reflexivity | contradiction].
Qed.

Lemma reynolds_tramo_inv (Q D rho mu Re : R) :
  reynolds_tramo Q D rho mu = Ok Re ->
  D <> 0 /\ mu <> 0 /\
  velocidad Q (area_seccion D) = Ok (Q / area_seccion D) /\
  reynolds rho (Q / area_seccion D) D mu = Ok Re.
Proof.
  unfold reynolds_tramo, velocidad, reynolds. intros H.
  destruct (pydiv Q (area_seccion D)) as [v | e |] eqn:Ev; simpl in H; try discriminate H.
  apply pydiv_inv in Ev as [HA ->].
  pose proof H as H'. apply pydiv_inv in H' as [Hmu _].
  split; [| split; [assumption | split; [reflexivity | assumption]]].
  intros ->. apply HA. unfold area_seccion. simpl. lra.
Qed.

Lemma reynolds_tramo_ok (Q D rho mu : R) :
  D <> 0 -> mu <> 0 ->
  reynolds_tramo Q D rho mu = Ok (rho * (Q / area_seccion D) * D / mu).
Proof.
  intros HD Hmu. unfold reynolds_tramo, velocidad, reynolds.
  rewrite (pydiv_ok _ _ (area_seccion_nonzero D HD)). simpl.
  now apply pydiv_ok.
Qed.

(** ** calcular_tramo in closed form *)

(** Once the Reynolds number and the three friction factors are real
    numbers, [calcular_tramo] returns, and every entry of its dict is the
    expression below. *)
Lemma calcular_tramo_ok (hybr : solver)
    (Q D L z rho mu epsilon K_total : R) (n : Z) (es_bajada : bool)
    (Re fc fh fs : R) :
  reynolds_tramo Q D rho mu = Ok Re ->
  f_colebrook hybr Re epsilon D = Ok fc ->
  f_haaland Re epsilon D = Ok fh ->
  f_swamee_jain Re epsilon D = Ok fs ->
  let v := Q / area_seccion D in
  let L_est := if (0 <? n)%Z then L / IZR n else L in
  let z_est := if (0 <? n)%Z then z / IZR n else z in
  let hf := fc * (L_est / D) * v ^ 2 / (2 * g) in
  let hm := K_total * v ^ 2 / (2 * g) in
  let H := Rabs z_est + hf + hm in
  calcular_tramo hybr Q D L z rho mu epsilon K_total n es_bajada =
  Ok (mk_resultado (area_seccion D) v (carga_cinetica v) Re fc fh fs
        L_est hf (fh * (L_est / D) * v ^ 2 / (2 * g)) hm z_est H
        (H * IZR n)
        (if es_bajada then 0 else rho * g * Q * H / 1000)
        (if es_bajada then 0 else rho * g * Q * H / 1000 / 0.7457)
        n es_bajada).
Proof.
  intros HRe Hc Hh Hs v L_est z_est hf hm H.
  apply reynolds_tramo_inv in HRe as (HD & Hmu & Hv & HR).
  unfold calcular_tramo.
  rewrite Hv. cbn [bind]. rewrite HR. cbn [bind].
  rewrite Hc, Hh, Hs. cbn [bind].
  unfold perdidas_darcy. rewrite (pydiv_ok _ _ HD). cbn [bind].
  destruct es_bajada; reflexivity.
Qed.

(** C4.  For every Re <= 0 the three friction-factor functions return
    exactly 0.0 (a sentinel, not an error); and when the Reynolds number
    [calcular_tramo] computes is such a value, the call returns and both
    per-station frictional losses (Colebrook and Haaland) are 0. *)
Theorem friction_sentinel_no_flow (hybr : solver)
    (Re epsilon D Q L z rho mu K_total : R) (n : Z) (es_bajada : bool) :
  Re <= 0 ->
  f_haaland Re epsilon D = Ok 0 /\
  f_colebrook hybr Re epsilon D = Ok 0 /\
  f_swamee_jain Re epsilon D = Ok 0 /\
  (reynolds_tramo Q D rho mu = Ok Re ->
   exists r,
     calcular_tramo hybr Q D L z rho mu epsilon K_total n es_bajada = Ok r /\
     r_reynolds r = Re /\
     r_f_colebrook r = 0 /\ r_f_haaland r = 0 /\ r_f_swamee_jain r = 0 /\
     r_perdidas_friccion_colebrook r = 0 /\
     r_perdidas_friccion_haaland r = 0).
Proof.
  intros HRe.
  pose proof (f_haaland_sentinel Re epsilon D HRe) as Hh.
  pose proof (f_colebrook_sentinel hybr Re epsilon D HRe) as Hc.
  pose proof (f_swamee_jain_sentinel Re epsilon D HRe) as Hs.
  repeat (split; [assumption |]).
  intros HR.
  eexists. split.
  - exact (calcular_tramo_ok hybr Q D L z rho mu epsilon K_total n es_bajada
             Re 0 0 0 HR Hc Hh Hs).
  - cbn. repeat split; try reflexivity; unfold Rdiv; ring.
Qed.

(** A stagnant column (Q = 0) in segment 1 of the registry. *)
Lemma friction_sentinel_no_flow_witness :
  f_haaland 0 0.000046 0.1541 = Ok 0 /\
  f_colebrook (hybr_fijo 1) 0 0.000046 0.1541 = Ok 0 /\
  f_swamee_jain 0 0.000046 0.1541 = Ok 0 /\
  exists r,
    calcular_tramo (hybr_fijo 1) 0 0.1541 211.13 100 998 0.001 0.000046
      1.62 1 false = Ok r /\
    r_reynolds r = 0 /\
    r_f_colebrook r = 0 /\ r_f_haaland r = 0 /\ r_f_swamee_jain r = 0 /\
    r_perdidas_friccion_colebrook r = 0 /\
    r_perdidas_friccion_haaland r = 0.
Proof.
  destruct (friction_sentinel_no_flow (hybr_fijo 1) 0 0.000046 0.1541 0
              211.13 100 998 0.001 1.62 1 false) as (Hh & Hc & Hs & Ht);
    [lra |].
  repeat (split; [assumption |]).
  apply Ht.
  rewrite reynolds_tramo_ok; [f_equal; unfold Rdiv; ring | lra | lra].
Defined.

(** ** The friction correlations on turbulent inputs *)

Lemma Rpower_le_self (x y : R) : 0 < x -> x < 1 -> 1 <= y -> Rpower x y <= x.
Proof.
  intros Hx Hx1 Hy. unfold Rpower.
  rewrite <- (exp_ln x Hx) at 2.
  assert (Hl : ln x < 0) by (rewrite <- ln_1; apply ln_increasing; lra).
  destruct (Req_dec_T (y * ln x) (ln x)) as [-> | N]; [lra |].
  left. apply exp_increasing. nra.
Qed.

Lemma float_pow_small (x y : R) :
  0 <= x -> x < 1 -> 1 <= y ->
  exists p, float_pow x y = Ok p /\ 0 <= p <= x.
Proof.
  intros Hx Hx1 Hy. unfold float_pow.
  destruct (Rlt_dec 0 x) as [P | N].
  - eexists. split; [reflexivity |]. split.
    + left. unfold Rpower. apply exp_pos.
    + now apply Rpower_le_self.
  - destruct (Req_dec_T x 0) as [E | N']; [| lra].
    exists 0. split; [reflexivity | lra].
Qed.

Lemma log10_neg (t : R) : 0 < t -> t < 1 -> ln t / ln 10 < 0.
Proof.
  intros Ht Ht1.
  assert (Hl : ln t < 0) by (rewrite <- ln_1; apply ln_increasing; lra).
  assert (H10 := ln_10_pos).
  unfold Rdiv. assert (0 < / ln 10) by now apply Rinv_0_lt_compat. nra.
Qed.

Lemma f_haaland_defined (Re epsilon D : R) :
  0 < Re -> 0 <= epsilon -> 0 < D -> epsilon / D / 3.7 + 6.9 / Re < 1 ->
  exists f0, f_haaland Re epsilon D = Ok f0 /\ 0 < f0.
Proof.
  intros HRe He HD Ht. unfold f_haaland.
  destruct (Rle_dec Re 0) as [N | _]; [lra |].
  rewrite pydiv_ok by lra. cbn [bind].
  assert (Hq : 0 < 6.9 / Re) by (apply Rdiv_lt_0_compat; lra).
  assert (Hx : 0 <= epsilon / D / 3.7).
  { unfold Rdiv. assert (0 < / D) by now apply Rinv_0_lt_compat.
    assert (0 <= epsilon * / D) by now apply Rmult_le_pos; [| lra].
    lra. }
  destruct (float_pow_small (epsilon / D / 3.7) 1.11) as (p & -> & Hp); try lra.
  cbn [bind]. rewrite pydiv_ok by lra. cbn [bind].
  rewrite np_log10_ok by lra. cbn [bind].
  assert (Hl : ln (p + 6.9 / Re) / ln 10 < 0) by (apply log10_neg; lra).
  set (l := ln (p + 6.9 / Re) / ln 10) in *.
  assert (Hsq : 0 < (- 1.8 * l) ^ 2) by (simpl; nra).
  rewrite npdiv_ok by lra.
  eexists. split; [reflexivity |].
  apply Rdiv_lt_0_compat; lra.
Qed.

Lemma Rpower_09_large (Re : R) : 10000 <= Re -> 100 <= Rpower Re 0.9.
Proof.
  intros HRe.
  apply Rle_trans with (Rpower Re (/ 2)).
  - rewrite Rpower_sqrt by lra.
    replace 100 with (sqrt (100 * 100)) by (apply sqrt_square; lra).
    apply sqrt_le_1_alt. lra.
  - apply Rle_Rpower; lra.
Qed.

Lemma f_swamee_jain_defined (Re epsilon D : R) :
  10000 <= Re -> 0 <= epsilon -> 0 < D -> epsilon / (3.7 * D) <= 0.9 ->
  exists fs, f_swamee_jain Re epsilon D = Ok fs /\ 0 < fs.
Proof.
  intros HRe He HD Ht. unfold f_swamee_jain.
  destruct (Rle_dec Re 0) as [N | _]; [lra |].
  rewrite pydiv_ok by lra. cbn [bind].
  unfold float_pow. destruct (Rlt_dec 0 Re) as [_ | N]; [| lra]. cbn [bind].
  pose proof (Rpower_09_large Re HRe) as HP.
  set (P := Rpower Re 0.9) in *.
  rewrite pydiv_ok by lra. cbn [bind].
  assert (Ha : 0 <= epsilon / (3.7 * D)).
  { unfold Rdiv. assert (0 < / (3.7 * D)) by (apply Rinv_0_lt_compat; lra).
    now apply Rmult_le_pos; [| lra]. }
  assert (Hb : 0 < 5.74 / P) by (apply Rdiv_lt_0_compat; lra).
  assert (Hb' : 5.74 / P <= 0.0574).
  { unfold Rdiv. assert (/ P <= / 100) by (apply Rinv_le_contravar; lra). lra. }
  rewrite np_log10_ok by lra. cbn [bind].
  assert (Hl : ln (epsilon / (3.7 * D) + 5.74 / P) / ln 10 < 0)
    by (apply log10_neg; lra).
  set (l := ln (epsilon / (3.7 * D) + 5.74 / P) / ln 10) in *.
  assert (Hsq : 0 < l ^ 2) by (simpl; nra).
  rewrite npdiv_ok by lra.
  eexists. split; [reflexivity |].
  apply Rdiv_lt_0_compat; lra.
Qed.

(** ** The implicit solve *)

Lemma fsolve_returns_iterate (hybr : solver) (func : R -> res R) (x0 : R) :
  (1 <= sol_status (hybr func x0) <= 5)%Z ->
  fsolve hybr func x0 = Ok (sol_x (hybr func x0)).
Proof.
  intros Hs. unfold fsolve. cbv zeta.
  destruct (Z.eqb_spec (sol_status (hybr func x0)) 0) as [E | _]; [lia |].
  destruct (Z.eqb_spec (sol_status (hybr func x0)) 1) as [_ | N]; [reflexivity |].
  destruct (Z.leb_spec 2 (sol_status (hybr func x0))); [| lia].
  destruct (Z.leb_spec (sol_status (hybr func x0)) 5); [| lia].
  reflexivity.
Qed.

Lemma f_colebrook_step (hybr : solver) (Re epsilon D f0 : R) :
  0 < Re -> f_haaland Re epsilon D = Ok f0 ->
  f_colebrook hybr Re epsilon D =
  (sol <- fsolve hybr (ecuacion Re epsilon D) f0 ;; Ok sol).
Proof.
  intros HRe Hh. unfold f_colebrook.
  destruct (Rle_dec Re 0) as [N | _]; [lra |].
  rewrite Hh. reflexivity.
Qed.

Lemma rugosidad_relativa (epsilon D : R) :
  0 < D -> 3.7 * D <= epsilon -> 1 <= epsilon / D / 3.7.
Proof.
  intros HD He.
  assert (Hi : 0 < / D) by now apply Rinv_0_lt_compat.
  assert (H1 : D * / D = 1) by (apply Rinv_r; lra).
  unfold Rdiv. nra.
Qed.

Lemma log10_pos (t : R) : 1 < t -> 0 < ln t / ln 10.
Proof.
  intros Ht. apply Rdiv_lt_0_compat; [| exact ln_10_pos].
  rewrite <- ln_1. apply ln_increasing; lra.
Qed.

(** In a pipe whose relative roughness is 3.7 or more the residual of the
    Colebrook-White equation is positive at every f: it has no root. *)
Lemma ecuacion_sin_raiz (Re epsilon D f : R) :
  0 < Re -> 0 < D -> 3.7 * D <= epsilon ->
  exists r, ecuacion Re epsilon D f = Ok r /\ 0 < r.
Proof.
  intros HRe HD He. unfold ecuacion.
  destruct (Rle_dec f 0) as [Hf | Hf]; [exists 1; split; [reflexivity | lra] |].
  assert (Hf' : 0 < f) by lra.
  assert (Hs : 0 < sqrt f) by now apply sqrt_lt_R0.
  pose proof (rugosidad_relativa epsilon D HD He) as Hx.
  assert (Hp : 0 < Re * sqrt f) by now apply Rmult_lt_0_compat.
  assert (Hc : 0 < 2.51 / (Re * sqrt f)) by (apply Rdiv_lt_0_compat; lra).
  rewrite np_sqrt_ok by lra. cbn [bind].
  rewrite npdiv_ok by lra. cbn [bind].
  rewrite pydiv_ok by lra. cbn [bind].
  rewrite npdiv_ok by lra. cbn [bind].
  rewrite np_log10_ok by lra. cbn [bind].
  eexists. split; [reflexivity |].
  assert (Hl : 0 < ln (epsilon / D / 3.7 + 2.51 / (Re * sqrt f)) / ln 10)
    by (apply log10_pos; lra).
  assert (Ha : 0 < 1 / sqrt f) by (apply Rdiv_lt_0_compat; lra).
  lra.
Qed.

(** The Haaland seed is still a positive real number there. *)
Lemma f_haaland_rugoso (Re epsilon D : R) :
  0 < Re -> 0 < D -> 3.7 * D <= epsilon ->
  exists f0, f_haaland Re epsilon D = Ok f0 /\ 0 < f0.
Proof.
  intros HRe HD He. unfold f_haaland.
  destruct (Rle_dec Re 0) as [N | _]; [lra |].
  pose proof (rugosidad_relativa epsilon D HD He) as Hx.
  rewrite pydiv_ok by lra. cbn [bind].
  unfold float_pow.
  destruct (Rlt_dec 0 (epsilon / D / 3.7)) as [_ | N]; [| lra]. cbn [bind].
  rewrite pydiv_ok by lra. cbn [bind].
  assert (Hp : 1 <= Rpower (epsilon / D / 3.7) 1.11).
  { unfold Rpower. rewrite <- exp_0.
    assert (Hl : 0 <= ln (epsilon / D / 3.7)).
    { rewrite <- ln_1. destruct Hx as [Hx | <-]; [| lra].
      left. apply ln_increasing; lra. }
    assert (H0 : 0 <= 1.11 * ln (epsilon / D / 3.7)) by nra.
    destruct H0 as [H0 | <-]; [| lra].
    left. now apply exp_increasing. }
  assert (Hq : 0 < 6.9 / Re) by (apply Rdiv_lt_0_compat; lra).
  rewrite np_log10_ok by lra. cbn [bind].
  pose proof (log10_pos (Rpower (epsilon / D / 3.7) 1.11 + 6.9 / Re)
                ltac:(lra)) as Hl.
  set (l := ln (Rpower (epsilon / D / 3.7) 1.11 + 6.9 / Re) / ln 10) in *.
  assert (Hi : 0 < (- 1.8 * l) ^ 2) by (simpl; nra).
  rewrite npdiv_ok by lra.
  eexists. split; [reflexivity |].
  apply Rdiv_lt_0_compat; lra.
Qed.

(** [fsolve] either raises its [TypeError] or hands the iterate back. *)
Lemma fsolve_cases (hybr : solver) (func : R -> res R) (x0 : R) :
  fsolve hybr func x0 = Raise TypeError \/
  fsolve hybr func x0 = Ok (sol_x (hybr func x0)).
Proof.
  unfold fsolve. cbv zeta.
  destruct (sol_status (hybr func x0) =? 0)%Z; [left; reflexivity |].
  destruct (sol_status (hybr func x0) =? 1)%Z; [right; reflexivity |].
  destruct ((2 <=? sol_status (hybr func x0))
            && (sol_status (hybr func x0) <=? 5))%Z;
    [right | left]; reflexivity.
Qed.

(** C1, as the code has it.  [f_colebrook] has no failure channel for a
    solve that did not converge: with a positive Reynolds number and a
    Haaland seed f0, whatever status from 1 to 5 the iteration ends with
    (1 is convergence, 2 to 5 are the failures to converge), it returns
    the solver's last iterate as an ordinary friction factor.  The residual
    of that iterate is never checked: in a pipe of relative roughness 3.7
    or more, where the residual is positive at every f, the value returned
    is not a root of the equation. *)
Theorem f_colebrook_returns_last_iterate (hybr : solver)
    (Re epsilon D f0 : R) :
  0 < Re ->
  f_haaland Re epsilon D = Ok f0 ->
  (1 <= sol_status (hybr (ecuacion Re epsilon D) f0) <= 5)%Z ->
  f_colebrook hybr Re epsilon D =
  Ok (sol_x (hybr (ecuacion Re epsilon D) f0)) /\
  (0 < D -> 3.7 * D <= epsilon ->
   exists r,
     ecuacion Re epsilon D (sol_x (hybr (ecuacion Re epsilon D) f0)) = Ok r /\
     0 < r).
Proof.
  intros HRe Hh Hs. split.
  - rewrite (f_colebrook_step hybr Re epsilon D f0 HRe Hh).
    rewrite (fsolve_returns_iterate _ _ _ Hs). reflexivity.
  - intros HD He. now apply ecuacion_sin_raiz.
Qed.

(** A run that ends without progress (status 5) at Re = 200000 in a pipe
    of relative roughness 0.6 / 0.1541 = 3.89. *)
Lemma f_colebrook_returns_last_iterate_witness :
  exists f0,
    f_haaland 200000 0.6 0.1541 = Ok f0 /\
    f_colebrook (hybr_fijo 5) 200000 0.6 0.1541 =
    Ok (sol_x (hybr_fijo 5 (ecuacion 200000 0.6 0.1541) f0)) /\
    exists r,
      ecuacion 200000 0.6 0.1541
        (sol_x (hybr_fijo 5 (ecuacion 200000 0.6 0.1541) f0)) = Ok r /\
      0 < r.
Proof.
  destruct (f_haaland_rugoso 200000 0.6 0.1541) as (f0 & Hh & _); try lra.
  exists f0. split; [exact Hh |].
  destruct (f_colebrook_returns_last_iterate (hybr_fijo 5) 200000 0.6 0.1541
              f0) as (H1 & H2); [lra | exact Hh | simpl; lia |].
  split; [exact H1 | apply H2; lra].
Defined.

(** C1 fails as stated, whatever the solver does.  At Re = 200000 in a
    pipe of relative roughness 0.6 / 0.1541 = 3.89 the Haaland seed is a
    positive real and the residual is positive at every f, so the solve
    cannot converge; yet every run of the solver either ends in the
    [TypeError] of [fsolve] (a status outside 1..5) or comes back from
    [f_colebrook] as a plain value whose residual is positive: a value
    that solves nothing, returned as the friction factor. *)
Lemma f_colebrook_returns_non_root :
  (exists f0, f_haaland 200000 0.6 0.1541 = Ok f0 /\ 0 < f0) /\
  (forall f : R,
     exists r, ecuacion 200000 0.6 0.1541 f = Ok r /\ 0 < r) /\
  (forall hybr : solver,
     f_colebrook hybr 200000 0.6 0.1541 = Raise TypeError \/
     exists x r,
       f_colebrook hybr 200000 0.6 0.1541 = Ok x /\
       ecuacion 200000 0.6 0.1541 x = Ok r /\ 0 < r) /\
  (forall (hybr : solver) (f0 : R),
     f_haaland 200000 0.6 0.1541 = Ok f0 ->
     (1 <= sol_status (hybr (ecuacion 200000 0.6 0.1541) f0) <= 5)%Z ->
     exists x r,
       f_colebrook hybr 200000 0.6 0.1541 = Ok x /\
       ecuacion 200000 0.6 0.1541 x = Ok r /\ 0 < r).
Proof.
  assert (Hraiz : forall f : R,
             exists r, ecuacion 200000 0.6 0.1541 f = Ok r /\ 0 < r)
    by (intros f; apply ecuacion_sin_raiz; lra).
  destruct (f_haaland_rugoso 200000 0.6 0.1541) as (f0 & Hh & Hpos); try lra.
  split; [exists f0; split; assumption |].
  split; [exact Hraiz |].
  split.
  - intros hybr.
    rewrite (f_colebrook_step hybr 200000 0.6 0.1541 f0) by (lra || assumption).
    destruct (fsolve_cases hybr (ecuacion 200000 0.6 0.1541) f0) as [-> | ->];
      cbn [bind]; [left; reflexivity | right].
    destruct (Hraiz (sol_x (hybr (ecuacion 200000 0.6 0.1541) f0)))
      as (r & Hr & Hrp).
    eexists _, r. split; [reflexivity |]. split; assumption.
  - intros hybr f1 Hh1 Hs.
    rewrite (f_colebrook_step hybr 200000 0.6 0.1541 f1) by (lra || assumption).
    rewrite (fsolve_returns_iterate _ _ _ Hs). cbn [bind].
    destruct (Hraiz (sol_x (hybr (ecuacion 200000 0.6 0.1541) f1)))
      as (r & Hr & Hrp).
    eexists _, r. split; [reflexivity |]. split; assumption.
Qed.

(** C5.  The residual is guarded: for f <= 0 it returns the penalty 1.0
    and evaluates neither [sqrt] nor [log10]; for f > 0 (with Re > 0,
    epsilon >= 0, D > 0) the argument of [sqrt] and the argument of
    [log10] are strictly positive and the residual is the Colebrook-White
    expression, a real number. *)
Theorem ecuacion_guarded (Re epsilon D f : R) :
  (f <= 0 -> ecuacion Re epsilon D f = Ok 1) /\
  (0 < f -> 0 < Re -> 0 <= epsilon -> 0 < D ->
   0 < sqrt f /\
   0 < epsilon / D / 3.7 + 2.51 / (Re * sqrt f) /\
   ecuacion Re epsilon D f =
   Ok (1 / sqrt f
       + 2 * (ln (epsilon / D / 3.7 + 2.51 / (Re * sqrt f)) / ln 10))).
Proof.
  split.
  - intros Hf. unfold ecuacion.
    destruct (Rle_dec f 0); [reflexivity | contradiction].
  - intros Hf HRe He HD.
    assert (Hs : 0 < sqrt f) by now apply sqrt_lt_R0.
    assert (Hx : 0 <= epsilon / D / 3.7).
    { unfold Rdiv. assert (0 < / D) by now apply Rinv_0_lt_compat.
      assert (0 <= epsilon * / D) by now apply Rmult_le_pos; [| lra].
      lra. }
    assert (Hp : 0 < Re * sqrt f) by now apply Rmult_lt_0_compat.
    assert (Hc : 0 < 2.51 / (Re * sqrt f)) by (apply Rdiv_lt_0_compat; lra).
    split; [assumption |]. split; [lra |].
    unfold ecuacion. destruct (Rle_dec f 0) as [N | _]; [lra |].
    rewrite np_sqrt_ok by lra. cbn [bind].
    rewrite npdiv_ok by lra. cbn [bind].
    rewrite pydiv_ok by lra. cbn [bind].
    rewrite npdiv_ok by lra. cbn [bind].
    rewrite np_log10_ok by lra. reflexivity.
Qed.

(** The guard at f = -0.02 and the feasible side at f = 0.02. *)
Lemma ecuacion_guarded_witness :
  ecuacion 200000 0.000046 0.1541 (-0.02) = Ok 1 /\
  0 < 0.000046 / 0.1541 / 3.7 + 2.51 / (200000 * sqrt 0.02) /\
  ecuacion 200000 0.000046 0.1541 0.02 =
  Ok (1 / sqrt 0.02
      + 2 * (ln (0.000046 / 0.1541 / 3.7 + 2.51 / (200000 * sqrt 0.02))
             / ln 10)).
Proof.
  split.
  - apply (proj1 (ecuacion_guarded 200000 0.000046 0.1541 (-0.02))). lra.
  - apply (proj2 (ecuacion_guarded 200000 0.000046 0.1541 0.02)); lra.
Defined.

(** ** The design point: Q = 0.025, D = 0.1541, rho = 998, mu = 0.001,
       epsilon = 0.000046 (the defaults of [calcular_sistema_completo]) *)

Lemma area_seccion_pos (D : R) : D <> 0 -> 0 < area_seccion D.
Proof.
  intros HD. unfold area_seccion. assert (HP := PI_RGT_0).
  assert (0 < D * D) by (destruct (Rtotal_order D 0) as [? | [? | ?]]; nra).
  simpl. nra.
Qed.

Lemma reynolds_design :
  exists Re, reynolds_tramo 0.025 0.1541 998 0.001 = Ok Re /\ 10000 <= Re.
Proof.
  eexists. split; [apply reynolds_tramo_ok; lra |].
  assert (HA : 0 < area_seccion 0.1541) by (apply area_seccion_pos; lra).
  assert (HA' : area_seccion 0.1541 <= 0.025).
  { unfold area_seccion. assert (HP := PI_4). simpl. nra. }
  assert (Hv : 1 <= 0.025 / area_seccion 0.1541).
  { apply (Rmult_le_reg_r (area_seccion 0.1541)); [exact HA |].
    unfold Rdiv. rewrite Rmult_assoc, Rinv_l by lra. lra. }
  set (v := 0.025 / area_seccion 0.1541) in *. lra.
Qed.

(** Every friction factor is a real number when the flow is turbulent
    (Re >= 10^4) in a pipe of moderate relative roughness. *)
Lemma friction_defined (hybr : solver) (Re epsilon D : R) :
  10000 <= Re -> 0 <= epsilon -> 0 < D -> epsilon / D <= 3 ->
  exists fh fs,
    f_haaland Re epsilon D = Ok fh /\ 0 < fh /\
    f_swamee_jain Re epsilon D = Ok fs /\
    ((1 <= sol_status (hybr (ecuacion Re epsilon D) fh) <= 5)%Z ->
     f_colebrook hybr Re epsilon D =
     Ok (sol_x (hybr (ecuacion Re epsilon D) fh))).
Proof.
  intros HRe He HD Hr.
  assert (Hq : 6.9 / Re <= 0.00069).
  { unfold Rdiv. assert (/ Re <= / 10000) by (apply Rinv_le_contravar; lra). lra. }
  destruct (f_haaland_defined Re epsilon D) as (fh & Hh & Hpos); try lra.
  destruct (f_swamee_jain_defined Re epsilon D) as (fs & Hs & _); try lra.
  { replace (epsilon / (3.7 * D)) with (epsilon / D / 3.7) by (field; lra). lra. }
  exists fh, fs. repeat split; try assumption.
  intros Hst. rewrite (f_colebrook_step hybr Re epsilon D fh) by (lra || assumption).
  now rewrite fsolve_returns_iterate.
Qed.

Lemma friction_design :
  exists Re fh fs,
    reynolds_tramo 0.025 0.1541 998 0.001 = Ok Re /\ 0 < Re /\
    f_haaland Re 0.000046 0.1541 = Ok fh /\ 0 < fh /\
    f_swamee_jain Re 0.000046 0.1541 = Ok fs /\
    f_colebrook (hybr_fijo 1) Re 0.000046 0.1541 = Ok fh.
Proof.
  destruct reynolds_design as (Re & HR & HRe).
  destruct (friction_defined (hybr_fijo 1) Re 0.000046 0.1541)
    as (fh & fs & Hh & Hpos & Hs & Hc); try lra.
  exists Re, fh, fs. repeat split; try assumption; try lra.
  apply Hc. simpl. lia.
Qed.

(** ** Head assembly *)

(** C6.  For a station count n >= 1, whenever the Reynolds number and the
    friction factors are real numbers, [calcular_tramo] returns and
    - the per-station head is |z|/n + f_colebrook ((L/n)/D) v^2/(2g)
      + K_total v^2/(2g), the minor loss not being divided by n;
    - the segment head is the per-station head times n, that is
      |z| + f_colebrook (L/D) v^2/(2g) + n K_total v^2/(2g). *)
Theorem head_assembly (hybr : solver)
    (Q D L z rho mu epsilon K_total : R) (n : Z) (es_bajada : bool)
    (Re fc fh fs : R) :
  (1 <= n)%Z ->
  reynolds_tramo Q D rho mu = Ok Re ->
  f_colebrook hybr Re epsilon D = Ok fc ->
  f_haaland Re epsilon D = Ok fh ->
  f_swamee_jain Re epsilon D = Ok fs ->
  exists r,
    calcular_tramo hybr Q D L z rho mu epsilon K_total n es_bajada = Ok r /\
    r_f_colebrook r = fc /\
    r_velocidad r = Q / area_seccion D /\
    r_perdidas_menores r = K_total * r_velocidad r ^ 2 / (2 * g) /\
    r_carga_estacion r =
      Rabs z / IZR n
      + fc * ((L / IZR n) / D) * r_velocidad r ^ 2 / (2 * g)
      + K_total * r_velocidad r ^ 2 / (2 * g) /\
    r_carga_total r = r_carga_estacion r * IZR n /\
    r_carga_total r =
      Rabs z
      + fc * (L / D) * r_velocidad r ^ 2 / (2 * g)
      + IZR n * (K_total * r_velocidad r ^ 2 / (2 * g)).
Proof.
  intros Hn HRe Hc Hh Hs.
  pose proof (reynolds_tramo_inv _ _ _ _ _ HRe) as (HD & _).
  assert (Hn' : 0 < IZR n) by (apply IZR_lt; lia).
  assert (Hb : (0 <? n)%Z = true) by (apply Z.ltb_lt; lia).
  assert (Habs : Rabs (z / IZR n) = Rabs z / IZR n).
  { unfold Rdiv. rewrite Rabs_mult, (Rabs_right (/ IZR n)); [reflexivity |].
    left. now apply Rinv_0_lt_compat. }
  eexists. split.
  - exact (calcular_tramo_ok hybr Q D L z rho mu epsilon K_total n es_bajada
             Re fc fh fs HRe Hc Hh Hs).
  - cbn. rewrite Hb, Habs.
    repeat split; try reflexivity.
    unfold g. field.
    repeat split; try assumption; try lra.
    now apply area_seccion_nonzero.
Qed.

(** Segment 2 of the registry (two stations) at the design point. *)
Lemma head_assembly_witness :
  exists fc r,
    calcular_tramo (hybr_fijo 1) 0.025 0.1541 235.42 200 998 0.001 0.000046
      3.87 2 false = Ok r /\
    r_f_colebrook r = fc /\
    r_velocidad r = 0.025 / area_seccion 0.1541 /\
    r_perdidas_menores r = 3.87 * r_velocidad r ^ 2 / (2 * g) /\
    r_carga_estacion r =
      Rabs 200 / 2
      + fc * ((235.42 / 2) / 0.1541) * r_velocidad r ^ 2 / (2 * g)
      + 3.87 * r_velocidad r ^ 2 / (2 * g) /\
    r_carga_total r = r_carga_estacion r * 2 /\
    r_carga_total r =
      Rabs 200
      + fc * (235.42 / 0.1541) * r_velocidad r ^ 2 / (2 * g)
      + 2 * (3.87 * r_velocidad r ^ 2 / (2 * g)).
Proof.
  destruct friction_design as (Re & fh & fs & HR & _ & Hh & _ & Hs & Hc).
  exists fh.
  apply (head_assembly (hybr_fijo 1) 0.025 0.1541 235.42 200 998 0.001
           0.000046 3.87 2 false Re fh fh fs); (lia || assumption).
Defined.

(** ** Station count *)

(** C3, as the code has it.  With the registry fields of segment 6
    (L = 209.34, z = 0.0, K_total = 2.68, descending), going from one
    station to two halves the per-station pipe length and the per-station
    elevation entry (0.0 in both runs, since the registry passes z = 0.0),
    and leaves the per-station pump power where it was: 0.0 kW and 0.0 HP,
    because the segment is descending. *)
Theorem segment6_two_stations (hybr : solver) (Q D rho mu epsilon : R)
    (Re fc fh fs : R) :
  reynolds_tramo Q D rho mu = Ok Re ->
  f_colebrook hybr Re epsilon D = Ok fc ->
  f_haaland Re epsilon D = Ok fh ->
  f_swamee_jain Re epsilon D = Ok fs ->
  exists r1 r2,
    calcular_tramo hybr Q D (d_longitud_tuberia tramo6) (d_z tramo6) rho mu
      epsilon (d_K_total tramo6) 1 (d_es_bajada tramo6) = Ok r1 /\
    calcular_tramo hybr Q D (d_longitud_tuberia tramo6) (d_z tramo6) rho mu
      epsilon (d_K_total tramo6) 2 (d_es_bajada tramo6) = Ok r2 /\
    r_longitud_estacion r1 = 209.34 /\
    r_longitud_estacion r2 = r_longitud_estacion r1 / 2 /\
    r_z_estacion r1 = 0 /\
    r_z_estacion r2 = r_z_estacion r1 / 2 /\
    r_potencia_kw r1 = 0 /\ r_potencia_kw r2 = 0 /\
    r_potencia_hp r1 = 0 /\ r_potencia_hp r2 = 0.
Proof.
  intros HRe Hc Hh Hs.
  do 2 eexists. split; [| split].
  - exact (calcular_tramo_ok hybr Q D _ _ rho mu epsilon _ 1 _
             Re fc fh fs HRe Hc Hh Hs).
  - exact (calcular_tramo_ok hybr Q D _ _ rho mu epsilon _ 2 _
             Re fc fh fs HRe Hc Hh Hs).
  - cbn. repeat split; lra.
Qed.

Lemma segment6_two_stations_witness :
  exists r1 r2,
    calcular_tramo (hybr_fijo 1) 0.025 0.1541 (d_longitud_tuberia tramo6)
      (d_z tramo6) 998 0.001 0.000046 (d_K_total tramo6) 1
      (d_es_bajada tramo6) = Ok r1 /\
    calcular_tramo (hybr_fijo 1) 0.025 0.1541 (d_longitud_tuberia tramo6)
      (d_z tramo6) 998 0.001 0.000046 (d_K_total tramo6) 2
      (d_es_bajada tramo6) = Ok r2 /\
    r_longitud_estacion r1 = 209.34 /\
    r_longitud_estacion r2 = r_longitud_estacion r1 / 2 /\
    r_z_estacion r1 = 0 /\
    r_z_estacion r2 = r_z_estacion r1 / 2 /\
    r_potencia_kw r1 = 0 /\ r_potencia_kw r2 = 0 /\
    r_potencia_hp r1 = 0 /\ r_potencia_hp r2 = 0.
Proof.
  destruct friction_design as (Re & fh & fs & HR & _ & Hh & _ & Hs & Hc).
  apply (segment6_two_stations (hybr_fijo 1) 0.025 0.1541 998 0.001 0.000046
           Re fh fh fs); assumption.
Defined.

(** C3 fails as stated: at the design point the per-station pump power
    of segment 6 is the same with one station and with two. *)
Lemma segment6_power_invariant :
  exists r1 r2,
    calcular_tramo (hybr_fijo 1) 0.025 0.1541 209.34 0 998 0.001 0.000046
      2.68 1 true = Ok r1 /\
    calcular_tramo (hybr_fijo 1) 0.025 0.1541 209.34 0 998 0.001 0.000046
      2.68 2 true = Ok r2 /\
    r_potencia_kw r1 = r_potencia_kw r2.
Proof.
  destruct friction_design as (Re & fh & fs & HR & _ & Hh & _ & Hs & Hc).
  do 2 eexists. split; [| split].
  - exact (calcular_tramo_ok (hybr_fijo 1) 0.025 0.1541 209.34 0 998 0.001
             0.000046 2.68 1 true Re fh fh fs HR Hc Hh Hs).
  - exact (calcular_tramo_ok (hybr_fijo 1) 0.025 0.1541 209.34 0 998 0.001
             0.000046 2.68 2 true Re fh fh fs HR Hc Hh Hs).
  - reflexivity.
Qed.

(** ** Invalid geometry *)

Lemma calcular_tramo_D_zero (hybr : solver)
    (Q L z rho mu epsilon K_total : R) (n : Z) (es_bajada : bool) :
  calcular_tramo hybr Q 0 L z rho mu epsilon K_total n es_bajada =
  Raise ZeroDivisionError.
Proof.
  unfold calcular_tramo, velocidad.
  replace (area_seccion 0) with 0 by (unfold area_seccion; simpl; lra).
  now rewrite pydiv_zero.
Qed.

Lemma calcular_tramo_mu_zero (hybr : solver)
    (Q D L z rho epsilon K_total : R) (n : Z) (es_bajada : bool) :
  D <> 0 ->
  calcular_tramo hybr Q D L z rho 0 epsilon K_total n es_bajada =
  Raise ZeroDivisionError.
Proof.
  intros HD. unfold calcular_tramo, velocidad, reynolds.
  rewrite (pydiv_ok _ _ (area_seccion_nonzero D HD)). cbn [bind].
  now rewrite pydiv_zero.
Qed.

(** C2, as the code has it.  No function of the engine checks its
    geometry.
    - [area_seccion] is total: it returns pi D^2/4 for every D, a positive
      area for D < 0 as for D > 0.
    - [calcular_tramo] raises Python's ZeroDivisionError when D = 0 (in
      [velocidad]) and when mu = 0 with D <> 0 (in [reynolds]).
    - A negative D or mu that makes the Reynolds number <= 0 is not
      rejected: the call returns a result, with all friction factors 0.
    - A station count n <= 0 is not rejected: the call returns a result
      built from the undivided length and elevation, with the segment
      head equal to the per-station head times n. *)
Theorem geometry_is_not_validated (hybr : solver)
    (Q D L z rho mu epsilon K_total : R) (n : Z) (es_bajada : bool) :
  area_seccion D = area_seccion (- D) /\
  (D <> 0 -> 0 < area_seccion D) /\
  (D = 0 ->
   calcular_tramo hybr Q D L z rho mu epsilon K_total n es_bajada =
   Raise ZeroDivisionError) /\
  (D <> 0 -> mu = 0 ->
   calcular_tramo hybr Q D L z rho mu epsilon K_total n es_bajada =
   Raise ZeroDivisionError) /\
  (D <> 0 -> mu <> 0 -> rho * (Q / area_seccion D) * D / mu <= 0 ->
   exists r,
     calcular_tramo hybr Q D L z rho mu epsilon K_total n es_bajada = Ok r /\
     r_area r = area_seccion D /\
     r_f_colebrook r = 0 /\ r_f_haaland r = 0 /\ r_f_swamee_jain r = 0) /\
  (forall Re fc fh fs,
   (n <= 0)%Z ->
   reynolds_tramo Q D rho mu = Ok Re ->
   f_colebrook hybr Re epsilon D = Ok fc ->
   f_haaland Re epsilon D = Ok fh ->
   f_swamee_jain Re epsilon D = Ok fs ->
   exists r,
     calcular_tramo hybr Q D L z rho mu epsilon K_total n es_bajada = Ok r /\
     r_num_estaciones r = n /\
     r_longitud_estacion r = L /\
     r_z_estacion r = z /\
     r_carga_total r = r_carga_estacion r * IZR n).
Proof.
  split; [unfold area_seccion; simpl; lra |].
  split; [apply area_seccion_pos |].
  split; [intros ->; apply calcular_tramo_D_zero |].
  split; [intros HD ->; now apply calcular_tramo_mu_zero |].
  split.
  - intros HD Hmu HRe.
    pose proof (reynolds_tramo_ok Q D rho mu HD Hmu) as HR.
    eexists. split.
    + exact (calcular_tramo_ok hybr Q D L z rho mu epsilon K_total n es_bajada
               _ 0 0 0 HR (f_colebrook_sentinel hybr _ epsilon D HRe)
               (f_haaland_sentinel _ epsilon D HRe)
               (f_swamee_jain_sentinel _ epsilon D HRe)).
    + cbn. repeat split; reflexivity.
  - intros Re fc fh fs Hn HR Hc Hh Hs.
    assert (Hb : (0 <? n)%Z = false) by (apply Z.ltb_ge; lia).
    eexists. split.
    + exact (calcular_tramo_ok hybr Q D L z rho mu epsilon K_total n es_bajada
               Re fc fh fs HR Hc Hh Hs).
    + cbn. rewrite Hb. repeat split; reflexivity.
Qed.

(** A zero diameter, and a station count of 0 at the design point. *)
Lemma geometry_is_not_validated_witness :
  calcular_tramo (hybr_fijo 1) 0.025 0 211.13 100 998 0.001 0.000046 1.62 1
    false = Raise ZeroDivisionError /\
  exists r,
    calcular_tramo (hybr_fijo 1) 0.025 0.1541 211.13 100 998 0.001 0.000046
      1.62 0 false = Ok r /\
    r_num_estaciones r = 0%Z /\
    r_longitud_estacion r = 211.13 /\
    r_z_estacion r = 100 /\
    r_carga_total r = r_carga_estacion r * 0.
Proof.
  split.
  - destruct (geometry_is_not_validated (hybr_fijo 1) 0.025 0 211.13 100 998
                0.001 0.000046 1.62 1 false) as (_ & _ & H & _).
    apply H. reflexivity.
  - destruct friction_design as (Re & fh & fs & HR & _ & Hh & _ & Hs & Hc).
    destruct (geometry_is_not_validated (hybr_fijo 1) 0.025 0.1541 211.13 100
                998 0.001 0.000046 1.62 0 false) as (_ & _ & _ & _ & _ & H).
    apply (H Re fh fh fs); (lia || assumption).
Defined.

(** C2 fails as stated: a negative diameter gets an area, a negative
    diameter and a negative viscosity each get a whole segment result,
    and a station count of 0 in segment 1 at the design point gets a
    result with the full pipe length as per-station length and a segment
    head of 0. *)
Lemma invalid_geometry_accepted :
  0 < area_seccion (- 0.1541) /\
  (exists r,
     calcular_tramo (hybr_fijo 1) 0.025 (- 0.1541) 211.13 100 998 0.001
       0.000046 1.62 1 false = Ok r /\
     0 < r_area r /\ r_f_colebrook r = 0) /\
  (exists r,
     calcular_tramo (hybr_fijo 1) 0.025 0.1541 211.13 100 998 (- 0.001)
       0.000046 1.62 1 false = Ok r /\
     r_reynolds r <= 0 /\ r_f_colebrook r = 0) /\
  (exists r,
     calcular_tramo (hybr_fijo 1) 0.025 0.1541 211.13 100 998 0.001
       0.000046 1.62 0 false = Ok r /\
     r_num_estaciones r = 0%Z /\
     r_longitud_estacion r = 211.13 /\
     r_carga_total r = 0).
Proof.
  assert (HA : 0 < area_seccion (- 0.1541)) by (apply area_seccion_pos; lra).
  split; [exact HA |]. split.
  - assert (HRe : 998 * (0.025 / area_seccion (- 0.1541)) * (- 0.1541) / 0.001 <= 0).
    { assert (0 < 0.025 / area_seccion (- 0.1541))
        by (apply Rdiv_lt_0_compat; lra).
      lra. }
    assert (HR := reynolds_tramo_ok 0.025 (- 0.1541) 998 0.001).
    eexists. split.
    + refine (calcular_tramo_ok (hybr_fijo 1) 0.025 (- 0.1541) 211.13 100 998
                0.001 0.000046 1.62 1 false _ 0 0 0 (HR _ _)
                (f_colebrook_sentinel _ _ _ _ HRe)
                (f_haaland_sentinel _ _ _ HRe)
                (f_swamee_jain_sentinel _ _ _ HRe)); lra.
    + cbn. split; [exact HA | reflexivity].
  - split.
    + assert (HA' : 0 < area_seccion 0.1541) by (apply area_seccion_pos; lra).
      assert (HRe : 998 * (0.025 / area_seccion 0.1541) * 0.1541 / (- 0.001) <= 0).
      { assert (0 < 0.025 / area_seccion 0.1541)
          by (apply Rdiv_lt_0_compat; lra).
        lra. }
      assert (HR := reynolds_tramo_ok 0.025 0.1541 998 (- 0.001)).
      eexists. split.
      * refine (calcular_tramo_ok (hybr_fijo 1) 0.025 0.1541 211.13 100 998
                  (- 0.001) 0.000046 1.62 1 false _ 0 0 0 (HR _ _)
                  (f_colebrook_sentinel _ _ _ _ HRe)
                  (f_haaland_sentinel _ _ _ HRe)
                  (f_swamee_jain_sentinel _ _ _ HRe)); lra.
      * cbn. split; [exact HRe | reflexivity].
    + destruct friction_design as (Re & fh & fs & HR & _ & Hh & _ & Hs & Hc).
      eexists. split.
      * exact (calcular_tramo_ok (hybr_fijo 1) 0.025 0.1541 211.13 100 998
                 0.001 0.000046 1.62 0 false Re fh fh fs HR Hc Hh Hs).
      * cbn. repeat split; try reflexivity. lra.
Qed.

(** ** The system solver *)

Lemma calcular_definicion_ok (hybr : solver) (Q D rho mu epsilon : R)
    (Re fc fh fs : R) (defn : definicion) :
  reynolds_tramo Q D rho mu = Ok Re ->
  f_colebrook hybr Re epsilon D = Ok fc ->
  f_haaland Re epsilon D = Ok fh ->
  f_swamee_jain Re epsilon D = Ok fs ->
  exists rs,
    calcular_definicion hybr Q D rho mu epsilon defn = Ok rs /\
    calcular_tramo hybr Q D (d_longitud_tuberia defn) (d_z defn) rho mu
      epsilon (d_K_total defn) (d_num_estaciones defn) (d_es_bajada defn) =
    Ok (rs_tramo rs) /\
    rs_altura rs = d_altura defn /\
    rs_distancia rs = d_distancia defn.
Proof.
  intros HR Hc Hh Hs. unfold calcular_definicion.
  rewrite (calcular_tramo_ok hybr Q D _ _ rho mu epsilon _ _ _
             Re fc fh fs HR Hc Hh Hs).
  cbn [bind]. eexists. repeat split.
Qed.

Lemma calcular_items_flujo (hybr : solver) (Q D rho mu epsilon : R)
    (Re fc fh fs : R) (items : list (Z * definicion)) :
  reynolds_tramo Q D rho mu = Ok Re ->
  f_colebrook hybr Re epsilon D = Ok fc ->
  f_haaland Re epsilon D = Ok fh ->
  f_swamee_jain Re epsilon D = Ok fs ->
  exists resultados,
    calcular_items hybr Q D rho mu epsilon items = Ok resultados /\
    map fst resultados = map fst items /\
    Forall (fun kr => mismo_flujo (area_seccion D) (Q / area_seccion D)
                        (carga_cinetica (Q / area_seccion D)) Re
                        (rs_tramo (snd kr)))
      resultados.
Proof.
  intros HR Hc Hh Hs.
  induction items as [| [num defn] rest IH].
  - exists []. repeat split. constructor.
  - destruct IH as (rs & Hrs & Hk & Hall).
    cbn [calcular_items]. unfold calcular_definicion.
    rewrite (calcular_tramo_ok hybr Q D _ _ rho mu epsilon _ _ _
               Re fc fh fs HR Hc Hh Hs).
    cbn [bind]. rewrite Hrs. cbn [bind].
    eexists. split; [reflexivity |]. split.
    + cbn. now rewrite Hk.
    + constructor; [| exact Hall]. cbn. repeat split.
Qed.

Lemma calcular_tramo_inv_flujo (hybr : solver)
    (Q D L z rho mu epsilon K_total : R) (n : Z) (es_bajada : bool)
    (r : resultado) :
  calcular_tramo hybr Q D L z rho mu epsilon K_total n es_bajada = Ok r ->
  reynolds_tramo Q D rho mu = Ok (r_reynolds r) /\
  mismo_flujo (area_seccion D) (Q / area_seccion D)
    (carga_cinetica (Q / area_seccion D)) (r_reynolds r) r.
Proof.
  unfold calcular_tramo, reynolds_tramo. intros H.
  destruct (velocidad Q (area_seccion D)) as [v | |] eqn:Ev;
    cbn [bind] in H |- *; try discriminate H.
  pose proof Ev as Ev'. unfold velocidad in Ev'.
  apply pydiv_inv in Ev' as [_ ->].
  destruct (reynolds rho _ D mu) as [Re | |] eqn:ER;
    cbn [bind] in H; try discriminate H.
  destruct (f_colebrook hybr Re epsilon D); cbn [bind] in H; try discriminate H.
  destruct (f_haaland Re epsilon D); cbn [bind] in H; try discriminate H.
  destruct (f_swamee_jain Re epsilon D); cbn [bind] in H; try discriminate H.
  destruct (perdidas_darcy _ _ D _); cbn [bind] in H; try discriminate H.
  destruct (perdidas_darcy _ _ D _); cbn [bind] in H; try discriminate H.
  destruct es_bajada; injection H as <-; cbn; repeat split; reflexivity.
Qed.

Lemma calcular_items_inv_flujo (hybr : solver) (Q D rho mu epsilon : R)
    (items : list (Z * definicion)) :
  forall resultados,
  calcular_items hybr Q D rho mu epsilon items = Ok resultados ->
  map fst resultados = map fst items /\
  Forall (fun kr => reynolds_tramo Q D rho mu = Ok (r_reynolds (rs_tramo (snd kr))) /\
                    mismo_flujo (area_seccion D) (Q / area_seccion D)
                      (carga_cinetica (Q / area_seccion D))
                      (r_reynolds (rs_tramo (snd kr))) (rs_tramo (snd kr)))
    resultados.
Proof.
  induction items as [| [num defn] rest IH]; intros resultados H.
  - injection H as <-. split; [reflexivity | constructor].
  - cbn [calcular_items] in H. unfold calcular_definicion in H.
    destruct (calcular_tramo hybr Q D _ _ rho mu epsilon _ _ _) as [r | |] eqn:Er;
      cbn [bind] in H; try discriminate H.
    destruct (calcular_items hybr Q D rho mu epsilon rest) as [rs | |];
      cbn [bind] in H; try discriminate H.
    injection H as <-.
    destruct (IH rs eq_refl) as [Hk Hall].
    split; [cbn; now rewrite Hk |].
    constructor; [| exact Hall].
    cbn. now apply calcular_tramo_inv_flujo in Er.
Qed.

(** C8.  Whatever [calcular_sistema_completo] returns for (Q, D, rho, mu,
    epsilon) is a list of results keyed 1 to 8 that all carry one and the
    same area, velocity Q/A, kinetic head and Reynolds number: none of
    them depends on a registry field.  And the call does return as soon
    as the Reynolds number and the three friction factors are real
    numbers. *)
Theorem flow_continuity (hybr : solver) (Q D rho mu epsilon : R) :
  (forall resultados,
   calcular_sistema_completo hybr Q D rho mu epsilon = Ok resultados ->
   map fst resultados = [1; 2; 3; 4; 5; 6; 7; 8]%Z /\
   exists Re,
     reynolds_tramo Q D rho mu = Ok Re /\
     Forall (fun kr => mismo_flujo (area_seccion D) (Q / area_seccion D)
                         (carga_cinetica (Q / area_seccion D)) Re
                         (rs_tramo (snd kr)))
       resultados) /\
  (forall Re fc fh fs,
   reynolds_tramo Q D rho mu = Ok Re ->
   f_colebrook hybr Re epsilon D = Ok fc ->
   f_haaland Re epsilon D = Ok fh ->
   f_swamee_jain Re epsilon D = Ok fs ->
   exists resultados,
     calcular_sistema_completo hybr Q D rho mu epsilon = Ok resultados /\
     length resultados = 8%nat).
Proof.
  split.
  - intros resultados H. unfold calcular_sistema_completo in H.
    apply calcular_items_inv_flujo in H as [Hk Hall].
    split; [exact Hk |].
    destruct resultados as [| [k r] rest]; [discriminate Hk |].
    pose proof (Forall_inv Hall) as [HR _]. cbn in HR.
    exists (r_reynolds (rs_tramo r)). split; [exact HR |].
    eapply Forall_impl; [| exact Hall].
    intros [k' r'] [HR' Hf]. cbn in *.
    rewrite HR in HR'. injection HR' as ->. exact Hf.
  - intros Re fc fh fs HR Hc Hh Hs.
    destruct (calcular_items_flujo hybr Q D rho mu epsilon Re fc fh fs
                obtener_definicion_tramos HR Hc Hh Hs) as (rs & Hrs & Hk & _).
    exists rs. split; [exact Hrs |].
    rewrite <- (length_map fst), Hk. reflexivity.
Qed.

(** The system at the design point. *)
Lemma flow_continuity_witness :
  exists resultados Re,
    calcular_sistema_completo (hybr_fijo 1) 0.025 0.1541 998 0.001 0.000046 =
    Ok resultados /\
    map fst resultados = [1; 2; 3; 4; 5; 6; 7; 8]%Z /\
    Forall (fun kr => mismo_flujo (area_seccion 0.1541)
                        (0.025 / area_seccion 0.1541)
                        (carga_cinetica (0.025 / area_seccion 0.1541)) Re
                        (rs_tramo (snd kr)))
      resultados.
Proof.
  destruct friction_design as (Re & fh & fs & HR & _ & Hh & _ & Hs & Hc).
  destruct (flow_continuity (hybr_fijo 1) 0.025 0.1541 998 0.001 0.000046)
    as [Hinv Hex].
  destruct (Hex Re fh fh fs HR Hc Hh Hs) as (rs & Hrs & _).
  destruct (Hinv rs Hrs) as (Hk & Re' & _ & Hall).
  exists rs, Re'. repeat split; assumption.
Defined.

(** ** The energy walk *)

Lemma sub_paso_frame (hv x_inicio dist_sub z_est hf_est hm_est : R)
    (st : estado) (j : nat) :
  let st' := sub_paso hv x_inicio dist_sub z_est hf_est hm_est st j in
  dist_acum st' = dist_acum st /\ elev_acum st' = elev_acum st /\
  bombas st' = bombas st /\ valvulas st' = valvulas st.
Proof. cbn. repeat split. Qed.

Lemma last_cons_default (l : list R) :
  forall a d d', last (a :: l) d = last (a :: l) d'.
Proof.
  induction l as [| b l IH]; intros a d d'; [reflexivity |].
  change (last (b :: l) d = last (b :: l) d'). apply IH.
Qed.

(** The points a walk over the sub-steps [js] appends, seen from its
    starting state: one per sub-step, each with HGL and pressure derived
    from its EGL, and EGL values that never rise when the losses are
    non-negative. *)
Lemma recorrido_fold (hv x_inicio dist_sub z_est hf_est hm_est : R)
    (js : list nat) :
  forall st,
  let st' := fold_left (sub_paso hv x_inicio dist_sub z_est hf_est hm_est) js st in
  dist_acum st' = dist_acum st /\ elev_acum st' = elev_acum st /\
  bombas st' = bombas st /\ valvulas st' = valvulas st /\
  exists nuevos,
    puntos st' = puntos st ++ nuevos /\
    length nuevos = length js /\
    Forall (fun p => p_hgl p = p_egl p - hv /\
                     p_presion p = p_egl p - hv - p_elev p) nuevos /\
    energia_actual st' = last (map p_egl nuevos) (energia_actual st) /\
    (0 <= hf_est -> 0 <= hm_est ->
     StronglySorted Rge (energia_actual st :: map p_egl nuevos)).
Proof.
  induction js as [| j js IH]; intros st; cbn [fold_left].
  - cbv zeta. repeat (split; [reflexivity |]).
    exists []. rewrite app_nil_r. repeat (split; [reflexivity || constructor |]).
    intros _ _. repeat constructor.
  - specialize (IH (sub_paso hv x_inicio dist_sub z_est hf_est hm_est st j)).
    cbv zeta in IH |- *.
    destruct IH as (Hd & He & Hb & Hv & nuevos & Hp & Hl & Hall & Hlast & Hs).
    repeat (split; [assumption |]).
    eexists (_ :: nuevos). split; [| split; [| split; [| split]]].
    + rewrite Hp. cbn [sub_paso puntos]. rewrite <- app_assoc. reflexivity.
    + cbn. now rewrite Hl.
    + constructor; [| exact Hall]. cbn. split; reflexivity.
    + rewrite Hlast. cbn [map p_egl sub_paso energia_actual].
      destruct (map p_egl nuevos) as [| e l]; [reflexivity |].
      change (last (?a :: e :: l) ?d) with (last (e :: l) d).
      apply last_cons_default.
    + intros Hf Hm. specialize (Hs Hf Hm).
      cbn [sub_paso energia_actual] in Hs. cbn [map p_egl].
      set (e1 := energia_actual st
                 - (hf_est / INR n_puntos_sub
                    + (if Nat.eqb j 1 then hm_est else 0))) in *.
      assert (H1 : energia_actual st >= e1).
      { subst e1. assert (0 <= hf_est / INR n_puntos_sub).
        { apply Rmult_le_pos; [exact Hf |]. left. apply Rinv_0_lt_compat.
          simpl. lra. }
        destruct (Nat.eqb j 1); lra. }
      constructor; [exact Hs |].
      constructor; [exact H1 |].
      apply StronglySorted_inv in Hs as [_ Hs].
      eapply Forall_impl; [| exact Hs]. cbn. intros a Ha. lra.
Qed.

Lemma recorrido_energia (hv x_inicio dist_sub z_est hf_est hm_est : R)
    (st : estado) :
  energia_actual (recorrido hv x_inicio dist_sub z_est hf_est hm_est st) =
  energia_actual st - hf_est - hm_est.
Proof.
  unfold recorrido. cbn. field.
Qed.

Lemma salto_bomba_frame (r : resultado) (x : R) (st : estado) :
  let st' := salto_bomba r x st in
  dist_acum st' = dist_acum st /\ elev_acum st' = elev_acum st /\
  puntos st' = puntos st /\ valvulas st' = valvulas st.
Proof.
  unfold salto_bomba. destruct (r_es_bajada r); cbn; repeat split.
Qed.

Lemma control_bajada_frame (defn : definicion) (r : resultado) (hv : R)
    (st : estado) :
  let st' := control_bajada defn r hv st in
  dist_acum st' = dist_acum st /\ elev_acum st' = elev_acum st /\
  exists resto, puntos st' = puntos st ++ resto /\ (length resto <= 1)%nat.
Proof.
  unfold control_bajada.
  destruct (r_es_bajada r); [destruct (tiene_tanque defn) |]; cbn.
  - repeat (split; [reflexivity |]).
    destruct (Rlt_dec 0.01 _).
    + eexists [_]. split; [reflexivity | cbn; lia].
    + exists []. rewrite app_nil_r. split; [reflexivity | cbn; lia].
  - repeat (split; [reflexivity |]).
    exists []. rewrite app_nil_r. split; [reflexivity | cbn; lia].
  - repeat (split; [reflexivity |]).
    exists []. rewrite app_nil_r. split; [reflexivity | cbn; lia].
Qed.

(** Where a station leaves the walk: one station further in distance and
    elevation. *)
Lemma estacion_avanza (defn : definicion) (r : resultado)
    (hv dist_tramo z_est : R) (st : estado) :
  let st' := estacion defn r hv dist_tramo z_est st in
  dist_acum st' = dist_acum st + dist_tramo / IZR (r_num_estaciones r) /\
  elev_acum st' = elev_acum st + z_est.
Proof.
  unfold estacion. cbv zeta.
  match goal with
  | |- context [control_bajada defn r hv ?s] =>
      destruct (control_bajada_frame defn r hv s) as (Hd & He & _)
  end.
  cbv zeta in Hd, He. rewrite Hd, He. cbn [dist_acum elev_acum].
  match goal with
  | |- context [recorrido ?a ?b ?c ?d ?e ?f ?s] =>
      destruct (recorrido_fold a b c d e f (seq 1 n_puntos_sub) s)
        as (Hd' & He' & _)
  end.
  cbv zeta in Hd', He'. unfold recorrido. rewrite Hd', He'.
  destruct (salto_bomba_frame r (dist_acum st) st) as (-> & -> & _).
  split; reflexivity.
Qed.

(** C9.  Within one station, the five points of the sub-step walk follow
    the points already emitted (a tank point may follow them), and the
    list made of the energy right after the pump jump and the EGL of the
    five points never rises, as soon as the station's frictional loss and
    minor loss are non-negative; the walk ends hf + hm below its start. *)
Theorem monotonic_dissipation (defn : definicion) (r : resultado)
    (hv dist_tramo z_est : R) (st : estado) :
  0 <= r_perdidas_friccion_colebrook r ->
  0 <= r_perdidas_menores r ->
  exists nuevos resto,
    puntos (estacion defn r hv dist_tramo z_est st) =
      puntos st ++ nuevos ++ resto /\
    length nuevos = 5%nat /\ (length resto <= 1)%nat /\
    StronglySorted Rge
      (energia_actual (salto_bomba r (dist_acum st) st) :: map p_egl nuevos) /\
    last (map p_egl nuevos) 0 =
      energia_actual (salto_bomba r (dist_acum st) st)
      - r_perdidas_friccion_colebrook r - r_perdidas_menores r.
Proof.
  intros Hf Hm. unfold estacion. cbv zeta.
  set (st1 := salto_bomba r (dist_acum st) st).
  set (dist_sub := dist_tramo / IZR (r_num_estaciones r)).
  set (hf := r_perdidas_friccion_colebrook r) in *.
  set (hm := r_perdidas_menores r) in *.
  set (st2 := recorrido hv (dist_acum st) dist_sub z_est hf hm st1).
  destruct (recorrido_fold hv (dist_acum st) dist_sub z_est hf hm
              (seq 1 n_puntos_sub) st1)
    as (_ & _ & _ & _ & nuevos & Hp & Hl & _ & Hlast & Hs).
  cbv zeta in Hp, Hlast. fold (recorrido hv (dist_acum st) dist_sub z_est hf hm st1) in Hp, Hlast.
  fold st2 in Hp, Hlast.
  match goal with
  | |- context [control_bajada defn r hv ?s] =>
      destruct (control_bajada_frame defn r hv s) as (_ & _ & resto & Hr & Hlr)
  end.
  exists nuevos, resto. cbn [puntos] in Hr. rewrite Hr, Hp.
  destruct (salto_bomba_frame r (dist_acum st) st) as (_ & _ & Hp1 & _).
  fold st1 in Hp1. rewrite Hp1, <- app_assoc.
  split; [reflexivity |]. split; [exact Hl |]. split; [exact Hlr |].
  split; [now apply Hs |].
  destruct nuevos as [| p nuevos]; [discriminate Hl |].
  cbn [map]. rewrite (last_cons_default _ _ 0 (energia_actual st1)).
  change (last (map p_egl (p :: nuevos)) (energia_actual st1) =
          energia_actual st1 - hf - hm).
  rewrite <- Hlast. apply recorrido_energia.
Qed.

(** *** Rounding at the tank *)

Lemma Rabs_entre (x y : R) : Rabs x <= y -> - y <= x <= y.
Proof.
  unfold Rabs. destruct (Rcase_abs x); lra.
Qed.

Lemma Rabs_cotas (x : R) : - Rabs x <= x <= Rabs x.
Proof.
  apply Rabs_entre. apply Rle_refl.
Qed.

(** One rounding of a value of size at most c M + k eta moves it by at
    most c (u M) + k (u eta) + eta. *)
Lemma redondeo_cerca (rnd : R -> R) (u eta Omega x c k M : R) :
  modelo_estandar rnd u eta Omega ->
  - (c * M + k * eta) <= x <= c * M + k * eta ->
  c * M + k * eta <= Omega ->
  x - (c * (u * M) + k * (u * eta) + eta) <= rnd x
  <= x + (c * (u * M) + k * (u * eta) + eta).
Proof.
  intros (Hu & He & Hr) Hx HO.
  assert (Ha : Rabs x <= c * M + k * eta) by (apply Rabs_le; lra).
  specialize (Hr x ltac:(lra)).
  assert (Hb : u * Rabs x <= u * (c * M + k * eta))
    by (apply Rmult_le_compat_l; assumption).
  assert (Hc : Rabs (rnd x - x) <= c * (u * M) + k * (u * eta) + eta) by lra.
  apply Rabs_entre in Hc. lra.
Qed.

(** The facts a chain of roundings is bounded with: w stands for u M and
    v for u eta. *)
Lemma redondeo_unidades (u eta M : R) :
  0 <= u -> u <= 1 / 100 -> 0 <= eta -> 0 <= M ->
  0 <= u * M <= M / 100 /\ 0 <= u * eta <= eta / 100.
Proof.
  intros Hu0 Hu He HM. split; split.
  - apply Rmult_le_pos; assumption.
  - replace (M / 100) with (1 / 100 * M) by field.
    apply Rmult_le_compat_r; assumption.
  - apply Rmult_le_pos; assumption.
  - replace (eta / 100) with (1 / 100 * eta) by field.
    apply Rmult_le_compat_r; assumption.
Qed.

(** The arithmetic of the tank event: the energy is reset through
    [energia - (energia - (elev + hv))] and the gauge pressure read back
    as [(energia - hv) - elev], five roundings in all. *)
Lemma tanque_redondeado (rnd : R -> R) (u eta Omega E elev hv : R) :
  modelo_estandar rnd u eta Omega -> u <= 1 / 100 ->
  2 * (Rabs E + Rabs elev + Rabs hv) + 6 * eta <= Omega ->
  let egl_meta := rnd (elev + hv) in
  let perdida := rnd (E - egl_meta) in
  let energia := rnd (E - perdida) in
  Rabs (rnd (rnd (energia - hv) - elev))
  <= 5 * u * (Rabs E + Rabs elev + Rabs hv) + 6 * eta.
Proof.
  intros Hm Hu HO. cbv zeta.
  pose proof (proj1 Hm) as Hu0. pose proof (proj1 (proj2 Hm)) as He0.
  pose proof (Rabs_cotas E) as HE. pose proof (Rabs_cotas elev) as He.
  pose proof (Rabs_cotas hv) as Hh.
  remember (Rabs E + Rabs elev + Rabs hv) as M eqn:EM.
  assert (HM : 0 <= M) by lra.
  replace (5 * u * M) with (5 * (u * M)) by ring.
  destruct (redondeo_unidades u eta M Hu0 Hu He0 HM) as (Hw & Hv).
  pose proof (fun x c k => redondeo_cerca rnd u eta Omega x c k M Hm) as Hr.
  remember (u * M) as w eqn:Ew. clear Ew.
  remember (u * eta) as v eqn:Ev. clear Ev.
  pose proof (Hr (elev + hv) 1 0 ltac:(lra) ltac:(lra)) as H1.
  remember (rnd (elev + hv)) as t eqn:Et. clear Et.
  pose proof (Hr (E - t) 1.01 1 ltac:(lra) ltac:(lra)) as H2.
  remember (rnd (E - t)) as d eqn:Ed. clear Ed.
  pose proof (Hr (E - d) 1.03 3 ltac:(lra) ltac:(lra)) as H3.
  remember (rnd (E - d)) as E' eqn:EE. clear EE.
  pose proof (Hr (E' - hv) 1.04 4 ltac:(lra) ltac:(lra)) as H4.
  remember (rnd (E' - hv)) as hg eqn:Eg. clear Eg.
  pose proof (Hr (hg - elev) 0.05 5 ltac:(lra) ltac:(lra)) as H5.
  remember (rnd (hg - elev)) as P eqn:EP. clear EP.
  apply Rabs_le. lra.
Qed.

(** The tank event over rounded reals, on any state of the walk. *)
Lemma control_bajada_fl_tanque (rnd : R -> R)
    (defn : definicion_fl R) (r : resultado_fl R) (hv : R)
    (st : estado_fl R) :
  rf_es_bajada r = true -> tiene_tanque_fl defn = true ->
  let st' := control_bajada_fl (FF := redondeado rnd) defn r hv st in
  let E := ef_energia_actual st in
  let energia := rnd (E - rnd (E - rnd (ef_elev_acum st + hv))) in
  ef_dist_acum st' = ef_dist_acum st /\
  ef_elev_acum st' = ef_elev_acum st /\
  ef_energia_actual st' = energia /\
  ef_bombas st' = ef_bombas st /\
  ef_valvulas st' =
    ef_valvulas st ++ [mk_valvula_fl (ef_dist_acum st) E] /\
  ef_puntos st' =
    if Rlt_dec (rnd (1 / 100)) (Rabs (rnd (E - rnd (ef_elev_acum st + hv))))
    then ef_puntos st ++
         [mk_punto_fl (ef_dist_acum st) (ef_elev_acum st) energia
            (rnd (energia - hv))
            (rnd (rnd (energia - hv) - ef_elev_acum st))]
    else ef_puntos st.
Proof.
  intros Hb Ht. unfold control_bajada_fl. rewrite Hb, Ht. cbn.
  repeat (split; [reflexivity |]).
  destruct (Rlt_dec _ _); reflexivity.
Qed.

(** C7, as the code has it.  The tank event computes in floats: it resets
    the energy through [energia - (energia - (elev + hv))], and the gauge
    pressure is read back as [(energia - hv) - elev].  Under the standard
    model of rounding (per operation a relative error of at most
    u <= 1/100 and an absolute error of at most eta, for results up to
    Omega), in a descending segment with a pressure-break tank, with
    M = |energy found| + |elevation| + |kinetic head| and
    2 M + 6 eta <= Omega:
    - the event keeps the distance and the elevation, records a marker at
      the energy it found, and, when the drop exceeds 0.01, appends one
      profile point, whose HGL and gauge pressure are the ones derived
      from the new energy;
    - the gauge pressure derived right after the event is at most
      5 u M + 6 eta in absolute value: zero in exact arithmetic
      (u = eta = 0), and below 1e-11 in binary64 (u = 2^-53,
      eta = 2^-1075) as long as M is at most 10000;
    - the same bound holds after a whole station, for the energy its tank
      found (the one its marker records). *)
Theorem tank_resets_gauge_pressure (rnd : R -> R) (u eta Omega : R)
    (defn : definicion_fl R) (r : resultado_fl R)
    (hv dist_tramo z_est : R) (st : estado_fl R) :
  modelo_estandar rnd u eta Omega -> u <= 1 / 100 ->
  rf_es_bajada r = true -> tiene_tanque_fl defn = true ->
  (let st' := control_bajada_fl (FF := redondeado rnd) defn r hv st in
   let M := Rabs (ef_energia_actual st) + Rabs (ef_elev_acum st) + Rabs hv in
   let P := presion_fl (FF := redondeado rnd)
              (ef_energia_actual st') hv (ef_elev_acum st') in
   ef_dist_acum st' = ef_dist_acum st /\
   ef_elev_acum st' = ef_elev_acum st /\
   ef_valvulas st' =
     ef_valvulas st ++
     [mk_valvula_fl (ef_dist_acum st) (ef_energia_actual st)] /\
   ef_puntos st' =
     (if Rlt_dec (rnd (1 / 100))
           (Rabs (rnd (ef_energia_actual st - rnd (ef_elev_acum st + hv))))
      then ef_puntos st ++
           [mk_punto_fl (ef_dist_acum st) (ef_elev_acum st)
              (ef_energia_actual st') (rnd (ef_energia_actual st' - hv)) P]
      else ef_puntos st) /\
   (2 * M + 6 * eta <= Omega -> Rabs P <= 5 * u * M + 6 * eta) /\
   (2 * M + 6 * eta <= Omega -> u <= / 9007199254740992 ->
    eta <= / 10000000000000 -> M <= 10000 -> Rabs P <= / 100000000000)) /\
  (let st' := estacion_fl (FF := redondeado rnd) defn r hv dist_tramo z_est
                st in
   exists E vs,
     ef_valvulas st' = vs ++ [mk_valvula_fl (ef_dist_acum st') E] /\
     (2 * (Rabs E + Rabs (ef_elev_acum st') + Rabs hv) + 6 * eta <= Omega ->
      Rabs (presion_fl (FF := redondeado rnd)
              (ef_energia_actual st') hv (ef_elev_acum st'))
      <= 5 * u * (Rabs E + Rabs (ef_elev_acum st') + Rabs hv) + 6 * eta)).
Proof.
  intros Hm Hu Hb Ht.
  assert (Hev : forall s,
             let s' := control_bajada_fl (FF := redondeado rnd) defn r hv s in
             let M := Rabs (ef_energia_actual s) + Rabs (ef_elev_acum s)
                      + Rabs hv in
             2 * M + 6 * eta <= Omega ->
             Rabs (presion_fl (FF := redondeado rnd)
                     (ef_energia_actual s') hv (ef_elev_acum s'))
             <= 5 * u * M + 6 * eta).
  { intros s.
    destruct (control_bajada_fl_tanque rnd defn r hv s Hb Ht)
      as (_ & He & Hen & _).
    cbv zeta in *. intros HO. rewrite He, Hen.
    exact (tanque_redondeado rnd u eta Omega (ef_energia_actual s)
             (ef_elev_acum s) hv Hm Hu HO). }
  split.
  - destruct (control_bajada_fl_tanque rnd defn r hv st Hb Ht)
      as (Hd & He & Hen & _ & Hv & Hp).
    pose proof (Hev st) as HP. cbv zeta in *.
    split; [exact Hd |]. split; [exact He |]. split; [exact Hv |].
    split; [| split; [exact HP |]].
    + rewrite Hp. unfold presion_fl. cbn [fl_sub redondeado].
      rewrite He, Hen. reflexivity.
    + intros HO Hu' He' HM.
      eapply Rle_trans; [exact (HP HO) |].
      assert (H0 : 0 <= Rabs (ef_energia_actual st) + Rabs (ef_elev_acum st)
                       + Rabs hv).
      { pose proof (Rabs_pos (ef_energia_actual st)).
        pose proof (Rabs_pos (ef_elev_acum st)).
        pose proof (Rabs_pos hv). lra. }
      assert (Hp' : u * (Rabs (ef_energia_actual st) + Rabs (ef_elev_acum st)
                         + Rabs hv)
                    <= / 9007199254740992 * 10000).
      { apply Rmult_le_compat; [exact (proj1 Hm) | exact H0 | exact Hu'
                               | exact HM]. }
      lra.
  - cbv zeta. unfold estacion_fl. cbv zeta.
    match goal with
    | |- context [control_bajada_fl defn r hv ?s3] => generalize s3
    end.
    intros s. pose proof (Hev s) as HP.
    destruct (control_bajada_fl_tanque rnd defn r hv s Hb Ht)
      as (Hd & He & _ & _ & Hv & _).
    cbv zeta in *.
    exists (ef_energia_actual s), (ef_valvulas s).
    split; [rewrite Hv, Hd; reflexivity |].
    rewrite He in HP |- *. exact HP.
Qed.

(** A registry segment solved at the design point. *)
Lemma resultado_design (defn : definicion) :
  0 <= d_longitud_tuberia defn -> 0 <= d_K_total defn ->
  exists r,
    calcular_tramo (hybr_fijo 1) 0.025 0.1541 (d_longitud_tuberia defn)
      (d_z defn) 998 0.001 0.000046 (d_K_total defn) (d_num_estaciones defn)
      (d_es_bajada defn) = Ok r /\
    r_es_bajada r = d_es_bajada defn /\
    r_num_estaciones r = d_num_estaciones defn /\
    0 <= r_perdidas_friccion_colebrook r /\
    0 <= r_perdidas_menores r.
Proof.
  intros HL HK.
  destruct friction_design as (Re & fh & fs & HR & _ & Hh & Hpos & Hs & Hc).
  eexists. split.
  - exact (calcular_tramo_ok (hybr_fijo 1) 0.025 0.1541 _ _ 998 0.001 0.000046
             _ _ _ Re fh fh fs HR Hc Hh Hs).
  - cbn [r_es_bajada r_num_estaciones r_perdidas_friccion_colebrook
         r_perdidas_menores].
    split; [reflexivity |]. split; [reflexivity |].
    set (v := 0.025 / area_seccion 0.1541).
    assert (Hv : 0 <= v ^ 2 / (2 * g)).
    { unfold g. apply Rmult_le_pos; [simpl; nra |].
      left. apply Rinv_0_lt_compat. lra. }
    assert (HLe : 0 <= (if (0 <? d_num_estaciones defn)%Z
                        then d_longitud_tuberia defn / IZR (d_num_estaciones defn)
                        else d_longitud_tuberia defn) / 0.1541).
    { apply Rmult_le_pos; [| lra].
      destruct (Z.ltb_spec 0 (d_num_estaciones defn)) as [Hn | Hn]; [| exact HL].
      apply Rmult_le_pos; [exact HL |]. left. apply Rinv_0_lt_compat.
      apply IZR_lt. lia. }
    split.
    + unfold Rdiv at 1. rewrite Rmult_assoc.
      apply Rmult_le_pos; [| exact Hv].
      apply Rmult_le_pos; [lra | exact HLe].
    + unfold Rdiv. rewrite Rmult_assoc.
      apply Rmult_le_pos; [exact HK | exact Hv].
Qed.

(** Segment 5 at the design point, walked from the river. *)
Lemma monotonic_dissipation_witness :
  exists r nuevos resto,
    calcular_tramo (hybr_fijo 1) 0.025 0.1541 (d_longitud_tuberia tramo5)
      (d_z tramo5) 998 0.001 0.000046 (d_K_total tramo5)
      (d_num_estaciones tramo5) (d_es_bajada tramo5) = Ok r /\
    puntos (estacion tramo5 r (r_carga_cinetica r) (d_distancia tramo5)
              (d_altura tramo5) estado_inicial) =
      puntos estado_inicial ++ nuevos ++ resto /\
    length nuevos = 5%nat /\ (length resto <= 1)%nat /\
    StronglySorted Rge
      (energia_actual (salto_bomba r (dist_acum estado_inicial) estado_inicial)
       :: map p_egl nuevos) /\
    last (map p_egl nuevos) 0 =
      energia_actual (salto_bomba r (dist_acum estado_inicial) estado_inicial)
      - r_perdidas_friccion_colebrook r - r_perdidas_menores r.
Proof.
  destruct (resultado_design tramo5) as (r & Hr & _ & _ & Hf & Hm);
    [cbn; lra | cbn; lra |].
  destruct (monotonic_dissipation tramo5 r (r_carga_cinetica r)
              (d_distancia tramo5) (d_altura tramo5) estado_inicial Hf Hm)
    as (nuevos & resto & H).
  exists r, nuevos, resto. split; [exact Hr | exact H].
Defined.

Lemma rnd_exceso_modelo (Omega : R) :
  modelo_estandar rnd_exceso (/ 9007199254740992) 0 Omega.
Proof.
  split; [lra |]. split; [lra |]. intros x _. unfold rnd_exceso.
  replace (x * (1 + / 9007199254740992) - x) with (/ 9007199254740992 * x)
    by ring.
  rewrite Rabs_mult. rewrite (Rabs_right (/ 9007199254740992)) by lra.
  lra.
Qed.

(** The tank of segment 7 on a state near the one the design point
    reaches (968.32 m from the river, elevation 0, energy 98.7), with a
    rounding that errs by the whole unit 2^-53 on every operation and
    knows neither underflow nor overflow. *)
Lemma tank_resets_gauge_pressure_witness :
  Rabs (presion_fl (FF := redondeado rnd_exceso)
          (ef_energia_actual
             (control_bajada_fl (FF := redondeado rnd_exceso)
                (tramo7_fl (FF := redondeado rnd_exceso))
                (mk_resultado_fl 0.01865 1.34 0.0916 206147 0.0175 112.4
                   1.17 0.217 0 1.387 1.387 0 0 1 true)
                0.0916 (mk_estado_fl 968.32 0 98.7 [] [] [])))
          0.0916 0)
  <= / 100000000000.
Proof.
  destruct (tank_resets_gauge_pressure rnd_exceso (/ 9007199254740992) 0
              1000000
              (tramo7_fl (FF := redondeado rnd_exceso))
              (mk_resultado_fl 0.01865 1.34 0.0916 206147 0.0175 112.4
                 1.17 0.217 0 1.387 1.387 0 0 1 true)
              0.0916 57.6 (-100) (mk_estado_fl 968.32 0 98.7 [] [] [])
              (rnd_exceso_modelo 1000000) ltac:(lra) eq_refl eq_refl)
    as ((_ & _ & _ & _ & _ & H) & _).
  cbn [ef_energia_actual ef_elev_acum] in H.
  rewrite Rabs_R0, !Rabs_right in H by lra.
  apply H; lra.
Defined.

(** C7 fails as stated: in binary64 the gauge pressure after a tank is
    not exactly zero.  At the design point (Q = 0.025, D = 0.1541,
    rho = 998, mu = 0.001) with a friction factor of 0.0175, the 49th
    point of the profile is the one the tank of segment 7 appends, 968.32 m
    from the river at elevation 0, and its gauge pressure is
    0x1.cep-49 = 3.2057689836051395e-15.  The same pressure is derived
    once segments 1 to 7 are walked for friction factors from 0.015 to
    0.03, and at Q = -0.025 for every friction factor, the guard
    [Re <= 0] of [f_colebrook] returning 0.0 before the solver is
    called. *)
Lemma tank_pressure_not_zero :
  (exists st,
     mapa_binary64 (fl_dec 25 1000) (fl_dec 175 10000) = Ok st /\
     nth_error (ef_puntos st) 48 =
       Some (mk_punto_fl 0x1.e428f5c28f5c4p+9 0 0x1.771a644520000p-4
               0x1.ce00000000000p-49 0x1.ce00000000000p-49)%float) /\
  Forall
    (fun f =>
       presion_tras_tramos (fl_dec 25 1000) f [1; 2; 3; 4; 5; 6; 7]%Z =
       Ok 0x1.ce00000000000p-49%float)
    [fl_dec 15 1000; fl_dec 165 10000; fl_dec 17 1000; fl_dec 175 10000;
     fl_dec 18 1000; fl_dec 2 100; fl_dec 3 100] /\
  (forall f : float,
     presion_tras_tramos (fl_dec (-25) 1000) f [1; 2; 3; 4; 5; 6; 7]%Z =
     Ok 0x1.ce00000000000p-49%float) /\
  PrimFloat.eqb 0x1.ce00000000000p-49 0 = false.
Proof.
  split; [| split; [| split]].
  - eexists. split; [vm_compute; reflexivity |]. vm_compute. reflexivity.
  - repeat constructor; vm_compute; reflexivity.
  - intros f. vm_compute. reflexivity.
  - vm_compute. reflexivity.
Qed.

(** ** Descending segments of the registry *)

Lemma iter_estacion_elev (defn : definicion) (r : resultado)
    (hv dist_tramo z_est : R) (n : nat) (st : estado) :
  elev_acum (Nat.iter n (estacion defn r hv dist_tramo z_est) st) =
  elev_acum st + INR n * z_est.
Proof.
  induction n as [| n IH].
  - cbn. ring.
  - rewrite Nat.iter_succ.
    destruct (estacion_avanza defn r hv dist_tramo z_est
                (Nat.iter n (estacion defn r hv dist_tramo z_est) st))
      as [_ He].
    cbv zeta in He. rewrite He, IH, S_INR. ring.
Qed.



(** * Further properties of the engine *)

(** ** What calcular_tramo returns and when it raises *)

Lemma bind_ok_inv {A B : Type} (c : res A) (k : A -> res B) (b : B) :
  bind c k = Ok b -> exists a, c = Ok a /\ k a = Ok b.
Proof.
  destruct c as [a | e |]; cbn; intros H; try discriminate H.
  now exists a.
Qed.

Lemma bind_raise_inv {A B : Type} (c : res A) (k : A -> res B) (e : pyexn) :
  bind c k = Raise e ->
  c = Raise e \/ exists a, c = Ok a /\ k a = Raise e.
Proof.
  destruct c as [a | e' |]; cbn; intros H; try discriminate H.
  - right. now exists a.
  - left. injection H as ->. reflexivity.
Qed.

Lemma npdiv_no_raise (x y : R) (e : pyexn) : npdiv x y <> Raise e.
Proof. unfold npdiv. destruct (Req_dec_T y 0); discriminate. Qed.

Lemma np_log10_no_raise (x : R) (e : pyexn) : np_log10 x <> Raise e.
Proof. unfold np_log10. destruct (Rlt_dec 0 x); discriminate. Qed.

Lemma float_pow_no_raise (x y : R) (e : pyexn) : float_pow x y <> Raise e.
Proof.
  unfold float_pow. destruct (Rlt_dec 0 x); [discriminate |].
  destruct (Req_dec_T x 0); discriminate.
Qed.

Lemma f_haaland_no_zero_division (Re epsilon D : R) :
  D <> 0 -> f_haaland Re epsilon D <> Raise ZeroDivisionError.
Proof.
  intros HD H. unfold f_haaland in H.
  destruct (Rle_dec Re 0) as [| HRe]; [discriminate H |].
  rewrite (pydiv_ok _ _ HD) in H. cbn [bind] in H.
  apply bind_raise_inv in H as [H | (p & _ & H)];
    [now apply float_pow_no_raise in H |].
  rewrite pydiv_ok in H by lra. cbn [bind] in H.
  apply bind_raise_inv in H as [H | (l & _ & H)];
    [now apply np_log10_no_raise in H |].
  now apply npdiv_no_raise in H.
Qed.

Lemma f_swamee_jain_no_zero_division (Re epsilon D : R) :
  D <> 0 -> f_swamee_jain Re epsilon D <> Raise ZeroDivisionError.
Proof.
  intros HD H. unfold f_swamee_jain in H.
  destruct (Rle_dec Re 0) as [| HRe]; [discriminate H |].
  rewrite pydiv_ok in H by lra. cbn [bind] in H.
  unfold float_pow in H. destruct (Rlt_dec 0 Re) as [_ | N]; [| lra].
  cbn [bind] in H.
  assert (HP : 0 < Rpower Re 0.9) by (unfold Rpower; apply exp_pos).
  rewrite pydiv_ok in H by lra. cbn [bind] in H.
  apply bind_raise_inv in H as [H | (l & _ & H)];
    [now apply np_log10_no_raise in H |].
  now apply npdiv_no_raise in H.
Qed.

Lemma fsolve_no_zero_division (hybr : solver) (func : R -> res R) (x0 : R) :
  fsolve hybr func x0 <> Raise ZeroDivisionError.
Proof.
  unfold fsolve. cbv zeta.
  destruct (_ =? 0)%Z; [discriminate |].
  destruct (_ =? 1)%Z; [discriminate |].
  destruct (_ && _)%bool; discriminate.
Qed.

Lemma f_colebrook_no_zero_division (hybr : solver) (Re epsilon D : R) :
  D <> 0 -> f_colebrook hybr Re epsilon D <> Raise ZeroDivisionError.
Proof.
  intros HD H. unfold f_colebrook in H.
  destruct (Rle_dec Re 0) as [| HRe]; [discriminate H |].
  apply bind_raise_inv in H as [H | (f0 & _ & H)];
    [now apply f_haaland_no_zero_division in H |].
  apply bind_raise_inv in H as [H | (sol & _ & H)];
    [now apply fsolve_no_zero_division in H | discriminate H].
Qed.

(** X1.  [calcular_tramo] raises ZeroDivisionError exactly when the
    diameter or the viscosity is zero: no other input (zero flow, zero
    roughness, a zero or negative station count, a zero length) makes any
    of its Python divisions fail. *)
Theorem calcular_tramo_zero_division_iff (hybr : solver)
    (Q D L z rho mu epsilon K_total : R) (n : Z) (es_bajada : bool) :
  calcular_tramo hybr Q D L z rho mu epsilon K_total n es_bajada =
  Raise ZeroDivisionError
  <-> D = 0 \/ mu = 0.
Proof.
  split.
  - intros H.
    destruct (Req_dec_T D 0) as [| HD]; [now left |].
    destruct (Req_dec_T mu 0) as [| Hmu]; [now right |].
    exfalso. unfold calcular_tramo, velocidad, reynolds, perdidas_darcy in H.
    rewrite (pydiv_ok _ _ (area_seccion_nonzero D HD)) in H. cbn [bind] in H.
    rewrite (pydiv_ok _ _ Hmu) in H. cbn [bind] in H.
    apply bind_raise_inv in H as [H | (fc & _ & H)];
      [now apply f_colebrook_no_zero_division in H |].
    apply bind_raise_inv in H as [H | (fh & _ & H)];
      [now apply f_haaland_no_zero_division in H |].
    apply bind_raise_inv in H as [H | (fs & _ & H)];
      [now apply f_swamee_jain_no_zero_division in H |].
    rewrite !(pydiv_ok _ _ HD) in H. cbn [bind] in H.
    destruct es_bajada; discriminate H.
  - intros [-> | ->].
    + apply calcular_tramo_D_zero.
    + destruct (Req_dec_T D 0) as [-> | HD].
      * apply calcular_tramo_D_zero.
      * now apply calcular_tramo_mu_zero.
Qed.

(** Every dict [calcular_tramo] returns is the closed form of
    [calcular_tramo_ok]. *)
Lemma calcular_tramo_inv (hybr : solver)
    (Q D L z rho mu epsilon K_total : R) (n : Z) (es_bajada : bool)
    (r : resultado) :
  calcular_tramo hybr Q D L z rho mu epsilon K_total n es_bajada = Ok r ->
  exists Re fc fh fs,
    reynolds_tramo Q D rho mu = Ok Re /\
    f_colebrook hybr Re epsilon D = Ok fc /\
    f_haaland Re epsilon D = Ok fh /\
    f_swamee_jain Re epsilon D = Ok fs.
Proof.
  unfold calcular_tramo, reynolds_tramo. intros H.
  apply bind_ok_inv in H as (v & Hv & H). rewrite Hv. cbn [bind].
  apply bind_ok_inv in H as (Re & HRe & H). rewrite HRe.
  apply bind_ok_inv in H as (fc & Hc & H).
  apply bind_ok_inv in H as (fh & Hh & H).
  apply bind_ok_inv in H as (fs & Hs & _).
  now exists Re, fc, fh, fs.
Qed.



(** X3.  A pump segment needs power: when [calcular_tramo] returns for an
    ascending segment (es_bajada false) with rho > 0, Q > 0, D > 0,
    L >= 0, K_total >= 0, n >= 1, a non-zero elevation change and a
    Colebrook factor that is not negative, the per-station head is at
    least |z|/n and the pump power is strictly positive, in kW and HP. *)
Theorem potencia_positiva_en_subida (hybr : solver)
    (Q D L z rho mu epsilon K_total : R) (n : Z) (r : resultado) :
  calcular_tramo hybr Q D L z rho mu epsilon K_total n false = Ok r ->
  0 < rho -> 0 < Q -> 0 < D -> 0 <= L -> 0 <= K_total -> (1 <= n)%Z ->
  z <> 0 -> 0 <= r_f_colebrook r ->
  Rabs z / IZR n <= r_carga_estacion r /\
  0 < r_potencia_kw r /\ 0 < r_potencia_hp r.
Proof.
  intros H Hrho HQ HD HL HK Hn Hz Hf.
  destruct (calcular_tramo_inv _ _ _ _ _ _ _ _ _ _ _ _ H)
    as (Re & fc & fh & fs & HR & Hc & Hh & Hs).
  rewrite (calcular_tramo_ok hybr Q D L z rho mu epsilon K_total n false
             Re fc fh fs HR Hc Hh Hs) in H.
  injection H as <-. cbn in Hf |- *.
  assert (Hb : (0 <? n)%Z = true) by (apply Z.ltb_lt; lia).
  assert (Hn' : 0 < IZR n) by (apply IZR_lt; lia).
  rewrite Hb.
  assert (Hi : 0 < / IZR n) by now apply Rinv_0_lt_compat.
  assert (Habs : Rabs (z / IZR n) = Rabs z / IZR n).
  { unfold Rdiv. rewrite Rabs_mult, (Rabs_right (/ IZR n)); [reflexivity | lra]. }
  rewrite Habs.
  assert (Hza : 0 < Rabs z / IZR n).
  { apply Rmult_lt_0_compat; [now apply Rabs_pos_lt | exact Hi]. }
  set (v := Q / area_seccion D).
  assert (Hkin : 0 <= v * (v * 1) / (2 * g)).
  { unfold g. apply Rmult_le_pos; [nra | left; apply Rinv_0_lt_compat; lra]. }
  assert (Hld : 0 <= L / IZR n / D).
  { apply Rmult_le_pos; [apply Rmult_le_pos; lra |].
    left. now apply Rinv_0_lt_compat. }
  assert (Hhf : 0 <= fc * (L / IZR n / D) * (v * (v * 1)) / (2 * g)).
  { unfold Rdiv at 1. rewrite Rmult_assoc.
    apply Rmult_le_pos; [apply Rmult_le_pos; assumption | exact Hkin]. }
  assert (Hhm : 0 <= K_total * (v * (v * 1)) / (2 * g)).
  { unfold Rdiv. rewrite Rmult_assoc. apply Rmult_le_pos; assumption. }
  split; [lra |].
  set (H := Rabs z / IZR n + fc * (L / IZR n / D) * (v * (v * 1)) / (2 * g)
            + K_total * (v * (v * 1)) / (2 * g)) in *.
  assert (HH : 0 < H) by (subst H; lra).
  assert (HP : 0 < rho * g * Q * H / 1000).
  { unfold g. assert (0 < rho * Q) by now apply Rmult_lt_0_compat.
    assert (0 < rho * Q * H) by now apply Rmult_lt_0_compat. lra. }
  split; [exact HP | lra].
Qed.

(** Segment 1 of the registry at the design point. *)
Lemma potencia_positiva_en_subida_witness :
  exists r,
    calcular_tramo (hybr_fijo 1) 0.025 0.1541 211.13 100 998 0.001 0.000046
      1.62 1 false = Ok r /\
    Rabs 100 / 1 <= r_carga_estacion r /\
    0 < r_potencia_kw r /\ 0 < r_potencia_hp r.
Proof.
  destruct friction_design as (Re & fh & fs & HR & _ & Hh & Hpos & Hs & Hc).
  pose proof (calcular_tramo_ok (hybr_fijo 1) 0.025 0.1541 211.13 100 998
                0.001 0.000046 1.62 1 false Re fh fh fs HR Hc Hh Hs) as Hr.
  cbv zeta in Hr.
  eexists. split; [exact Hr |].
  apply (potencia_positiva_en_subida _ _ _ _ _ _ _ _ _ _ _ Hr);
    try lra; try lia.
  cbn. lra.
Defined.

(** ** The friction correlations as functions *)

Lemma ecuacion_ok (Re epsilon D f : R) :
  0 < f -> 0 < Re -> 0 <= epsilon -> 0 < D ->
  0 < sqrt f /\
  0 < epsilon / D / 3.7 + 2.51 / (Re * sqrt f) /\
  ecuacion Re epsilon D f =
  Ok (1 / sqrt f
      + 2 * (ln (epsilon / D / 3.7 + 2.51 / (Re * sqrt f)) / ln 10)).
Proof.
  intros Hf HRe He HD.
  assert (Hs : 0 < sqrt f) by now apply sqrt_lt_R0.
  assert (Hx : 0 <= epsilon / D / 3.7).
  { unfold Rdiv. assert (0 < / D) by now apply Rinv_0_lt_compat.
    assert (0 <= epsilon * / D) by now apply Rmult_le_pos; [| lra].
    lra. }
  assert (Hp : 0 < Re * sqrt f) by now apply Rmult_lt_0_compat.
  assert (Hc : 0 < 2.51 / (Re * sqrt f)) by (apply Rdiv_lt_0_compat; lra).
  split; [assumption |]. split; [lra |].
  unfold ecuacion. destruct (Rle_dec f 0) as [N | _]; [lra |].
  rewrite np_sqrt_ok by lra. cbn [bind].
  rewrite npdiv_ok by lra. cbn [bind].
  rewrite pydiv_ok by lra. cbn [bind].
  rewrite npdiv_ok by lra. cbn [bind].
  rewrite np_log10_ok by lra. reflexivity.
Qed.

(** X4.  On the feasible side the Colebrook residual is strictly
    decreasing in f (Re > 0, epsilon >= 0, D > 0), and on f <= 0 it is
    the constant 1; so a friction factor with residual exactly 0 is
    positive and there is at most one. *)
Theorem ecuacion_decreciente (Re epsilon D f1 f2 : R) :
  0 < Re -> 0 <= epsilon -> 0 < D ->
  (0 < f1 -> f1 < f2 ->
   exists r1 r2,
     ecuacion Re epsilon D f1 = Ok r1 /\ ecuacion Re epsilon D f2 = Ok r2 /\
     r2 < r1) /\
  (ecuacion Re epsilon D f1 = Ok 0 -> ecuacion Re epsilon D f2 = Ok 0 ->
   0 < f1 /\ f1 = f2).
Proof.
  intros HRe He HD.
  assert (Hdec : forall a b, 0 < a -> a < b ->
            exists r1 r2,
              ecuacion Re epsilon D a = Ok r1 /\
              ecuacion Re epsilon D b = Ok r2 /\ r2 < r1).
  { intros a b Ha Hab.
    destruct (ecuacion_ok Re epsilon D a) as (Hsa & Hla & Ea); try lra.
    destruct (ecuacion_ok Re epsilon D b) as (Hsb & Hlb & Eb); try lra.
    do 2 eexists. split; [exact Ea |]. split; [exact Eb |].
    assert (Hs : sqrt a < sqrt b) by (apply sqrt_lt_1; lra).
    assert (Hi : / sqrt b < / sqrt a) by now apply Rinv_0_lt_contravar.
    assert (Hpa : 0 < Re * sqrt a) by now apply Rmult_lt_0_compat.
    assert (Hp : Re * sqrt a < Re * sqrt b) by now apply Rmult_lt_compat_l.
    assert (Hc : 2.51 / (Re * sqrt b) < 2.51 / (Re * sqrt a)).
    { unfold Rdiv. apply Rmult_lt_compat_l; [lra |].
      now apply Rinv_0_lt_contravar. }
    assert (Hln : ln (epsilon / D / 3.7 + 2.51 / (Re * sqrt b))
                  < ln (epsilon / D / 3.7 + 2.51 / (Re * sqrt a)))
      by (apply ln_increasing; lra).
    assert (H10 := ln_10_pos).
    assert (Hi10 : 0 < / ln 10) by now apply Rinv_0_lt_compat.
    unfold Rdiv.
    assert (ln (epsilon * / D * / 3.7 + 2.51 * / (Re * sqrt b)) * / ln 10
            < ln (epsilon * / D * / 3.7 + 2.51 * / (Re * sqrt a)) * / ln 10)
      by (apply Rmult_lt_compat_r; assumption).
    lra. }
  assert (Hroot : forall f, ecuacion Re epsilon D f = Ok 0 -> 0 < f).
  { intros f Hf. destruct (Rle_dec f 0) as [N | N]; [| lra].
    unfold ecuacion in Hf. destruct (Rle_dec f 0); [| contradiction].
    injection Hf as Hf. lra. }
  split; [apply Hdec |].
  intros H1 H2. pose proof (Hroot _ H1) as P1. pose proof (Hroot _ H2) as P2.
  split; [exact P1 |].
  destruct (Rtotal_order f1 f2) as [Hlt | [Heq | Hgt]]; [| exact Heq |].
  - destruct (Hdec f1 f2 P1 Hlt) as (r1 & r2 & E1 & E2 & Hr).
    rewrite H1 in E1. rewrite H2 in E2.
    injection E1 as <-. injection E2 as <-. lra.
  - destruct (Hdec f2 f1 P2 Hgt) as (r1 & r2 & E1 & E2 & Hr).
    rewrite H2 in E1. rewrite H1 in E2.
    injection E1 as <-. injection E2 as <-. lra.
Qed.

(** The residual at f = 0.02 and f = 0.03 in the design pipe. *)
Lemma ecuacion_decreciente_witness :
  exists r1 r2,
    ecuacion 200000 0.000046 0.1541 0.02 = Ok r1 /\
    ecuacion 200000 0.000046 0.1541 0.03 = Ok r2 /\
    r2 < r1.
Proof.
  destruct (ecuacion_decreciente 200000 0.000046 0.1541 0.02 0.03)
    as [H _]; try lra.
  apply H; lra.
Defined.

Lemma float_pow_monotone (x1 x2 y : R) :
  0 <= x1 -> x1 < x2 -> x2 < 1 -> 1 <= y ->
  exists p1 p2,
    float_pow x1 y = Ok p1 /\ float_pow x2 y = Ok p2 /\
    0 <= p1 /\ p1 < p2 /\ p2 <= x2.
Proof.
  intros H1 H12 H2 Hy.
  destruct (float_pow_small x2 y) as (p2 & E2 & Hp2); try lra.
  unfold float_pow in *.
  destruct (Rlt_dec 0 x2) as [P2 | N2]; [| lra].
  injection E2 as <-.
  destruct (Rlt_dec 0 x1) as [P1 | N1].
  - do 2 eexists. repeat split; try reflexivity.
    + left. unfold Rpower. apply exp_pos.
    + apply Rlt_Rpower_l; lra.
    + lra.
  - destruct (Req_dec_T x1 0) as [E | N]; [| lra].
    do 2 eexists. repeat split; try reflexivity; try lra.
    unfold Rpower. apply exp_pos.
Qed.

(** The value of [f_haaland] from its [termino], on the turbulent side. *)
Lemma f_haaland_value (Re epsilon D p : R) :
  0 < Re -> D <> 0 ->
  float_pow (epsilon / D / 3.7) 1.11 = Ok p ->
  0 < p + 6.9 / Re -> p + 6.9 / Re < 1 ->
  f_haaland Re epsilon D =
  Ok (1 / (- 1.8 * (ln (p + 6.9 / Re) / ln 10)) ^ 2) /\
  ln (p + 6.9 / Re) / ln 10 < 0.
Proof.
  intros HRe HD Hp Ht0 Ht1.
  pose proof (log10_neg _ Ht0 Ht1) as Hl.
  unfold f_haaland. destruct (Rle_dec Re 0) as [N | _]; [lra |].
  rewrite (pydiv_ok _ _ HD). cbn [bind]. rewrite Hp. cbn [bind].
  rewrite pydiv_ok by lra. cbn [bind].
  rewrite np_log10_ok by lra. cbn [bind].
  rewrite npdiv_ok; [now split |].
  set (l := ln (p + 6.9 / Re) / ln 10) in *. simpl. nra.
Qed.

Lemma inv_sq_monotone (l1 l2 : R) :
  l1 < l2 -> l2 < 0 ->
  0 < 1 / (- 1.8 * l1) ^ 2 /\ 1 / (- 1.8 * l1) ^ 2 < 1 / (- 1.8 * l2) ^ 2.
Proof.
  intros H12 H2.
  assert (Hs2 : 0 < (- 1.8 * l2) ^ 2) by (simpl; nra).
  assert (Hs : (- 1.8 * l2) ^ 2 < (- 1.8 * l1) ^ 2) by (simpl; nra).
  split.
  - apply Rdiv_lt_0_compat; lra.
  - unfold Rdiv. rewrite !Rmult_1_l. now apply Rinv_0_lt_contravar.
Qed.

(** X5.  On turbulent inputs (Re > 0, D > 0, epsilon >= 0 and
    epsilon/D/3.7 + 6.9/Re < 1) the Haaland factor is positive, grows
    strictly with the roughness and falls strictly as the Reynolds number
    grows. *)
Theorem f_haaland_monotono (Re Re' epsilon epsilon' D : R) :
  0 < Re -> 0 < D -> 0 <= epsilon ->
  epsilon / D / 3.7 + 6.9 / Re < 1 ->
  epsilon' / D / 3.7 + 6.9 / Re < 1 ->
  exists f,
    f_haaland Re epsilon D = Ok f /\ 0 < f /\
    (epsilon < epsilon' ->
     exists f', f_haaland Re epsilon' D = Ok f' /\ f < f') /\
    (Re < Re' ->
     exists f', f_haaland Re' epsilon D = Ok f' /\ 0 < f' /\ f' < f).
Proof.
  intros HRe HD He Ht Ht'.
  assert (HiD : 0 < / D) by now apply Rinv_0_lt_compat.
  assert (Hq : 0 < 6.9 / Re) by (apply Rdiv_lt_0_compat; lra).
  assert (Hx : 0 <= epsilon / D / 3.7).
  { unfold Rdiv. assert (0 <= epsilon * / D) by now apply Rmult_le_pos; [| lra].
    lra. }
  destruct (float_pow_small (epsilon / D / 3.7) 1.11) as (p & Ep & Hp);
    try lra.
  destruct (f_haaland_value Re epsilon D p) as (Ef & Hl); try lra; try assumption.
  eexists. split; [exact Ef |].
  split.
  { apply Rdiv_lt_0_compat; [lra |].
    set (l := ln (p + 6.9 / Re) / ln 10) in *. simpl. nra. }
  split.
  - intros Hee.
    assert (Hxx : epsilon / D / 3.7 < epsilon' / D / 3.7).
    { unfold Rdiv. assert (epsilon * / D < epsilon' * / D)
        by now apply Rmult_lt_compat_r. lra. }
    destruct (float_pow_monotone (epsilon / D / 3.7) (epsilon' / D / 3.7) 1.11)
      as (p1 & p2 & E1 & E2 & H0 & H12 & H2); try lra.
    rewrite Ep in E1. injection E1 as <-.
    destruct (f_haaland_value Re epsilon' D p2) as (Ef' & Hl'); try lra;
      try assumption.
    eexists. split; [exact Ef' |].
    apply inv_sq_monotone; [| exact Hl'].
    unfold Rdiv. apply Rmult_lt_compat_r;
      [apply Rinv_0_lt_compat, ln_10_pos | apply ln_increasing; lra].
  - intros HRR.
    assert (Hq' : 0 < 6.9 / Re') by (apply Rdiv_lt_0_compat; lra).
    assert (Hqq : 6.9 / Re' < 6.9 / Re).
    { unfold Rdiv. apply Rmult_lt_compat_l; [lra |].
      now apply Rinv_0_lt_contravar. }
    destruct (f_haaland_value Re' epsilon D p) as (Ef' & Hl'); try lra;
      try assumption.
    eexists. split; [exact Ef' |].
    assert (Hll : ln (p + 6.9 / Re') / ln 10 < ln (p + 6.9 / Re) / ln 10).
    { unfold Rdiv. apply Rmult_lt_compat_r;
        [apply Rinv_0_lt_compat, ln_10_pos | apply ln_increasing; lra]. }
    pose proof (inv_sq_monotone _ _ Hll Hl) as [Hpos Hlt].
    split; assumption.
Qed.

(** The design pipe at Re = 200000, against a rougher pipe
    (epsilon = 0.00015) and a faster flow (Re = 400000). *)
Lemma f_haaland_monotono_witness :
  exists f f1 f2,
    f_haaland 200000 0.000046 0.1541 = Ok f /\ 0 < f /\
    f_haaland 200000 0.00015 0.1541 = Ok f1 /\ f < f1 /\
    f_haaland 400000 0.000046 0.1541 = Ok f2 /\ f2 < f.
Proof.
  destruct (f_haaland_monotono 200000 400000 0.000046 0.00015 0.1541)
    as (f & Ef & Hpos & Hr & HR); try lra.
  destruct Hr as (f1 & E1 & H1); [lra |].
  destruct HR as (f2 & E2 & _ & H2); [lra |].
  exists f, f1, f2. repeat split; assumption.
Defined.

(** ** The energy walk, station by station *)

Lemma recorrido_efectos (hv x_inicio dist_sub z_est hf_est hm_est : R)
    (st : estado) :
  let st' := recorrido hv x_inicio dist_sub z_est hf_est hm_est st in
  dist_acum st' = dist_acum st /\ elev_acum st' = elev_acum st /\
  bombas st' = bombas st /\ valvulas st' = valvulas st /\
  exists nuevos,
    puntos st' = puntos st ++ nuevos /\ length nuevos = 5%nat /\
    Forall (derivado hv) nuevos.
Proof.
  destruct (recorrido_fold hv x_inicio dist_sub z_est hf_est hm_est
              (seq 1 n_puntos_sub) st)
    as (Hd & He & Hb & Hv & nuevos & Hp & Hl & Hall & _).
  cbv zeta. unfold recorrido.
  repeat (split; [assumption |]).
  exists nuevos. repeat split; assumption.
Qed.

(** What one station adds to the walk. *)
Lemma estacion_efectos (defn : definicion) (r : resultado)
    (hv dist_tramo z_est : R) (st : estado) :
  let st' := estacion defn r hv dist_tramo z_est st in
  exists nuevos vs,
    puntos st' = puntos st ++ nuevos /\
    bombas st' =
      bombas st ++
      (if r_es_bajada r then []
       else [mk_bomba (dist_acum st) (energia_actual st)
               (energia_actual st + r_carga_estacion r)]) /\
    valvulas st' = valvulas st ++ vs /\
    (5 <= length nuevos <= 6)%nat /\
    (r_es_bajada r = false -> length nuevos = 5%nat) /\
    Forall (derivado hv) nuevos /\
    length vs = (if r_es_bajada r then 1 else 0)%nat.
Proof.
  cbv zeta. unfold estacion. cbv zeta.
  set (dist_sub := dist_tramo / IZR (r_num_estaciones r)).
  set (hf := r_perdidas_friccion_colebrook r).
  set (hm := r_perdidas_menores r).
  set (st1 := salto_bomba r (dist_acum st) st).
  destruct (recorrido_efectos hv (dist_acum st) dist_sub z_est hf hm st1)
    as (Hd & He & Hb & Hv & nuevos & Hp & Hl & Hall).
  cbv zeta in Hd, He, Hb, Hv, Hp.
  set (st2 := recorrido hv (dist_acum st) dist_sub z_est hf hm st1) in *.
  assert (H1 : puntos st1 = puntos st /\ valvulas st1 = valvulas st /\
               bombas st1 =
                 bombas st ++
                 (if r_es_bajada r then []
                  else [mk_bomba (dist_acum st) (energia_actual st)
                          (energia_actual st + r_carga_estacion r)])).
  { subst st1. unfold salto_bomba. destruct (r_es_bajada r); cbn.
    - rewrite app_nil_r. repeat split.
    - repeat split. }
  destruct H1 as (Hp1 & Hv1 & Hb1).
  rewrite Hp1 in Hp. rewrite Hv1 in Hv. rewrite Hb1 in Hb.
  unfold control_bajada. destruct (r_es_bajada r) eqn:Ebaj.
  - destruct (tiene_tanque defn).
    + cbn [puntos bombas valvulas dist_acum elev_acum energia_actual].
      destruct (Rlt_dec 0.01 _).
      * eexists (nuevos ++ [_]), [_]. rewrite Hp, Hb, Hv, <- app_assoc.
        repeat split; try reflexivity.
        -- rewrite length_app, Hl. cbn. lia.
        -- rewrite length_app, Hl. cbn. lia.
        -- discriminate.
        -- apply Forall_app. split; [exact Hall |].
           constructor; [| constructor]. split; reflexivity.
      * eexists nuevos, [_]. rewrite Hp, Hb, Hv.
        repeat split; try reflexivity; try lia; try assumption.
    + cbn [puntos bombas valvulas dist_acum elev_acum energia_actual].
      eexists nuevos, [_]. rewrite Hp, Hb, Hv.
      repeat split; try reflexivity; try lia; try assumption.
  - cbn [puntos bombas valvulas dist_acum elev_acum energia_actual].
    exists nuevos, []. rewrite Hp, Hb, Hv, app_nil_r.
    repeat split; try reflexivity; try lia; try assumption.
Qed.

Lemma iter_estacion_efectos (defn : definicion) (r : resultado)
    (hv dist_tramo z_est : R) (st : estado) (n : nat) :
  let st' := Nat.iter n (estacion defn r hv dist_tramo z_est) st in
  dist_acum st' =
    dist_acum st + INR n * (dist_tramo / IZR (r_num_estaciones r)) /\
  elev_acum st' = elev_acum st + INR n * z_est /\
  exists nuevos bs vs,
    puntos st' = puntos st ++ nuevos /\
    bombas st' = bombas st ++ bs /\
    valvulas st' = valvulas st ++ vs /\
    (5 * n <= length nuevos <= 6 * n)%nat /\
    (r_es_bajada r = false -> length nuevos = (5 * n)%nat) /\
    Forall (derivado hv) nuevos /\
    length bs = (if r_es_bajada r then 0 else n)%nat /\
    Forall (fun b => b_y_despues b - b_y_antes b = r_carga_estacion r) bs /\
    length vs = (if r_es_bajada r then n else 0)%nat.
Proof.
  cbv zeta. induction n as [| n IH].
  - cbn [Nat.iter]. split; [cbn; ring |]. split; [cbn; ring |].
    exists [], [], []. rewrite !app_nil_r.
    repeat split; try reflexivity; try constructor.
    destruct (r_es_bajada r); reflexivity.
    destruct (r_es_bajada r); reflexivity.
  - rewrite Nat.iter_succ.
    set (s := Nat.iter n (estacion defn r hv dist_tramo z_est) st) in *.
    destruct IH as (Hd & He & nuevos & bs & vs & Hp & Hb & Hv & Hlen & Hlen5
                    & Hall & Hlb & Hbs & Hlv).
    destruct (estacion_avanza defn r hv dist_tramo z_est s) as (Hd' & He').
    destruct (estacion_efectos defn r hv dist_tramo z_est s)
      as (nuevos' & vs' & Hp' & Hb' & Hv' & Hlen' & Hlen5' & Hall' & Hlv').
    cbv zeta in Hd', He', Hp', Hb', Hv'.
    split; [rewrite Hd', Hd, S_INR; ring |].
    split; [rewrite He', He, S_INR; ring |].
    eexists (nuevos ++ nuevos'), (bs ++ _), (vs ++ vs').
    rewrite Hp', Hb', Hv', Hp, Hb, Hv, <- !app_assoc.
    split; [reflexivity |]. split; [reflexivity |]. split; [reflexivity |].
    rewrite !length_app.
    split; [lia |].
    split; [intros E; rewrite (Hlen5 E), (Hlen5' E); lia |].
    split; [apply Forall_app; now split |].
    split; [rewrite Hlb; destruct (r_es_bajada r); cbn; lia |].
    split.
    + apply Forall_app. split; [exact Hbs |].
      destruct (r_es_bajada r); constructor; [cbn; ring | constructor].
    + rewrite Hlv, Hlv'. destruct (r_es_bajada r); lia.
Qed.

Lemma tramo_paso_avance (definiciones : list (Z * definicion))
    (resultados : list (Z * resultado_sistema)) (hv : R) (st : estado)
    (k : Z) (dd defn : definicion) (rs : resultado_sistema) :
  getitem definiciones (if (7 <? k)%Z then 8%Z else k) = Ok dd ->
  getitem resultados k = Ok rs ->
  getitem definiciones k = Ok defn ->
  exists st',
    tramo_paso definiciones resultados hv st k = Ok st' /\
    avance hv (rs_tramo rs) (d_distancia dd) (d_altura defn) st st'.
Proof.
  intros Hdd Hrs Hdefn. unfold tramo_paso.
  rewrite Hdd. cbn [bind]. rewrite Hrs. cbn [bind]. rewrite Hdefn. cbn [bind].
  eexists. split; [reflexivity |].
  unfold avance. cbv zeta. apply iter_estacion_efectos.
Qed.


Lemma recorrido_ultimo (hv x_inicio dist_sub z_est hf_est hm_est : R)
    (st : estado) :
  exists previos p,
    puntos (recorrido hv x_inicio dist_sub z_est hf_est hm_est st) =
      puntos st ++ previos ++ [p] /\
    length previos = 4%nat /\
    p_dist p = x_inicio + dist_sub /\
    p_elev p = elev_acum st + z_est.
Proof.
  unfold recorrido. cbn.
  eexists [_; _; _; _], _. split.
  - rewrite <- !app_assoc. reflexivity.
  - cbn. repeat split; field.
Qed.

(** X7.  The profile is continuous from station to station: the fifth
    point of a station's walk lies exactly at the distance and terrain
    elevation where the station ends (and the next one starts), and the
    tank point, when there is one, lies at that same place. *)
Theorem fin_de_estacion (defn : definicion) (r : resultado)
    (hv dist_tramo z_est : R) (st : estado) :
  let st' := estacion defn r hv dist_tramo z_est st in
  exists previos p resto,
    puntos st' = puntos st ++ previos ++ p :: resto /\
    length previos = 4%nat /\ (length resto <= 1)%nat /\
    p_dist p = dist_acum st' /\ p_elev p = elev_acum st' /\
    Forall (fun q => p_dist q = dist_acum st' /\ p_elev q = elev_acum st')
      resto.
Proof.
  cbv zeta.
  destruct (estacion_avanza defn r hv dist_tramo z_est st) as (Hd & He).
  cbv zeta in Hd, He. rewrite Hd, He.
  unfold estacion. cbv zeta.
  set (dist_sub := dist_tramo / IZR (r_num_estaciones r)).
  set (st1 := salto_bomba r (dist_acum st) st).
  destruct (recorrido_ultimo hv (dist_acum st) dist_sub z_est
              (r_perdidas_friccion_colebrook r) (r_perdidas_menores r) st1)
    as (previos & p & Hp & Hl & Hpd & Hpe).
  destruct (recorrido_efectos hv (dist_acum st) dist_sub z_est
              (r_perdidas_friccion_colebrook r) (r_perdidas_menores r) st1)
    as (Hd2 & He2 & _).
  cbv zeta in Hd2, He2.
  destruct (salto_bomba_frame r (dist_acum st) st) as (Hd1 & He1 & Hp1 & _).
  cbv zeta in Hd1, He1, Hp1. fold st1 in Hd1, He1, Hp1.
  rewrite Hp1 in Hp. rewrite He1 in Hpe, He2. rewrite Hd1 in Hd2.
  set (st2 := recorrido hv (dist_acum st) dist_sub z_est
                (r_perdidas_friccion_colebrook r) (r_perdidas_menores r) st1)
    in *.
  clearbody st2 st1.
  exists previos, p.
  unfold control_bajada.
  destruct (r_es_bajada r); [destruct (tiene_tanque defn) |];
    cbn [puntos dist_acum elev_acum].
  - destruct (Rlt_dec 0.01 _).
    + eexists [_]. rewrite Hp, <- !app_assoc. cbn [app].
      repeat split; try assumption; try (cbn; lia).
      constructor; [| constructor]. cbn. rewrite Hd2, He2. split; reflexivity.
    + exists []. rewrite Hp. repeat split; try assumption; try (cbn; lia).
      constructor.
  - exists []. rewrite Hp. repeat split; try assumption; try (cbn; lia).
    constructor.
  - exists []. rewrite Hp. repeat split; try assumption; try (cbn; lia).
    constructor.
Qed.

Lemma estacion_energia (defn : definicion) (r : resultado)
    (hv dist_tramo z_est : R) (st : estado) :
  energia_actual (estacion defn r hv dist_tramo z_est st) =
  if r_es_bajada r then
    if tiene_tanque defn then elev_acum st + z_est + hv
    else energia_actual st - r_perdidas_friccion_colebrook r
         - r_perdidas_menores r
  else energia_actual st + r_carga_estacion r
       - r_perdidas_friccion_colebrook r - r_perdidas_menores r.
Proof.
  unfold estacion. cbv zeta.
  set (dist_sub := dist_tramo / IZR (r_num_estaciones r)).
  set (st1 := salto_bomba r (dist_acum st) st).
  pose proof (recorrido_energia hv (dist_acum st) dist_sub z_est
                (r_perdidas_friccion_colebrook r) (r_perdidas_menores r) st1)
    as Hen.
  destruct (recorrido_efectos hv (dist_acum st) dist_sub z_est
              (r_perdidas_friccion_colebrook r) (r_perdidas_menores r) st1)
    as (_ & He2 & _).
  cbv zeta in He2.
  set (st2 := recorrido hv (dist_acum st) dist_sub z_est
                (r_perdidas_friccion_colebrook r) (r_perdidas_menores r) st1)
    in *.
  assert (H1 : elev_acum st1 = elev_acum st /\
               energia_actual st1 =
                 if r_es_bajada r then energia_actual st
                 else energia_actual st + r_carga_estacion r).
  { subst st1. unfold salto_bomba. destruct (r_es_bajada r); split; reflexivity. }
  destruct H1 as (He1 & Hen1).
  unfold control_bajada.
  destruct (r_es_bajada r); [destruct (tiene_tanque defn) |];
    cbn [energia_actual elev_acum].
  - rewrite He2, He1. ring.
  - rewrite Hen, Hen1. reflexivity.
  - rewrite Hen, Hen1. reflexivity.
Qed.


(** What [calcular_tramo] returns over rounded reals: the head of a
    station is [carga_total] of the fields beside it. *)
Lemma calcular_tramo_fl_carga (rnd : R -> R)
    (iterado Q D L z rho mu K_total : R) (n : Z) (b : bool)
    (r : resultado_fl R) :
  calcular_tramo_fl (FF := redondeado rnd) iterado Q D L z rho mu K_total n b
  = Ok r ->
  rf_es_bajada r = b /\ rf_num_estaciones r = n /\
  rf_carga_estacion r =
    rnd (rnd (Rabs (rf_z_estacion r) + rf_perdidas_friccion_colebrook r)
         + rf_perdidas_menores r).
Proof.
  unfold calcular_tramo_fl, velocidad_fl, reynolds_fl, perdidas_darcy_fl,
    pydiv_fl.
  destruct (fl_es_cero (area_seccion_fl D)); [discriminate |]. cbn [bind].
  destruct (fl_es_cero mu); [discriminate |]. cbn [bind].
  destruct (fl_es_cero D); [discriminate |]. cbn [bind].
  destruct b; intros H; injection H as <-; repeat split.
Qed.

Lemma calcular_tramo_fl_ok (rnd : R -> R)
    (iterado Q D L z rho mu K_total : R) (n : Z) (b : bool) :
  area_seccion_fl (FF := redondeado rnd) D <> 0 -> mu <> 0 -> D <> 0 ->
  exists r,
    calcular_tramo_fl (FF := redondeado rnd) iterado Q D L z rho mu K_total
      n b = Ok r.
Proof.
  intros HA Hmu HD.
  unfold calcular_tramo_fl, velocidad_fl, reynolds_fl, perdidas_darcy_fl,
    pydiv_fl.
  cbn [fl_es_cero redondeado].
  destruct (Req_dec_T (area_seccion_fl D) 0) as [E | _]; [contradiction |].
  cbn [bind].
  destruct (Req_dec_T mu 0) as [E | _]; [contradiction |]. cbn [bind].
  destruct (Req_dec_T D 0) as [E | _]; [contradiction |]. cbn [bind].
  destruct b; eexists; reflexivity.
Qed.

(** The energy after the five sub-steps of a station. *)
Lemma recorrido_fl_energia (rnd : R -> R)
    (hv x_inicio dist_sub z_est hf_est hm_est : R) (st : estado_fl R) :
  ef_energia_actual
    (recorrido_fl (FF := redondeado rnd) hv x_inicio dist_sub z_est hf_est
       hm_est st) =
  let q := rnd (hf_est / 5) in
  rnd (rnd (rnd (rnd (rnd (ef_energia_actual st - rnd (q + hm_est))
                      - rnd (q + 0)) - rnd (q + 0)) - rnd (q + 0))
       - rnd (q + 0)).
Proof.
  reflexivity.
Qed.

(** The arithmetic of a pump station: the head [carga_total] assembles is
    added and then given back in five decrements, thirteen roundings in
    all. *)
Lemma bomba_redondeada (rnd : R -> R) (u eta Omega E a hf hm : R) :
  modelo_estandar rnd u eta Omega -> u <= 1 / 100 -> 0 <= a ->
  2 * (Rabs E + a + Rabs hf + Rabs hm) + 24 * eta <= Omega ->
  let H := rnd (rnd (a + hf) + hm) in
  let q := rnd (hf / 5) in
  Rabs (rnd (rnd (rnd (rnd (rnd (rnd (E + H) - rnd (q + hm))
                           - rnd (q + 0)) - rnd (q + 0)) - rnd (q + 0))
             - rnd (q + 0))
        - (E + a))
  <= 12 * u * (Rabs E + a + Rabs hf + Rabs hm) + 24 * eta.
Proof.
  intros Hm Hu Ha HO. cbv zeta.
  pose proof (proj1 Hm) as Hu0. pose proof (proj1 (proj2 Hm)) as He0.
  pose proof (Rabs_cotas E) as HE. pose proof (Rabs_cotas hf) as Hf.
  pose proof (Rabs_cotas hm) as Hh.
  remember (Rabs E + a + Rabs hf + Rabs hm) as M eqn:EM.
  assert (HM : 0 <= M) by lra.
  replace (12 * u * M) with (12 * (u * M)) by ring.
  destruct (redondeo_unidades u eta M Hu0 Hu He0 HM) as (Hw & Hv).
  pose proof (fun x c k => redondeo_cerca rnd u eta Omega x c k M Hm) as Hr.
  remember (u * M) as w eqn:Ew. clear Ew.
  remember (u * eta) as v eqn:Ev. clear Ev.
  pose proof (Hr (a + hf) 1 0 ltac:(lra) ltac:(lra)) as H1.
  remember (rnd (a + hf)) as s1 eqn:E1. clear E1.
  pose proof (Hr (s1 + hm) 1.01 1 ltac:(lra) ltac:(lra)) as H2.
  remember (rnd (s1 + hm)) as H eqn:E2. clear E2.
  pose proof (Hr (E + H) 1.03 3 ltac:(lra) ltac:(lra)) as H3.
  remember (rnd (E + H)) as e1 eqn:E3. clear E3.
  pose proof (Hr (hf / 5) 0.2 0 ltac:(lra) ltac:(lra)) as H4.
  remember (rnd (hf / 5)) as q eqn:E4. clear E4.
  pose proof (Hr (q + hm) 1.01 1 ltac:(lra) ltac:(lra)) as H5.
  remember (rnd (q + hm)) as p1 eqn:E5. clear E5.
  pose proof (Hr (q + 0) 0.21 1 ltac:(lra) ltac:(lra)) as H6.
  remember (rnd (q + 0)) as p0 eqn:E6. clear E6.
  pose proof (Hr (e1 - p1) 1.05 6 ltac:(lra) ltac:(lra)) as H7.
  remember (rnd (e1 - p1)) as e2 eqn:E7. clear E7.
  pose proof (Hr (e2 - p0) 1.06 9 ltac:(lra) ltac:(lra)) as H8.
  remember (rnd (e2 - p0)) as e3 eqn:E8. clear E8.
  pose proof (Hr (e3 - p0) 1.08 13 ltac:(lra) ltac:(lra)) as H9.
  remember (rnd (e3 - p0)) as e4 eqn:E9. clear E9.
  pose proof (Hr (e4 - p0) 1.09 16 ltac:(lra) ltac:(lra)) as H10.
  remember (rnd (e4 - p0)) as e5 eqn:E10. clear E10.
  pose proof (Hr (e5 - p0) 1.11 20 ltac:(lra) ltac:(lra)) as H11.
  remember (rnd (e5 - p0)) as e6 eqn:E11. clear E11.
  apply Rabs_le. lra.
Qed.

(** X9.  A pump sized by [calcular_tramo] pays for its station, up to
    rounding.  Under the standard model of rounding (per operation a
    relative error of at most u <= 1/100 and an absolute error of at most
    eta, for results up to Omega), when the station's result comes from
    [calcular_tramo] for an ascending segment, the walk leaves the station
    |z_estacion| above the energy it entered with, within
    12 u M + 24 eta, where M = |energy found| + |z_estacion| + |hf| + |hm|
    and 2 M + 24 eta <= Omega: the pump head cancels the frictional and
    minor losses exactly in exact arithmetic (u = eta = 0) and to a few
    units in the last place in binary64. *)
Theorem bomba_compensa_perdidas (rnd : R -> R) (u eta Omega : R)
    (iterado Q D L z rho mu K_total : R) (n : Z) (r : resultado_fl R)
    (defn : definicion_fl R) (hv dist_tramo z_est : R) (st : estado_fl R) :
  modelo_estandar rnd u eta Omega -> u <= 1 / 100 ->
  calcular_tramo_fl (FF := redondeado rnd) iterado Q D L z rho mu K_total n
    false = Ok r ->
  2 * (Rabs (ef_energia_actual st) + Rabs (rf_z_estacion r)
       + Rabs (rf_perdidas_friccion_colebrook r)
       + Rabs (rf_perdidas_menores r)) + 24 * eta <= Omega ->
  Rabs (ef_energia_actual
          (estacion_fl (FF := redondeado rnd) defn r hv dist_tramo z_est st)
        - (ef_energia_actual st + Rabs (rf_z_estacion r)))
  <= 12 * u * (Rabs (ef_energia_actual st) + Rabs (rf_z_estacion r)
               + Rabs (rf_perdidas_friccion_colebrook r)
               + Rabs (rf_perdidas_menores r)) + 24 * eta.
Proof.
  intros Hm Hu H HO.
  destruct (calcular_tramo_fl_carga rnd _ _ _ _ _ _ _ _ _ _ _ H)
    as (Hb & _ & HH).
  unfold estacion_fl. cbv zeta. unfold control_bajada_fl. rewrite Hb.
  cbn [ef_energia_actual].
  rewrite recorrido_fl_energia. cbv zeta.
  unfold salto_bomba_fl. rewrite Hb. cbn [ef_energia_actual fl_add redondeado].
  rewrite HH.
  apply (bomba_redondeada rnd u eta Omega (ef_energia_actual st)
           (Rabs (rf_z_estacion r)) (rf_perdidas_friccion_colebrook r)
           (rf_perdidas_menores r) Hm Hu (Rabs_pos _) HO).
Qed.

Lemma rnd_exceso_pos (x : R) : 0 < x -> 0 < rnd_exceso x.
Proof.
  intros H. unfold rnd_exceso. apply Rmult_lt_0_compat; lra.
Qed.

(** Segment 1 at the design point with a friction factor of 0.0175,
    walked from the river with a rounding that errs by the whole unit
    2^-53 on every operation and knows neither underflow nor overflow. *)
Lemma bomba_compensa_perdidas_witness :
  exists r,
    calcular_tramo_fl (FF := redondeado rnd_exceso) 0.0175 0.025 0.1541
      211.13 100 998 0.001 1.62 1 false = Ok r /\
    Rabs (ef_energia_actual
            (estacion_fl (FF := redondeado rnd_exceso)
               (tramo1_fl (FF := redondeado rnd_exceso)) r 0.0916 182.53 100
               (estado_inicial_fl (FF := redondeado rnd_exceso)))
          - (ef_energia_actual
               (estado_inicial_fl (FF := redondeado rnd_exceso))
             + Rabs (rf_z_estacion r)))
    <= 12 * / 9007199254740992
       * (Rabs (ef_energia_actual
                  (estado_inicial_fl (FF := redondeado rnd_exceso)))
          + Rabs (rf_z_estacion r)
          + Rabs (rf_perdidas_friccion_colebrook r)
          + Rabs (rf_perdidas_menores r))
       + 24 * 0.
Proof.
  destruct (calcular_tramo_fl_ok rnd_exceso 0.0175 0.025 0.1541 211.13 100
              998 0.001 1.62 1 false) as (r & Hr); try lra.
  { apply Rgt_not_eq. unfold area_seccion_fl.
    cbn [fl_div fl_mul fl_pi fl_sq fl_int redondeado].
    apply rnd_exceso_pos. apply Rdiv_lt_0_compat; [| lra].
    apply rnd_exceso_pos. apply Rmult_lt_0_compat.
    - apply rnd_exceso_pos. apply PI_RGT_0.
    - apply rnd_exceso_pos. lra. }
  exists r. split; [exact Hr |].
  exact (bomba_compensa_perdidas rnd_exceso (/ 9007199254740992) 0 _ _ _ _ _
           _ _ _ _ _ r (tramo1_fl (FF := redondeado rnd_exceso)) 0.0916
           182.53 100 (estado_inicial_fl (FF := redondeado rnd_exceso))
           (rnd_exceso_modelo _) ltac:(lra) Hr (Rle_refl _)).
Defined.

(** ** The energy walk, segment by segment *)

Lemma getitem_cases {A : Type} (d : list (Z * A)) (k : Z) :
  (exists a, getitem d k = Ok a) \/ getitem d k = Raise KeyError.
Proof.
  induction d as [| [k' a] d IH]; cbn.
  - now right.
  - destruct (k' =? k)%Z; [left; now exists a | exact IH].
Qed.

Lemma tramo_paso_ok (definiciones : list (Z * definicion))
    (resultados : list (Z * resultado_sistema)) (hv : R) (st : estado)
    (k : Z) (dd defn : definicion) (rs : resultado_sistema) :
  getitem definiciones (if (7 <? k)%Z then 8%Z else k) = Ok dd ->
  getitem resultados k = Ok rs ->
  getitem definiciones k = Ok defn ->
  tramo_paso definiciones resultados hv st k =
  Ok (Nat.iter (Z.to_nat (r_num_estaciones (rs_tramo rs)))
        (estacion defn (rs_tramo rs) hv (d_distancia dd)
           (if (0 <? r_num_estaciones (rs_tramo rs))%Z
            then d_altura defn / IZR (r_num_estaciones (rs_tramo rs))
            else d_altura defn))
        st).
Proof.
  intros Hdd Hrs Hdefn. unfold tramo_paso.
  rewrite Hdd. cbn [bind]. rewrite Hrs. cbn [bind]. rewrite Hdefn. reflexivity.
Qed.

(** X10.  A segment whose result carries a station count of zero or less
    is skipped by the walk: its step returns the state it was given, so
    neither its distance nor its elevation change reaches the profile. *)
Theorem tramo_sin_estaciones (definiciones : list (Z * definicion))
    (resultados : list (Z * resultado_sistema)) (hv : R) (st : estado)
    (k : Z) (dd defn : definicion) (rs : resultado_sistema) :
  getitem definiciones (if (7 <? k)%Z then 8%Z else k) = Ok dd ->
  getitem resultados k = Ok rs ->
  getitem definiciones k = Ok defn ->
  (r_num_estaciones (rs_tramo rs) <= 0)%Z ->
  tramo_paso definiciones resultados hv st k = Ok st.
Proof.
  intros Hdd Hrs Hdefn Hn.
  rewrite (tramo_paso_ok _ _ hv st k dd defn rs Hdd Hrs Hdefn).
  replace (Z.to_nat (r_num_estaciones (rs_tramo rs))) with 0%nat by lia.
  reflexivity.
Qed.

Lemma recorrer_tramos_ok (resultados : list (Z * resultado_sistema))
    (hv : R) (nums : list Z) :
  Forall (fun k => (1 <= k <= 8)%Z /\ exists rs, getitem resultados k = Ok rs)
    nums ->
  forall st, exists st',
    recorrer_tramos obtener_definicion_tramos resultados hv nums st = Ok st'.
Proof.
  induction 1 as [| k nums [Hk (rs & Hrs)] _ IH]; intros st.
  - now exists st.
  - cbn [recorrer_tramos].
    assert (Hd : exists dd defn,
               getitem obtener_definicion_tramos
                 (if (7 <? k)%Z then 8%Z else k) = Ok dd /\
               getitem obtener_definicion_tramos k = Ok defn).
    { assert (Hc : (k = 1 \/ k = 2 \/ k = 3 \/ k = 4 \/ k = 5 \/ k = 6
                    \/ k = 7 \/ k = 8)%Z) by lia.
      destruct Hc as [-> | [-> | [-> | [-> | [-> | [-> | [-> | ->]]]]]]];
        do 2 eexists; split; reflexivity. }
    destruct Hd as (dd & defn & Hdd & Hdefn).
    rewrite (tramo_paso_ok _ _ hv st k dd defn rs Hdd Hrs Hdefn). cbn [bind].
    apply IH.
Qed.

Lemma recorrer_tramos_falta (resultados : list (Z * resultado_sistema))
    (hv : R) (nums : list Z) (k : Z) :
  Forall (fun i => (1 <= i <= 8)%Z) nums ->
  In k nums -> getitem resultados k = Raise KeyError ->
  forall st,
    recorrer_tramos obtener_definicion_tramos resultados hv nums st =
    Raise KeyError.
Proof.
  induction 1 as [| i nums Hi _ IH]; intros Hin Hk st; [destruct Hin |].
  cbn [recorrer_tramos].
  assert (Hd : exists dd defn,
             getitem obtener_definicion_tramos
               (if (7 <? i)%Z then 8%Z else i) = Ok dd /\
             getitem obtener_definicion_tramos i = Ok defn).
  { assert (Hc : (i = 1 \/ i = 2 \/ i = 3 \/ i = 4 \/ i = 5 \/ i = 6
                  \/ i = 7 \/ i = 8)%Z) by lia.
    destruct Hc as [-> | [-> | [-> | [-> | [-> | [-> | [-> | ->]]]]]]];
      do 2 eexists; split; reflexivity. }
  destruct Hd as (dd & defn & Hdd & Hdefn).
  destruct (getitem_cases resultados i) as [(rs & Hrs) | Hrs].
  - rewrite (tramo_paso_ok _ _ hv st i dd defn rs Hdd Hrs Hdefn). cbn [bind].
    destruct Hin as [-> | Hin]; [congruence |]. now apply IH.
  - unfold tramo_paso. rewrite Hdd. cbn [bind]. rewrite Hrs. reflexivity.
Qed.

(** X11.  The walk needs a result for each of the eight segments and
    nothing else: [crear_mapa_piezometrico] raises KeyError exactly when
    some key from 1 to 8 is missing from its argument, and returns a
    profile otherwise; it raises no other exception. *)
Theorem crear_mapa_key_error (resultados : list (Z * resultado_sistema)) :
  (crear_mapa_piezometrico resultados = Raise KeyError <->
   exists k, (1 <= k <= 8)%Z /\ getitem resultados k = Raise KeyError) /\
  ((forall k, (1 <= k <= 8)%Z -> exists rs, getitem resultados k = Ok rs) <->
   exists st, crear_mapa_piezometrico resultados = Ok st).
Proof.
  assert (Hnums : Forall (fun i => (1 <= i <= 8)%Z) [1; 2; 3; 4; 5; 6; 7; 8]%Z)
    by (repeat constructor; lia).
  assert (Hin : forall k, (1 <= k <= 8)%Z -> In k [1; 2; 3; 4; 5; 6; 7; 8]%Z).
  { intros k Hk. cbn. lia. }
  assert (Hok : (forall k, (1 <= k <= 8)%Z ->
                   exists rs, getitem resultados k = Ok rs) ->
                exists st, crear_mapa_piezometrico resultados = Ok st).
  { intros Hall. unfold crear_mapa_piezometrico.
    destruct (Hall 1%Z) as (rs1 & ->); [lia |]. cbn [bind].
    apply recorrer_tramos_ok.
    eapply Forall_impl; [| exact Hnums].
    intros k Hk. split; [exact Hk | now apply Hall]. }
  assert (Hfalta : forall k, (1 <= k <= 8)%Z ->
                     getitem resultados k = Raise KeyError ->
                     crear_mapa_piezometrico resultados = Raise KeyError).
  { intros k Hk Hmiss. unfold crear_mapa_piezometrico.
    destruct (getitem_cases resultados 1) as [(rs1 & ->) | ->];
      [| reflexivity].
    cbn [bind]. apply (recorrer_tramos_falta _ _ _ k); auto. }
  assert (Hdec : (forall k, (1 <= k <= 8)%Z ->
                    exists rs, getitem resultados k = Ok rs) \/
                 exists k, (1 <= k <= 8)%Z /\
                           getitem resultados k = Raise KeyError).
  { assert (Hf : forall l : list Z,
               (forall k, In k l -> exists rs, getitem resultados k = Ok rs) \/
               exists k, In k l /\ getitem resultados k = Raise KeyError).
    { induction l as [| i l IH].
      - left. intros k [].
      - destruct (getitem_cases resultados i) as [(rs & Hrs) | Hrs].
        + destruct IH as [IH | (k & Hk & Hm)].
          * left. intros k [<- | Hk]; [now exists rs | now apply IH].
          * right. exists k. split; [now right | exact Hm].
        + right. exists i. split; [now left | exact Hrs]. }
    destruct (Hf [1; 2; 3; 4; 5; 6; 7; 8]%Z) as [Hall | (k & Hk & Hm)].
    - left. intros k Hk. apply Hall. now apply Hin.
    - right. exists k. split; [cbn in Hk; lia | exact Hm]. }
  split; split.
  - intros Hraise. destruct Hdec as [Hall | Hm]; [| exact Hm].
    destruct (Hok Hall) as (st & Hst). congruence.
  - intros (k & Hk & Hm). now apply (Hfalta k).
  - exact Hok.
  - intros (st & Hst). destruct Hdec as [Hall | (k & Hk & Hm)]; [exact Hall |].
    rewrite (Hfalta k Hk Hm) in Hst. discriminate Hst.
Qed.

(** A result with no station (the engine accepts n = 0) in place of
    segment 1. *)
Lemma tramo_sin_estaciones_witness :
  exists r,
    calcular_tramo (hybr_fijo 1) 0.025 0.1541 211.13 100 998 0.001 0.000046
      1.62 0 false = Ok r /\
    tramo_paso obtener_definicion_tramos
      [(1%Z, mk_resultado_sistema r 182.53 100 28.72 211.13)]
      (r_carga_cinetica r) estado_inicial 1 = Ok estado_inicial.
Proof.
  destruct friction_design as (Re & fh & fs & HR & _ & Hh & _ & Hs & Hc).
  pose proof (calcular_tramo_ok (hybr_fijo 1) 0.025 0.1541 211.13 100 998
                0.001 0.000046 1.62 0 false Re fh fh fs HR Hc Hh Hs) as Hr.
  cbv zeta in Hr.
  eexists. split; [exact Hr |].
  eapply tramo_sin_estaciones; try reflexivity; cbn; lia.
Defined.

(** ** The walk over a solved system *)

Lemma calcular_items_forma (hybr : solver) (Q D rho mu epsilon : R)
    (items : list (Z * definicion)) :
  forall resultados,
  calcular_items hybr Q D rho mu epsilon items = Ok resultados ->
  Forall2 (fun kr kd =>
             fst kr = fst kd /\
             calcular_definicion hybr Q D rho mu epsilon (snd kd) =
             Ok (snd kr))
    resultados items.
Proof.
  induction items as [| [num defn] rest IH]; intros resultados H.
  - injection H as <-. constructor.
  - cbn [calcular_items] in H.
    apply bind_ok_inv in H as (rs & Hrs & H).
    apply bind_ok_inv in H as (rest' & Hrest & H).
    injection H as <-.
    constructor; [now split | now apply IH].
Qed.

(** What the walk reads in a result of the system solver. *)
Lemma calcular_definicion_hechos (hybr : solver) (Q D rho mu epsilon : R)
    (defn : definicion) (rs : resultado_sistema) :
  calcular_definicion hybr Q D rho mu epsilon defn = Ok rs ->
  let r := rs_tramo rs in
  r_num_estaciones r = d_num_estaciones defn /\
  r_es_bajada r = d_es_bajada defn /\
  r_carga_cinetica r = carga_cinetica (Q / area_seccion D) /\
  r_carga_estacion r - r_perdidas_friccion_colebrook r - r_perdidas_menores r =
    Rabs (if (0 <? d_num_estaciones defn)%Z
          then d_z defn / IZR (d_num_estaciones defn) else d_z defn).
Proof.
  unfold calcular_definicion. intros H.
  apply bind_ok_inv in H as (r & Hr & H). injection H as <-.
  destruct (calcular_tramo_inv _ _ _ _ _ _ _ _ _ _ _ _ Hr)
    as (Re & fc & fh & fs & HR & Hc & Hh & Hs).
  rewrite (calcular_tramo_ok hybr Q D _ _ rho mu epsilon _ _ _
             Re fc fh fs HR Hc Hh Hs) in Hr.
  injection Hr as <-. cbn. repeat split. ring.
Qed.

Lemma iter_estacion_energia (defn : definicion) (r : resultado)
    (hv dist_tramo z_est : R) (st : estado) (n : nat) :
  (1 <= n)%nat ->
  energia_actual (Nat.iter n (estacion defn r hv dist_tramo z_est) st) =
  if r_es_bajada r then
    if tiene_tanque defn then elev_acum st + INR n * z_est + hv
    else energia_actual st
         - INR n * (r_perdidas_friccion_colebrook r + r_perdidas_menores r)
  else energia_actual st
       + INR n * (r_carga_estacion r - r_perdidas_friccion_colebrook r
                  - r_perdidas_menores r).
Proof.
  intros Hn. destruct n as [| n]; [lia |]. clear Hn.
  induction n as [| n IH].
  - change (Nat.iter 1 (estacion defn r hv dist_tramo z_est) st)
      with (estacion defn r hv dist_tramo z_est st).
    rewrite estacion_energia.
    destruct (r_es_bajada r); [destruct (tiene_tanque defn) |]; cbn; ring.
  - rewrite Nat.iter_succ, estacion_energia, IH, iter_estacion_elev.
    rewrite (S_INR (S n)).
    destruct (r_es_bajada r); [destruct (tiene_tanque defn) |]; ring.
Qed.

(** One segment of the registry, walked with its result from the system
    solver. *)
Lemma tramo_paso_sistema (hybr : solver) (Q D rho mu epsilon : R)
    (resultados : list (Z * resultado_sistema)) (st : estado)
    (k : Z) (defn : definicion) (rs : resultado_sistema) (n : nat) :
  let hv := carga_cinetica (Q / area_seccion D) in
  getitem obtener_definicion_tramos (if (7 <? k)%Z then 8%Z else k) = Ok defn ->
  getitem obtener_definicion_tramos k = Ok defn ->
  getitem resultados k = Ok rs ->
  calcular_definicion hybr Q D rho mu epsilon defn = Ok rs ->
  d_num_estaciones defn = Z.of_nat n -> (1 <= n)%nat ->
  tiene_tanque defn = true ->
  exists st',
    tramo_paso obtener_definicion_tramos resultados hv st k = Ok st' /\
    dist_acum st' = dist_acum st + d_distancia defn /\
    elev_acum st' = elev_acum st + d_altura defn /\
    energia_actual st' =
      (if d_es_bajada defn then elev_acum st' + hv
       else energia_actual st + Rabs (d_z defn)) /\
    exists nuevos bs vs,
      puntos st' = puntos st ++ nuevos /\
      bombas st' = bombas st ++ bs /\
      valvulas st' = valvulas st ++ vs /\
      (5 * n <= length nuevos <= 6 * n)%nat /\
      (d_es_bajada defn = false -> length nuevos = (5 * n)%nat) /\
      Forall (derivado hv) nuevos /\
      length bs = (if d_es_bajada defn then 0 else n)%nat /\
      Forall (fun b => b_y_despues b - b_y_antes b =
                       r_carga_estacion (rs_tramo rs)) bs /\
      length vs = (if d_es_bajada defn then n else 0)%nat.
Proof.
  intros hv Hdd Hdefn Hrs Hcalc Hn Hn1 Htank.
  destruct (calcular_definicion_hechos _ _ _ _ _ _ _ _ Hcalc)
    as (En & Eb & _ & EH).
  cbv zeta in En, Eb, EH.
  rewrite (tramo_paso_ok _ _ hv st k defn defn rs Hdd Hrs Hdefn).
  eexists. split; [reflexivity |].
  rewrite En, Hn, Nat2Z.id.
  assert (Hpos : (0 <? Z.of_nat n)%Z = true) by (apply Z.ltb_lt; lia).
  rewrite Hn, Hpos in EH. rewrite Hpos.
  assert (HI : IZR (Z.of_nat n) = INR n) by (symmetry; apply INR_IZR_INZ).
  rewrite HI in *.
  assert (Hnz : 0 < INR n) by (apply lt_0_INR; lia).
  destruct (iter_estacion_efectos defn (rs_tramo rs) hv (d_distancia defn)
              (d_altura defn / INR n) st n)
    as (Hd & He & nuevos & bs & vs & Hp & Hb & Hv & Hl & Hl5 & Hall & Hlb
        & Hbs & Hlv).
  cbv zeta in Hd, He, Hp, Hb, Hv.
  rewrite En, Hn, HI in Hd. rewrite Eb in Hl5, Hlb, Hlv.
  split; [rewrite Hd; field; lra |].
  split; [rewrite He; field; lra |].
  split.
  - rewrite (iter_estacion_energia _ _ _ _ _ _ _ Hn1), Eb, Htank, He, EH.
    destruct (d_es_bajada defn); [reflexivity |].
    f_equal. unfold Rdiv. rewrite Rabs_mult, (Rabs_right (/ INR n)).
    + field. lra.
    + left. now apply Rinv_0_lt_compat.
  - exists nuevos, bs, vs. repeat split; assumption || lia.
Qed.

(** The walk over a solved system, fact by fact. *)
Lemma recorrido_sistema_hechos (hybr : solver) (Q D rho mu epsilon : R)
    (resultados : list (Z * resultado_sistema)) :
  calcular_sistema_completo hybr Q D rho mu epsilon = Ok resultados ->
  let hv := carga_cinetica (Q / area_seccion D) in
  exists st,
    crear_mapa_piezometrico resultados = Ok st /\
    dist_acum st = 2805.82 /\ elev_acum st = 100 /\
    energia_actual st = 100 + hv /\
    energia_actual st - hv - elev_acum st = 0 /\
    length (bombas st) = 7%nat /\ length (valvulas st) = 3%nat /\
    (51 <= length (puntos st) <= 54)%nat /\
    exists resto,
      puntos st = mk_punto 0 0 0 0 0 :: resto /\ Forall (derivado hv) resto.
Proof.
  intros H hv. subst hv. unfold calcular_sistema_completo in H.
  apply calcular_items_forma in H. unfold obtener_definicion_tramos in H.
  inversion H as [| [k1 rs1] kd1 l1 m1 [K1 C1] H1]; subst; clear H;
    rename H1 into H; cbn in K1, C1; subst k1.
  inversion H as [| [k2 rs2] kd2 l2 m2 [K2 C2] H2]; subst; clear H;
    rename H2 into H; cbn in K2, C2; subst k2.
  inversion H as [| [k3 rs3] kd3 l3 m3 [K3 C3] H3]; subst; clear H;
    rename H3 into H; cbn in K3, C3; subst k3.
  inversion H as [| [k4 rs4] kd4 l4 m4 [K4 C4] H4]; subst; clear H;
    rename H4 into H; cbn in K4, C4; subst k4.
  inversion H as [| [k5 rs5] kd5 l5 m5 [K5 C5] H5]; subst; clear H;
    rename H5 into H; cbn in K5, C5; subst k5.
  inversion H as [| [k6 rs6] kd6 l6 m6 [K6 C6] H6]; subst; clear H;
    rename H6 into H; cbn in K6, C6; subst k6.
  inversion H as [| [k7 rs7] kd7 l7 m7 [K7 C7] H7]; subst; clear H;
    rename H7 into H; cbn in K7, C7; subst k7.
  inversion H as [| [k8 rs8] kd8 l8 m8 [K8 C8] H8]; subst; clear H;
    rename H8 into H; cbn in K8, C8; subst k8.
  inversion H; subst; clear H.
  set (resultados := [(1%Z, rs1); (2%Z, rs2); (3%Z, rs3); (4%Z, rs4);
                      (5%Z, rs5); (6%Z, rs6); (7%Z, rs7); (8%Z, rs8)]).
  destruct (calcular_definicion_hechos _ _ _ _ _ _ _ _ C1) as (_ & _ & Ehv & _).
  cbv zeta in Ehv.
  unfold crear_mapa_piezometrico.
  change (getitem resultados 1) with (Ok rs1). cbn [bind].
  rewrite Ehv. cbn [recorrer_tramos].
  destruct (tramo_paso_sistema hybr Q D rho mu epsilon resultados estado_inicial
              1 tramo1 rs1 1 eq_refl eq_refl eq_refl C1 eq_refl (le_n 1) eq_refl)
    as (s1 & T1 & Hd1 & He1 & Hen1 & n1 & b1 & v1 & Hp1 & Hb1
        & Hv1 & Hl1 & Hf1 & Ha1 & Hlb1 & _ & Hlv1).
  cbv zeta in T1. rewrite T1. cbn [bind]. clear T1.
  cbn in Hd1, He1, Hen1, Hf1, Hlb1, Hlv1.
  destruct (tramo_paso_sistema hybr Q D rho mu epsilon resultados s1
              2 tramo2 rs2 2 eq_refl eq_refl eq_refl C2 eq_refl (le_S 1 1 (le_n 1)) eq_refl)
    as (s2 & T2 & Hd2 & He2 & Hen2 & n2 & b2 & v2 & Hp2 & Hb2
        & Hv2 & Hl2 & Hf2 & Ha2 & Hlb2 & _ & Hlv2).
  cbv zeta in T2. rewrite T2. cbn [bind]. clear T2.
  cbn in Hd2, He2, Hen2, Hf2, Hlb2, Hlv2.
  destruct (tramo_paso_sistema hybr Q D rho mu epsilon resultados s2
              3 tramo3 rs3 2 eq_refl eq_refl eq_refl C3 eq_refl (le_S 1 1 (le_n 1)) eq_refl)
    as (s3 & T3 & Hd3 & He3 & Hen3 & n3 & b3 & v3 & Hp3 & Hb3
        & Hv3 & Hl3 & Hf3 & Ha3 & Hlb3 & _ & Hlv3).
  cbv zeta in T3. rewrite T3. cbn [bind]. clear T3.
  cbn in Hd3, He3, Hen3, Hf3, Hlb3, Hlv3.
  destruct (tramo_paso_sistema hybr Q D rho mu epsilon resultados s3
              4 tramo4 rs4 1 eq_refl eq_refl eq_refl C4 eq_refl (le_n 1) eq_refl)
    as (s4 & T4 & Hd4 & He4 & Hen4 & n4 & b4 & v4 & Hp4 & Hb4
        & Hv4 & Hl4 & Hf4 & Ha4 & Hlb4 & _ & Hlv4).
  cbv zeta in T4. rewrite T4. cbn [bind]. clear T4.
  cbn in Hd4, He4, Hen4, Hf4, Hlb4, Hlv4.
  destruct (tramo_paso_sistema hybr Q D rho mu epsilon resultados s4
              5 tramo5 rs5 1 eq_refl eq_refl eq_refl C5 eq_refl (le_n 1) eq_refl)
    as (s5 & T5 & Hd5 & He5 & Hen5 & n5 & b5 & v5 & Hp5 & Hb5
        & Hv5 & Hl5 & Hf5 & Ha5 & Hlb5 & _ & Hlv5).
  cbv zeta in T5. rewrite T5. cbn [bind]. clear T5.
  cbn in Hd5, He5, Hen5, Hf5, Hlb5, Hlv5.
  destruct (tramo_paso_sistema hybr Q D rho mu epsilon resultados s5
              6 tramo6 rs6 1 eq_refl eq_refl eq_refl C6 eq_refl (le_n 1) eq_refl)
    as (s6 & T6 & Hd6 & He6 & Hen6 & n6 & b6 & v6 & Hp6 & Hb6
        & Hv6 & Hl6 & Hf6 & Ha6 & Hlb6 & _ & Hlv6).
  cbv zeta in T6. rewrite T6. cbn [bind]. clear T6.
  cbn in Hd6, He6, Hen6, Hf6, Hlb6, Hlv6.
  destruct (tramo_paso_sistema hybr Q D rho mu epsilon resultados s6
              7 tramo7 rs7 1 eq_refl eq_refl eq_refl C7 eq_refl (le_n 1) eq_refl)
    as (s7 & T7 & Hd7 & He7 & Hen7 & n7 & b7 & v7 & Hp7 & Hb7
        & Hv7 & Hl7 & Hf7 & Ha7 & Hlb7 & _ & Hlv7).
  cbv zeta in T7. rewrite T7. cbn [bind]. clear T7.
  cbn in Hd7, He7, Hen7, Hf7, Hlb7, Hlv7.
  destruct (tramo_paso_sistema hybr Q D rho mu epsilon resultados s7
              8 tramo8 rs8 1 eq_refl eq_refl eq_refl C8 eq_refl (le_n 1) eq_refl)
    as (s8 & T8 & Hd8 & He8 & Hen8 & n8 & b8 & v8 & Hp8 & Hb8
        & Hv8 & Hl8 & Hf8 & Ha8 & Hlb8 & _ & Hlv8).
  cbv zeta in T8. rewrite T8. cbn [bind]. clear T8.
  cbn in Hd8, He8, Hen8, Hf8, Hlb8, Hlv8.
  exists s8. split; [reflexivity |].
  assert (R100 : Rabs 100 = 100) by (apply Rabs_right; lra).
  rewrite R100 in Hen8.
  set (hv := carga_cinetica (Q / area_seccion D)) in *.
  split; [lra |]. split; [lra |]. split; [lra |]. split; [lra |].
  split; [rewrite Hb8, Hb7, Hb6, Hb5, Hb4, Hb3, Hb2, Hb1, !length_app; cbn; lia |].
  split; [rewrite Hv8, Hv7, Hv6, Hv5, Hv4, Hv3, Hv2, Hv1, !length_app; cbn; lia |].
  rewrite Hp8, Hp7, Hp6, Hp5, Hp4, Hp3, Hp2, Hp1.
  split.
  - rewrite !length_app. cbn [length estado_inicial puntos].
    specialize (Hf1 eq_refl). specialize (Hf2 eq_refl).
    specialize (Hf3 eq_refl). specialize (Hf4 eq_refl).
    specialize (Hf8 eq_refl). lia.
  - exists (n1 ++ n2 ++ n3 ++ n4 ++ n5 ++ n6 ++ n7 ++ n8).
    split; [cbn [estado_inicial puntos]; rewrite <- !app_assoc; reflexivity |].
    repeat (apply Forall_app; split; [assumption |]). assumption.
Qed.

(** X12.  The walk over any system the solver returns.  Whatever
    [calcular_sistema_completo] returns for (Q, D, rho, mu, epsilon),
    [crear_mapa_piezometrico] turns it into a profile: the walk ends
    2805.82 m from the river at elevation 100; it records 7 pump markers
    and 3 valve markers; it emits between 51 and 54 points; and every
    point after the river point has its HGL and gauge pressure derived
    from its EGL. *)
Theorem recorrido_del_sistema (hybr : solver) (Q D rho mu epsilon : R)
    (resultados : list (Z * resultado_sistema)) :
  calcular_sistema_completo hybr Q D rho mu epsilon = Ok resultados ->
  let hv := carga_cinetica (Q / area_seccion D) in
  exists st,
    crear_mapa_piezometrico resultados = Ok st /\
    dist_acum st = 2805.82 /\ elev_acum st = 100 /\
    length (bombas st) = 7%nat /\ length (valvulas st) = 3%nat /\
    (51 <= length (puntos st) <= 54)%nat /\
    exists resto,
      puntos st = mk_punto 0 0 0 0 0 :: resto /\ Forall (derivado hv) resto.
Proof.
  intros H hv.
  destruct (recorrido_sistema_hechos hybr Q D rho mu epsilon resultados H)
    as (st & Hst & Hd & He & _ & _ & Hb & Hv & Hl & Hp).
  exists st. repeat (split; [assumption |]). exact Hp.
Qed.

(** The system at the design point. *)
Lemma recorrido_del_sistema_witness :
  exists resultados st,
    calcular_sistema_completo (hybr_fijo 1) 0.025 0.1541 998 0.001 0.000046 =
    Ok resultados /\
    crear_mapa_piezometrico resultados = Ok st /\
    dist_acum st = 2805.82 /\ elev_acum st = 100 /\
    length (bombas st) = 7%nat /\ length (valvulas st) = 3%nat.
Proof.
  destruct friction_design as (Re & fh & fs & HR & _ & Hh & _ & Hs & Hc).
  destruct (calcular_items_flujo (hybr_fijo 1) 0.025 0.1541 998 0.001 0.000046
              Re fh fh fs obtener_definicion_tramos HR Hc Hh Hs)
    as (rs & Hrs & _).
  destruct (recorrido_del_sistema (hybr_fijo 1) 0.025 0.1541 998 0.001
              0.000046 rs Hrs)
    as (st & Hst & Hd & He & Hb & Hv & _).
  exists rs, st. repeat split; assumption.
Defined.

(** ** The terrain profile of obtener_elevaciones_acumuladas *)

Lemma sorted_snoc (l : list R) (x : R) :
  StronglySorted Rle l -> Forall (fun a => a <= x) l ->
  StronglySorted Rle (l ++ [x]).
Proof.
  induction l as [| a l IH]; intros Hs Hb; cbn.
  - repeat constructor.
  - apply StronglySorted_inv in Hs as [Hs Ha].
    pose proof (Forall_inv Hb) as Hax. pose proof (Forall_inv_tail Hb) as Hb'.
    constructor; [now apply IH |].
    apply Forall_app. split; [exact Ha | now constructor].
Qed.

(** Appending a point at a distance not behind the running one keeps the
    profile ordered and behind the new running distance. *)
Lemma perfil_snoc (puntos : list punto_terreno) (dist dist' elev : R) (i : Z) :
  StronglySorted Rle (map pt_distancia_acum puntos) ->
  Forall (fun p => pt_distancia_acum p <= dist) puntos ->
  dist <= dist' ->
  StronglySorted Rle
    (map pt_distancia_acum (puntos ++ [mk_punto_terreno dist' elev i])) /\
  Forall (fun p => pt_distancia_acum p <= dist')
    (puntos ++ [mk_punto_terreno dist' elev i]).
Proof.
  intros Hs Hb Hd. split.
  - rewrite map_app. cbn. apply sorted_snoc; [exact Hs |].
    apply Forall_map. eapply Forall_impl; [| exact Hb]. cbn. intros p Hp. lra.
  - apply Forall_app. split.
    + eapply Forall_impl; [| exact Hb]. cbn. intros p Hp. lra.
    + constructor; [cbn; lra | constructor].
Qed.

Lemma acumular_tramos_spec (tramos : list (Z * definicion)) (nums : list Z) :
  Forall (fun k => exists t, getitem tramos k = Ok t /\ 0 <= d_distancia t)
    nums ->
  forall dist elev puntos,
  StronglySorted Rle (map pt_distancia_acum puntos) ->
  Forall (fun p => pt_distancia_acum p <= dist) puntos ->
  exists dist' elev' nuevos,
    acumular_tramos tramos nums dist elev puntos =
      Ok (dist', elev', puntos ++ nuevos) /\
    length nuevos = length nums /\
    StronglySorted Rle (map pt_distancia_acum (puntos ++ nuevos)) /\
    Forall (fun p => pt_distancia_acum p <= dist') (puntos ++ nuevos).
Proof.
  induction 1 as [| k nums (t & Ht & Hpos) _ IH]; intros dist elev puntos Hs Hb.
  - exists dist, elev, []. rewrite app_nil_r. repeat split; assumption.
  - cbn [acumular_tramos]. rewrite Ht. cbn [bind].
    destruct (perfil_snoc puntos dist (dist + d_distancia t)
                (elev + d_altura t) k Hs Hb) as (Hs' & Hb'); [lra |].
    destruct (IH _ (elev + d_altura t) _ Hs' Hb')
      as (dist' & elev' & nuevos & E & Hl & Hs'' & Hb'').
    exists dist', elev', (mk_punto_terreno (dist + d_distancia t)
                            (elev + d_altura t) k :: nuevos).
    rewrite <- app_assoc in E, Hs'', Hb''. cbn [app] in E, Hs'', Hb''.
    repeat split; try assumption. cbn. now rewrite Hl.
Qed.

Lemma acumular_sub_segmentos_spec (segs : list (R * option R)) :
  Forall (fun seg => 0 <= fst seg) segs ->
  forall dist elev puntos,
  StronglySorted Rle (map pt_distancia_acum puntos) ->
  Forall (fun p => pt_distancia_acum p <= dist) puntos ->
  exists nuevos,
    acumular_sub_segmentos segs dist elev puntos = puntos ++ nuevos /\
    length nuevos = length (filter tiene_altura segs) /\
    Forall (fun p => pt_tramo p = 8%Z) nuevos /\
    StronglySorted Rle (map pt_distancia_acum (puntos ++ nuevos)).
Proof.
  induction 1 as [| [distancia [altura |]] segs Hpos _ IH];
    intros dist elev puntos Hs Hb.
  - exists []. rewrite app_nil_r. repeat split; try assumption. constructor.
  - cbn [acumular_sub_segmentos]. cbn in Hpos.
    destruct (perfil_snoc puntos dist (dist + distancia) (elev + altura) 8
                Hs Hb) as (Hs' & Hb'); [lra |].
    destruct (IH _ (elev + altura) _ Hs' Hb') as (nuevos & E & Hl & H8 & Hs'').
    exists (mk_punto_terreno (dist + distancia) (elev + altura) 8 :: nuevos).
    rewrite <- app_assoc in E, Hs''. cbn [app] in E, Hs''.
    repeat split; try assumption.
    + cbn. now rewrite Hl.
    + now constructor.
  - cbn [acumular_sub_segmentos].
    destruct (IH dist elev puntos Hs Hb) as (nuevos & E & Hl & H8 & Hs').
    exists nuevos. repeat split; assumption.
Qed.

(** X13.  The terrain profile, for any registry that has the eight
    segments with non-negative plan distances (1 to 7) and any list of
    sub-segments with non-negative distances: the function returns a
    list that starts at the river (0, 0), has one point per segment 1 to
    7 plus one per sub-segment whose altura is not None, and whose
    cumulative distances never decrease. *)
Theorem elevaciones_acumuladas_ordenadas (tramos : list (Z * definicion))
    (sub_segmentos : list (R * option R)) :
  (forall k, (1 <= k <= 7)%Z ->
     exists t, getitem tramos k = Ok t /\ 0 <= d_distancia t) ->
  (exists t, getitem tramos 8%Z = Ok t) ->
  Forall (fun seg => 0 <= fst seg) sub_segmentos ->
  exists puntos,
    elevaciones_acumuladas tramos sub_segmentos = Ok puntos /\
    hd_error puntos = Some (mk_punto_terreno 0 0 0) /\
    length puntos = (8 + length (filter tiene_altura sub_segmentos))%nat /\
    StronglySorted Rle (map pt_distancia_acum puntos).
Proof.
  intros H17 (t8 & H8) Hsub. unfold elevaciones_acumuladas.
  destruct (acumular_tramos_spec tramos [1; 2; 3; 4; 5; 6; 7]%Z) with
    (dist := 0) (elev := 0) (puntos := [mk_punto_terreno 0 0 0])
    as (dist' & elev' & nuevos & E & Hl & Hs & Hb).
  { repeat constructor; apply H17; lia. }
  { repeat constructor. }
  { constructor; [cbn; lra | constructor]. }
  rewrite E. cbn [bind]. rewrite H8. cbn [bind].
  destruct (acumular_sub_segmentos_spec sub_segmentos Hsub dist' elev' _ Hs Hb)
    as (nuevos' & E' & Hl' & _ & Hs').
  eexists. split; [rewrite E'; reflexivity |].
  split; [reflexivity |]. split; [| exact Hs'].
  cbn [app length]. rewrite length_app, Hl, Hl'. cbn. lia.
Qed.

(** The shipped registry: 14 points, the sub-segment without altura
    being skipped. *)
Lemma elevaciones_acumuladas_ordenadas_witness :
  exists puntos,
    obtener_elevaciones_acumuladas = Ok puntos /\
    hd_error puntos = Some (mk_punto_terreno 0 0 0) /\
    length puntos = 14%nat /\
    StronglySorted Rle (map pt_distancia_acum puntos).
Proof.
  destruct (elevaciones_acumuladas_ordenadas obtener_definicion_tramos
              sub_segmentos_tramo8) as (puntos & E & Hh & Hl & Hs).
  - intros k Hk.
    assert (Hc : (k = 1 \/ k = 2 \/ k = 3 \/ k = 4 \/ k = 5 \/ k = 6
                  \/ k = 7)%Z) by lia.
    destruct Hc as [-> | [-> | [-> | [-> | [-> | [-> | ->]]]]]];
      eexists; (split; [reflexivity | cbn; lra]).
  - eexists. reflexivity.
  - unfold sub_segmentos_tramo8. repeat constructor; cbn; lra.
  - exists puntos. repeat split; assumption.
Defined.

Lemma obtener_elevaciones_acumuladas_fin :
  exists puntos p,
    obtener_elevaciones_acumuladas = Ok puntos /\
    last puntos (mk_punto_terreno 0 0 0) = p /\
    pt_distancia_acum p = 2805.82 /\ pt_elevacion p = 60 /\
    pt_tramo p = 8%Z.
Proof.
  unfold obtener_elevaciones_acumuladas, elevaciones_acumuladas.
  cbn [acumular_tramos acumular_sub_segmentos getitem bind Z.eqb Pos.eqb
       obtener_definicion_tramos sub_segmentos_tramo8 app
       d_distancia d_altura tramo1 tramo2 tramo3 tramo4 tramo5 tramo6 tramo7
       tramo8].
  do 2 eexists. split; [reflexivity |]. split; [reflexivity |].
  cbn [last pt_distancia_acum pt_elevacion pt_tramo].
  repeat split; lra.
Qed.

(** X14.  The two terrain profiles of the program end at the same
    distance but not at the same height: for every system the solver
    returns, the last point of [obtener_elevaciones_acumuladas] lies at
    the distance where the energy walk ends (2805.82 m) and 40 m below
    the elevation where the walk ends (60 against 100), because the
    sub-segment alturas of segment 8 are added up as increments while
    the walk uses the segment's altura. *)
Theorem perfil_y_recorrido (hybr : solver) (Q D rho mu epsilon : R)
    (resultados : list (Z * resultado_sistema)) :
  calcular_sistema_completo hybr Q D rho mu epsilon = Ok resultados ->
  exists st puntos p,
    crear_mapa_piezometrico resultados = Ok st /\
    obtener_elevaciones_acumuladas = Ok puntos /\
    last puntos (mk_punto_terreno 0 0 0) = p /\
    pt_distancia_acum p = dist_acum st /\
    pt_elevacion p = elev_acum st - 40.
Proof.
  intros H.
  destruct (recorrido_sistema_hechos hybr Q D rho mu epsilon resultados H)
    as (st & Hst & Hd & He & _).
  destruct obtener_elevaciones_acumuladas_fin as (puntos & p & E & Hp & Hpd & Hpe & _).
  exists st, puntos, p. repeat split; try assumption; lra.
Qed.

Lemma perfil_y_recorrido_witness :
  exists resultados st puntos p,
    calcular_sistema_completo (hybr_fijo 1) 0.025 0.1541 998 0.001 0.000046 =
    Ok resultados /\
    crear_mapa_piezometrico resultados = Ok st /\
    obtener_elevaciones_acumuladas = Ok puntos /\
    last puntos (mk_punto_terreno 0 0 0) = p /\
    pt_distancia_acum p = dist_acum st /\
    pt_elevacion p = elev_acum st - 40.
Proof.
  destruct friction_design as (Re & fh & fs & HR & _ & Hh & _ & Hs & Hc).
  destruct (calcular_items_flujo (hybr_fijo 1) 0.025 0.1541 998 0.001 0.000046
              Re fh fh fs obtener_definicion_tramos HR Hc Hh Hs)
    as (rs & Hrs & _).
  destruct (perfil_y_recorrido (hybr_fijo 1) 0.025 0.1541 998 0.001 0.000046
              rs Hrs) as (st & puntos & p & H).
  exists rs, st, puntos, p. split; [exact Hrs | exact H].
Defined.

(** ** The charts and the 3D view over a solved system *)

(** A solved system is a list of eight results keyed 1 to 8, each the
    result of its registry segment. *)
Lemma sistema_forma (hybr : solver) (Q D rho mu epsilon : R)
    (resultados : list (Z * resultado_sistema)) :
  calcular_sistema_completo hybr Q D rho mu epsilon = Ok resultados ->
  exists rs1 rs2 rs3 rs4 rs5 rs6 rs7 rs8,
    resultados = [(1, rs1); (2, rs2); (3, rs3); (4, rs4);
                  (5, rs5); (6, rs6); (7, rs7); (8, rs8)]%Z /\
    calcular_definicion hybr Q D rho mu epsilon tramo1 = Ok rs1 /\
    calcular_definicion hybr Q D rho mu epsilon tramo2 = Ok rs2 /\
    calcular_definicion hybr Q D rho mu epsilon tramo3 = Ok rs3 /\
    calcular_definicion hybr Q D rho mu epsilon tramo4 = Ok rs4 /\
    calcular_definicion hybr Q D rho mu epsilon tramo5 = Ok rs5 /\
    calcular_definicion hybr Q D rho mu epsilon tramo6 = Ok rs6 /\
    calcular_definicion hybr Q D rho mu epsilon tramo7 = Ok rs7 /\
    calcular_definicion hybr Q D rho mu epsilon tramo8 = Ok rs8.
Proof.
  intros H. unfold calcular_sistema_completo in H.
  apply calcular_items_forma in H. unfold obtener_definicion_tramos in H.
  inversion H as [| [k1 rs1] kd1 l1 m1 [K1 C1] H1]; subst; clear H;
    rename H1 into H; cbn in K1, C1; subst k1.
  inversion H as [| [k2 rs2] kd2 l2 m2 [K2 C2] H2]; subst; clear H;
    rename H2 into H; cbn in K2, C2; subst k2.
  inversion H as [| [k3 rs3] kd3 l3 m3 [K3 C3] H3]; subst; clear H;
    rename H3 into H; cbn in K3, C3; subst k3.
  inversion H as [| [k4 rs4] kd4 l4 m4 [K4 C4] H4]; subst; clear H;
    rename H4 into H; cbn in K4, C4; subst k4.
  inversion H as [| [k5 rs5] kd5 l5 m5 [K5 C5] H5]; subst; clear H;
    rename H5 into H; cbn in K5, C5; subst k5.
  inversion H as [| [k6 rs6] kd6 l6 m6 [K6 C6] H6]; subst; clear H;
    rename H6 into H; cbn in K6, C6; subst k6.
  inversion H as [| [k7 rs7] kd7 l7 m7 [K7 C7] H7]; subst; clear H;
    rename H7 into H; cbn in K7, C7; subst k7.
  inversion H as [| [k8 rs8] kd8 l8 m8 [K8 C8] H8]; subst; clear H;
    rename H8 into H; cbn in K8, C8; subst k8.
  inversion H; subst; clear H.
  exists rs1, rs2, rs3, rs4, rs5, rs6, rs7, rs8. repeat split; assumption.
Qed.

Lemma calcular_definicion_cargas (hybr : solver) (Q D rho mu epsilon : R)
    (defn : definicion) (rs : resultado_sistema) :
  calcular_definicion hybr Q D rho mu epsilon defn = Ok rs ->
  let r := rs_tramo rs in
  r_es_bajada r = d_es_bajada defn /\
  r_carga_total r =
    (Rabs (r_z_estacion r) + r_perdidas_friccion_colebrook r
     + r_perdidas_menores r) * IZR (r_num_estaciones r) /\
  (d_z defn = 0 -> r_z_estacion r = 0).
Proof.
  unfold calcular_definicion. intros H.
  apply bind_ok_inv in H as (r & Hr & H). injection H as <-.
  destruct (calcular_tramo_inv _ _ _ _ _ _ _ _ _ _ _ _ Hr)
    as (Re & fc & fh & fs & HR & Hc & Hh & Hs).
  rewrite (calcular_tramo_ok hybr Q D _ _ rho mu epsilon _ _ _
             Re fc fh fs HR Hc Hh Hs) in Hr.
  injection Hr as <-. cbn. repeat split.
  intros ->. destruct (0 <? d_num_estaciones defn)%Z; [| reflexivity].
  unfold Rdiv. ring.
Qed.

(** X15.  The stacked bars add up to the head: for every system the
    solver returns, [crear_desglose_perdidas] produces three series of
    eight values, and in each segment the elevation bar plus the friction
    bar plus the fittings bar equals the segment's total head
    ['carga_total']. *)
Theorem desglose_suma_carga_total (hybr : solver) (Q D rho mu epsilon : R)
    (resultados : list (Z * resultado_sistema)) :
  calcular_sistema_completo hybr Q D rho mu epsilon = Ok resultados ->
  exists d,
    crear_desglose_perdidas resultados = Ok d /\
    length (z_vals d) = 8%nat /\ length (hf_vals d) = 8%nat /\
    length (hm_vals d) = 8%nat /\
    Forall2 (fun barras kr =>
               fst (fst barras) + snd (fst barras) + snd barras =
               r_carga_total (rs_tramo (snd kr)))
      (combine (combine (z_vals d) (hf_vals d)) (hm_vals d)) resultados.
Proof.
  intros H.
  destruct (sistema_forma _ _ _ _ _ _ _ H)
    as (rs1 & rs2 & rs3 & rs4 & rs5 & rs6 & rs7 & rs8 & ->
        & C1 & C2 & C3 & C4 & C5 & C6 & C7 & C8).
  unfold crear_desglose_perdidas.
  cbn [desglose_tramos desglose_paso getitem bind Z.eqb Pos.eqb app
       z_vals hf_vals hm_vals].
  eexists. split; [reflexivity |].
  cbn [z_vals hf_vals hm_vals length combine].
  split; [reflexivity |]. split; [reflexivity |]. split; [reflexivity |].
  constructor.
  { destruct (calcular_definicion_cargas _ _ _ _ _ _ _ _ C1) as (Eb & Et & Ez).
    cbv zeta in Eb, Et, Ez. cbn in Eb, Ez. cbn [fst snd]. rewrite Eb, Et.
    try (rewrite (Ez eq_refl), Rabs_R0). ring. }
  constructor.
  { destruct (calcular_definicion_cargas _ _ _ _ _ _ _ _ C2) as (Eb & Et & Ez).
    cbv zeta in Eb, Et, Ez. cbn in Eb, Ez. cbn [fst snd]. rewrite Eb, Et.
    try (rewrite (Ez eq_refl), Rabs_R0). ring. }
  constructor.
  { destruct (calcular_definicion_cargas _ _ _ _ _ _ _ _ C3) as (Eb & Et & Ez).
    cbv zeta in Eb, Et, Ez. cbn in Eb, Ez. cbn [fst snd]. rewrite Eb, Et.
    try (rewrite (Ez eq_refl), Rabs_R0). ring. }
  constructor.
  { destruct (calcular_definicion_cargas _ _ _ _ _ _ _ _ C4) as (Eb & Et & Ez).
    cbv zeta in Eb, Et, Ez. cbn in Eb, Ez. cbn [fst snd]. rewrite Eb, Et.
    try (rewrite (Ez eq_refl), Rabs_R0). ring. }
  constructor.
  { destruct (calcular_definicion_cargas _ _ _ _ _ _ _ _ C5) as (Eb & Et & Ez).
    cbv zeta in Eb, Et, Ez. cbn in Eb, Ez. cbn [fst snd]. rewrite Eb, Et.
    try (rewrite (Ez eq_refl), Rabs_R0). ring. }
  constructor.
  { destruct (calcular_definicion_cargas _ _ _ _ _ _ _ _ C6) as (Eb & Et & Ez).
    cbv zeta in Eb, Et, Ez. cbn in Eb, Ez. cbn [fst snd]. rewrite Eb, Et.
    try (rewrite (Ez eq_refl), Rabs_R0). ring. }
  constructor.
  { destruct (calcular_definicion_cargas _ _ _ _ _ _ _ _ C7) as (Eb & Et & Ez).
    cbv zeta in Eb, Et, Ez. cbn in Eb, Ez. cbn [fst snd]. rewrite Eb, Et.
    try (rewrite (Ez eq_refl), Rabs_R0). ring. }
  constructor.
  { destruct (calcular_definicion_cargas _ _ _ _ _ _ _ _ C8) as (Eb & Et & Ez).
    cbv zeta in Eb, Et, Ez. cbn in Eb, Ez. cbn [fst snd]. rewrite Eb, Et.
    try (rewrite (Ez eq_refl), Rabs_R0). ring. }
  constructor.
Qed.

Lemma desglose_suma_carga_total_witness :
  exists resultados d,
    calcular_sistema_completo (hybr_fijo 1) 0.025 0.1541 998 0.001 0.000046 =
    Ok resultados /\
    crear_desglose_perdidas resultados = Ok d /\
    Forall2 (fun barras kr =>
               fst (fst barras) + snd (fst barras) + snd barras =
               r_carga_total (rs_tramo (snd kr)))
      (combine (combine (z_vals d) (hf_vals d)) (hm_vals d)) resultados.
Proof.
  destruct friction_design as (Re & fh & fs & HR & _ & Hh & _ & Hs & Hc).
  destruct (calcular_items_flujo (hybr_fijo 1) 0.025 0.1541 998 0.001 0.000046
              Re fh fh fs obtener_definicion_tramos HR Hc Hh Hs)
    as (rs & Hrs & _).
  destruct (desglose_suma_carga_total (hybr_fijo 1) 0.025 0.1541 998 0.001
              0.000046 rs Hrs) as (d & Hd & _ & _ & _ & Hall).
  exists rs, d. repeat split; assumption.
Defined.





(** X17.  The scene of the 3D view is normalised: a segment of positive
    length is always drawn 10 units long, with its height scaled by the
    same factor; a length of zero or less is drawn unscaled; the drawn
    diameter is never below 0.15; the angle is never negative and is 0
    exactly when the slope is 0; and the sign is -1 exactly when the
    elevation change is negative, +1 otherwise. *)
Theorem escena_normalizada (longitud diametro pendiente altura : R) :
  let e := escena_modelo_3d longitud diametro pendiente altura in
  (0 < longitud ->
   L_vis e = 10 /\ H_vis e * longitud = 10 * altura /\
   escala e = 10 / longitud) /\
  (longitud <= 0 ->
   escala e = 1 /\ L_vis e = longitud /\ H_vis e = altura) /\
  0.15 <= D_vis e /\
  0 <= angulo_rad e /\
  (angulo_rad e = 0 <-> pendiente = 0) /\
  (altura < 0 -> signo e = (-1)%Z) /\
  (0 <= altura -> signo e = 1%Z).
Proof.
  cbv zeta. unfold escena_modelo_3d. cbn [L_vis H_vis escala D_vis angulo_rad signo].
  assert (HP := PI_RGT_0).
  split; [| split; [| split; [| split; [| split; [| split]]]]].
  - intros HL. destruct (Rlt_dec 0 longitud); [| lra].
    repeat split; try reflexivity; field; lra.
  - intros HL. destruct (Rlt_dec 0 longitud); [lra |].
    repeat split; ring.
  - apply Rmax_r.
  - destruct (Req_dec_T pendiente 0); [lra |].
    unfold radians. assert (0 <= Rabs pendiente) by apply Rabs_pos. nra.
  - destruct (Req_dec_T pendiente 0) as [E | N]; [tauto |].
    split; [| contradiction]. intros H0. exfalso.
    unfold radians in H0. assert (0 < Rabs pendiente) by now apply Rabs_pos_lt.
    nra.
  - intros Ha. destruct (Rle_dec 0 altura); [lra | reflexivity].
  - intros Ha. destruct (Rle_dec 0 altura); [reflexivity | contradiction].
Qed.

(** ** The totals of the dashboard *)



(** ** A stagnant column *)

(** X19.  With no flow (Q = 0) in a pipe with D <> 0 and mu <> 0,
    [calcular_tramo] returns without calling on any correlation: velocity,
    kinetic head and Reynolds number are 0, the three friction factors
    and every loss are 0, the per-station head is the bare lift
    |z_estacion|, and the pump power is 0 kW. *)
Theorem sin_caudal (hybr : solver)
    (D L z rho mu epsilon K_total : R) (n : Z) (es_bajada : bool) :
  D <> 0 -> mu <> 0 ->
  exists r,
    calcular_tramo hybr 0 D L z rho mu epsilon K_total n es_bajada = Ok r /\
    r_velocidad r = 0 /\ r_carga_cinetica r = 0 /\ r_reynolds r = 0 /\
    r_f_colebrook r = 0 /\ r_f_haaland r = 0 /\ r_f_swamee_jain r = 0 /\
    r_perdidas_friccion_colebrook r = 0 /\
    r_perdidas_friccion_haaland r = 0 /\ r_perdidas_menores r = 0 /\
    r_carga_estacion r = Rabs (r_z_estacion r) /\
    r_potencia_kw r = 0 /\ r_potencia_hp r = 0.
Proof.
  intros HD Hmu.
  assert (HR : reynolds_tramo 0 D rho mu = Ok 0).
  { rewrite (reynolds_tramo_ok 0 D rho mu HD Hmu). f_equal. unfold Rdiv. ring. }
  assert (H0 : 0 <= 0) by lra.
  eexists. split.
  - exact (calcular_tramo_ok hybr 0 D L z rho mu epsilon K_total n es_bajada
             0 0 0 0 HR (f_colebrook_sentinel hybr 0 epsilon D H0)
             (f_haaland_sentinel 0 epsilon D H0)
             (f_swamee_jain_sentinel 0 epsilon D H0)).
  - cbn. unfold carga_cinetica.
    replace (0 / area_seccion D) with 0 by (unfold Rdiv; ring).
    repeat split; try reflexivity; try (unfold Rdiv; ring);
      destruct es_bajada; unfold Rdiv; ring.
Qed.

(** Segment 1 of the registry with the intake closed. *)
Lemma sin_caudal_witness :
  exists r,
    calcular_tramo (hybr_fijo 1) 0 0.1541 211.13 100 998 0.001 0.000046 1.62
      1 false = Ok r /\
    r_velocidad r = 0 /\ r_carga_estacion r = Rabs (r_z_estacion r) /\
    r_potencia_kw r = 0.
Proof.
  destruct (sin_caudal (hybr_fijo 1) 0.1541 211.13 100 998 0.001 0.000046
              1.62 1 false) as (r & Hr & Hv & _ & _ & _ & _ & _ & _ & _ & _
                                & HH & HP & _); try lra.
  exists r. repeat split; assumption.
Defined.

(** ** The coloured profile of crear_perfil_terreno_con_tramos *)

Lemma last_cons_cons {A : Type} (l : list A) (a d : A) :
  last (a :: l) d = last l a.
Proof.
  revert a d. induction l as [| b l IH]; intros a d; [reflexivity |].
  change (last (b :: l) d = last (b :: l) a).
  now rewrite !IH.
Qed.

(** The two loops over segments 1 to 7 walk in step: the line of each
    segment ends on the terrain point of that segment and starts where
    the previous one ended. *)
Lemma perfil_tramos_sobre_relleno (tramos : list (Z * definicion))
    (nums : list Z) :
  forall dist elev puntos lineas dist' elev' puntos',
  acumular_tramos tramos nums dist elev puntos = Ok (dist', elev', puntos') ->
  exists nuevos segs,
    puntos' = puntos ++ nuevos /\ length nuevos = length nums /\
    perfil_tramos tramos nums dist elev lineas =
      Ok (dist', elev', lineas ++ segs) /\
    Forall2 termina_en segs nuevos /\
    (forall sg, hd_error segs = Some sg -> s_x0 sg = dist /\ s_y0 sg = elev) /\
    (forall a b c d, segs = a ++ b :: c :: d ->
       s_x0 c = s_x1 b /\ s_y0 c = s_y1 b) /\
    last (map fin_segmento segs) (dist, elev) = (dist', elev').
Proof.
  induction nums as [| i nums IH];
    intros dist elev puntos lineas dist' elev' puntos' H.
  - cbn in H. injection H as <- <- <-.
    exists [], []. rewrite !app_nil_r.
    repeat split; try constructor; try discriminate.
    + destruct a; discriminate.
    + destruct a; discriminate.
  - cbn [acumular_tramos] in H.
    apply bind_ok_inv in H as (t & Ht & H).
    destruct (IH _ _ _ (lineas ++ [mk_segmento dist elev
                                     (dist + d_distancia t)
                                     (elev + d_altura t) i])
                _ _ _ H) as (nuevos & segs & Ep & Hl & Es & Hall & Hhd & Hch
                             & Hlast).
    exists (mk_punto_terreno (dist + d_distancia t) (elev + d_altura t) i
            :: nuevos),
           (mk_segmento dist elev (dist + d_distancia t) (elev + d_altura t) i
            :: segs).
    split; [rewrite Ep, <- app_assoc; reflexivity |].
    split; [cbn; now rewrite Hl |].
    split; [cbn [perfil_tramos]; rewrite Ht; cbn [bind]; rewrite Es,
            <- app_assoc; reflexivity |].
    split; [constructor; [cbn; repeat split | exact Hall] |].
    split; [intros sg Hsg; injection Hsg as <-; split; reflexivity |].
    split.
    + intros a b c d E. destruct a as [| a0 a].
      * cbn in E. injection E as <- E.
        destruct (Hhd c) as [Hx Hy]; [rewrite E; reflexivity |].
        cbn. split; assumption.
      * cbn in E. injection E as _ E. now apply (Hch a b c d).
    + cbn [map]. rewrite last_cons_cons. exact Hlast.
Qed.

Lemma acumular_sub_segmentos_app (segs : list (R * option R)) :
  forall dist elev puntos,
  exists resto,
    acumular_sub_segmentos segs dist elev puntos = puntos ++ resto.
Proof.
  induction segs as [| [d [a |]] segs IH]; intros dist elev puntos.
  - exists []. now rewrite app_nil_r.
  - cbn [acumular_sub_segmentos].
    destruct (IH (dist + d) (elev + a)
                (puntos ++ [mk_punto_terreno (dist + d) (elev + a) 8]))
      as (resto & ->).
    eexists. rewrite <- app_assoc. reflexivity.
  - cbn [acumular_sub_segmentos]. apply IH.
Qed.

(** X20.  In the terrain figure, for any registry and sub-segment list
    for which it can be drawn: the seven coloured lines lie on the
    terrain fill (the line of segment i ends on the i-th point after the
    river, the first line starts at the river and each next one where
    the previous ended), and the dotted line of segment 8 starts where
    line 7 ends and ends 1837.5 m further and 100 m higher, whatever the
    registry and the sub-segments say about segment 8. *)
Theorem perfil_lineas_sobre_relleno (tramos : list (Z * definicion))
    (sub_segmentos : list (R * option R)) (pf : perfil) :
  perfil_terreno_con_tramos tramos sub_segmentos = Ok pf ->
  exists nuevos resto x7 y7,
    relleno pf = mk_punto_terreno 0 0 0 :: nuevos ++ resto /\
    length nuevos = 7%nat /\
    Forall2 termina_en (lineas_tramos pf) nuevos /\
    (forall sg, hd_error (lineas_tramos pf) = Some sg ->
       s_x0 sg = 0 /\ s_y0 sg = 0) /\
    (forall a b c d, lineas_tramos pf = a ++ b :: c :: d ->
       s_x0 c = s_x1 b /\ s_y0 c = s_y1 b) /\
    last (map fin_segmento (lineas_tramos pf)) (0, 0) = (x7, y7) /\
    hd_error (linea_8 pf) = Some (x7, y7) /\
    last (linea_8 pf) (0, 0) = (x7 + 1837.5, y7 + 100).
Proof.
  unfold perfil_terreno_con_tramos, elevaciones_acumuladas. intros H.
  apply bind_ok_inv in H as (puntos & Hp & H).
  apply bind_ok_inv in Hp as ([[dist' elev'] puntos'] & Ha & Hp).
  apply bind_ok_inv in Hp as (t8 & _ & Hp). injection Hp as <-.
  destruct (perfil_tramos_sobre_relleno tramos [1; 2; 3; 4; 5; 6; 7]%Z
              0 0 [mk_punto_terreno 0 0 0] [] dist' elev' puntos' Ha)
    as (nuevos & segs & -> & Hl & Es & Hall & Hhd & Hch & Hlast).
  rewrite Es in H. cbn [bind app] in H. injection H as <-.
  cbn [relleno lineas_tramos linea_8].
  destruct (acumular_sub_segmentos_app sub_segmentos dist' elev'
              (mk_punto_terreno 0 0 0 :: nuevos)) as (resto & E).
  exists nuevos, resto, dist', elev'.
  split; [exact E |].
  split; [exact Hl |]. split; [exact Hall |]. split; [exact Hhd |].
  split; [exact Hch |]. split; [exact Hlast |].
  split; reflexivity.
Qed.

(** The figure of the shipped registry. *)
Lemma perfil_lineas_sobre_relleno_witness :
  exists pf nuevos resto x7 y7,
    crear_perfil_terreno_con_tramos = Ok pf /\
    relleno pf = mk_punto_terreno 0 0 0 :: nuevos ++ resto /\
    length nuevos = 7%nat /\
    Forall2 termina_en (lineas_tramos pf) nuevos /\
    last (map fin_segmento (lineas_tramos pf)) (0, 0) = (x7, y7) /\
    last (linea_8 pf) (0, 0) = (x7 + 1837.5, y7 + 100).
Proof.
  assert (E : exists pf, crear_perfil_terreno_con_tramos = Ok pf).
  { unfold crear_perfil_terreno_con_tramos, perfil_terreno_con_tramos,
      elevaciones_acumuladas.
    cbn [acumular_tramos perfil_tramos getitem bind Z.eqb Pos.eqb
         obtener_definicion_tramos].
    eexists. reflexivity. }
  destruct E as (pf & E).
  destruct (perfil_lineas_sobre_relleno obtener_definicion_tramos
              sub_segmentos_tramo8 pf E)
    as (nuevos & resto & x7 & y7 & H1 & H2 & H3 & _ & _ & H6 & _ & H8).
  exists pf, nuevos, resto, x7, y7. repeat split; assumption.
Defined.
